(** * xtesting.core.campaign: dump, archive and publish a test campaign

    A shallow embedding of [src/xtesting/core/campaign.py] (class
    [Campaign]: [dump_db], [dump_artifacts], [zip_campaign_files]) and of
    the parts of the Python standard library, [requests] and [boto3] its
    behaviour depends on.

    Conventions of the embedding.
    - Python [str] is [string]: a sequence of 8-bit characters.  Text outside
      ASCII is not distinguished from its byte encoding.
    - Python exceptions are values of [exn]; a computation is a function
      from the world to a result and the world it leaves behind, so that
      effects performed before an exception is raised persist.
    - The process environment, the file system below the working
      directory, the results API, the object store, and the log are fields
      of [World]. *)

From stdpp Require Import gmap strings list.
From Stdlib Require Import Ascii String ZArith Lia.

Set Warnings "-register-all".

Open Scope string_scope.
Open Scope list_scope.

(** ** Python string operations *)

Module Str.

Definition slash : ascii := "/"%char.
Definition newline : ascii := "010"%char.

(** [s.startswith(p)] *)
Fixpoint startswith (p s : string) : bool :=
  match p, s with
  | EmptyString, _ => true
  | String a p', String b s' => if Ascii.eqb a b then startswith p' s' else false
  | String _ _, EmptyString => false
  end.

(** [s.endswith(c)] for a one-character suffix. *)
Fixpoint endswith_char (c : ascii) (s : string) : bool :=
  match s with
  | EmptyString => false
  | String a EmptyString => Ascii.eqb a c
  | String _ s' => endswith_char c s'
  end.

(** [p in s] *)
Fixpoint contains (p s : string) : bool :=
  startswith p s ||
  match s with
  | EmptyString => false
  | String _ s' => contains p s'
  end.

(** [c in s] for one character. *)
Fixpoint mem (c : ascii) (s : string) : bool :=
  match s with
  | EmptyString => false
  | String a s' => Ascii.eqb a c || mem c s'
  end.

(** [s[n:]] *)
Fixpoint drop (n : nat) (s : string) : string :=
  match n, s with
  | O, _ => s
  | S n', String _ s' => drop n' s'
  | S _, EmptyString => EmptyString
  end.

(** [s[:n]] *)
Fixpoint take (n : nat) (s : string) : string :=
  match n, s with
  | O, _ => EmptyString
  | S n', String a s' => String a (take n' s')
  | S _, EmptyString => EmptyString
  end.

(** [s.lstrip(c)] *)
Fixpoint lstrip (c : ascii) (s : string) : string :=
  match s with
  | String a s' => if Ascii.eqb a c then lstrip c s' else s
  | EmptyString => EmptyString
  end.

(** [s.rstrip(c)] *)
Fixpoint rstrip (c : ascii) (s : string) : string :=
  match s with
  | EmptyString => EmptyString
  | String a s' =>
      match rstrip c s' with
      | EmptyString => if Ascii.eqb a c then EmptyString else String a EmptyString
      | r => String a r
      end
  end.

(** [s.strip(c)] *)
Definition strip (c : ascii) (s : string) : string := rstrip c (lstrip c s).

(** [all(f(c) for c in s)] *)
Fixpoint all (f : ascii -> bool) (s : string) : bool :=
  match s with
  | EmptyString => true
  | String a s' => f a && all f s'
  end.

(** [''.join(c for c in s if f(c))] *)
Fixpoint filter (f : ascii -> bool) (s : string) : string :=
  match s with
  | EmptyString => EmptyString
  | String a s' => if f a then String a (filter f s') else filter f s'
  end.

(** [s.split(sep)] for a one-character separator: never empty. *)
Fixpoint split (sep : ascii) (s : string) : list string :=
  match s with
  | EmptyString => [EmptyString]
  | String a s' =>
      if Ascii.eqb a sep then EmptyString :: split sep s'
      else match split sep s' with
           | w :: ws => String a w :: ws
           | [] => [String a EmptyString]
           end
  end.

(** The text up to and including the last [c], and the text after it
    ([s[:i]] and [s[i:]] for [i = s.rfind(c) + 1]). *)
Fixpoint cut_last (c : ascii) (s : string) : string * string :=
  match s with
  | EmptyString => (EmptyString, EmptyString)
  | String a s' =>
      let '(h, t) := cut_last c s' in
      if mem c s' then (String a h, t)
      else if Ascii.eqb a c then (String a EmptyString, s')
      else (EmptyString, s)
  end.

End Str.

(** ** The fragment of Python's [re] module the program uses

    The program calls [re.sub] and [re.search] with three patterns: a
    constant at line 81 (a plain string literal, not an f-string, whose
    braces and brackets are therefore pattern text), a constant at line
    126 (optional leading slashes, one greedy group, optional trailing
    slashes, end of string) and, at lines 133, 138 and 143, the value of
    [s3path] interpolated between a caret and a starred slash.  Patterns
    are compiled from their text.  The fragment covers literal characters,
    the dot, simple character sets, the greedy star on one character, the
    caret, the dollar, capturing parentheses and a brace that cannot open
    a repeat count; any other pattern is rejected by [compile] in the way
    a malformed one is.  Python compiles more: alternation, the plus and
    the question mark, escapes, counted repeats, ranges in sets.  For a
    destination path with such characters the model raises where the
    program goes on; statements that depend on the pattern of lines 133
    to 143 are made for destination paths of plain characters. *)

Module Re.

Inductive atom :=
| Lit (c : ascii)
| Dot
| CharSet (cs : list ascii).

Inductive item :=
| One (a : atom)
| Star (a : atom)
| GroupOpen
| GroupClose
| Bol
| Eol.

Definition regex := list item.

Definition is_digit (c : ascii) : bool :=
  Nat.leb 48 (nat_of_ascii c) && Nat.leb (nat_of_ascii c) 57.

Definition is_repeat (c : ascii) : bool := Str.mem c "*+?".

(** First character of the rest of the pattern, if any. *)
Definition peek (s : string) : option ascii :=
  match s with
  | String c _ => Some c
  | EmptyString => None
  end.

Definition peek_is (f : ascii -> bool) (s : string) : bool :=
  match peek s with
  | Some c => f c
  | None => false
  end.

(** An atom followed by a star is a [Star]; [k] compiles the rest of the
    pattern.  A second quantifier after the star, and the quantifiers
    plus and question mark, are outside the fragment. *)
Definition is_star (c : ascii) : bool := Ascii.eqb c "*".

Fixpoint parse (depth : nat) (s : string) {struct s} : option regex :=
  match s with
  | EmptyString => match depth with O => Some [] | S _ => None end
  | String c s' =>
      let quantified (a : atom) (rest : string) : option regex :=
        match rest with
        | String q rest' =>
            if is_star q then
              if peek_is is_repeat rest' then None
              else cons (Star a) <$> parse depth rest'
            else if is_repeat q then None
            else cons (One a) <$> parse depth rest
        | EmptyString => cons (One a) <$> parse depth rest
        end in
      if Ascii.eqb c "^" then
        if peek_is is_repeat s' then None else cons Bol <$> parse depth s'
      else if Ascii.eqb c "$" then
        if peek_is is_repeat s' then None else cons Eol <$> parse depth s'
      else if Ascii.eqb c "(" then
        if peek_is (fun q => is_repeat q || Ascii.eqb q "?") s' then None
        else cons GroupOpen <$> parse (S depth) s'
      else if Ascii.eqb c ")" then
        match depth with
        | O => None
        | S d =>
            if peek_is (fun q => is_repeat q || Ascii.eqb q "{") s' then None
            else cons GroupClose <$> parse d s'
        end
      else if Str.mem c "*+?|\" then None
      else if Ascii.eqb c "." then quantified Dot s'
      else if Ascii.eqb c "[" then
        (* the body of a set up to its closing bracket; ranges, negation
           and escapes are outside the fragment *)
        (fix set_body (t : string) (acc : list ascii) {struct t} : option regex :=
           match t with
           | EmptyString => None
           | String b t' =>
               if Ascii.eqb b "]" then
                 match acc with
                 | [] => None
                 | _ => quantified (CharSet (rev acc)) t'
                 end
               else if Str.mem b "\-^[" then None
               else set_body t' (b :: acc)
           end) s' []
      else if Ascii.eqb c "{" then
        (* a brace that cannot start a repeat count is a literal *)
        if peek_is (fun q => is_digit q || Ascii.eqb q ",") s' then None
        else quantified (Lit c) s'
      else quantified (Lit c) s'
  end.

(** [re.compile(pattern)]; [None] stands for [re.error]. *)
Definition compile (pattern : string) : option regex := parse 0 pattern.

Definition atom_matches (a : atom) (c : ascii) : bool :=
  match a with
  | Lit l => Ascii.eqb l c
  | Dot => negb (Ascii.eqb c Str.newline)
  | CharSet cs => existsb (Ascii.eqb c) cs
  end.

(** Backtracking matcher.  [s] is the rest of the subject at offset
    [pos]; the result is the offset at which the match ends and the
    offsets at which group parentheses were crossed, in pattern order.
    The star is greedy: the longest run is tried first. *)
Fixpoint match_here (r : regex) (s : string) (pos : nat) {struct r}
  : option (nat * list nat) :=
  match r with
  | [] => Some (pos, [])
  | One a :: r' =>
      match s with
      | String c s' =>
          if atom_matches a c then match_here r' s' (S pos) else None
      | EmptyString => None
      end
  | Star a :: r' =>
      (fix star (s : string) (pos : nat) {struct s} : option (nat * list nat) :=
         match s with
         | String c s' =>
             if atom_matches a c then
               match star s' (S pos) with
               | Some res => Some res
               | None => match_here r' s pos
               end
             else match_here r' s pos
         | EmptyString => match_here r' s pos
         end) s pos
  | GroupOpen :: r' | GroupClose :: r' =>
      match match_here r' s pos with
      | Some (e, marks) => Some (e, pos :: marks)
      | None => None
      end
  | Bol :: r' =>
      match pos with
      | O => match_here r' s pos
      | S _ => None
      end
  | Eol :: r' =>
      match s with
      | EmptyString => match_here r' s pos
      | String c EmptyString =>
          if Ascii.eqb c Str.newline then match_here r' s pos else None
      | String _ _ => None
      end
  end.

(** [re.search]: the leftmost offset at which the pattern matches.  The
    result is the match's span and its group offsets. *)
Fixpoint search_from (r : regex) (s : string) (pos : nat)
  : option (nat * nat * list nat) :=
  match match_here r s pos with
  | Some (e, marks) => Some (pos, e, marks)
  | None =>
      match s with
      | String _ s' => search_from r s' (S pos)
      | EmptyString => None
      end
  end.

(** [re.search(pattern, s).group(1)] for a pattern with one group:
    [None] when the pattern does not compile or does not match (Python
    then raises [re.error], or [AttributeError] on [None.group]). *)
Definition search_group1 (pattern s : string) : option string :=
  match compile pattern with
  | Some r =>
      match search_from r s 0 with
      | Some (_, _, [b; e]) => Some (Str.take (e - b) (Str.drop b s))
      | _ => None
      end
  | None => None
  end.

(** [re.sub(r, '', s)] for a compiled pattern: every leftmost
    non-overlapping match is deleted.  [skip] counts the characters of
    the current match still to be deleted. *)
Fixpoint delete_matches (r : regex) (s : string) (pos skip : nat) : string :=
  match s with
  | EmptyString => EmptyString
  | String c s' =>
      match skip with
      | S k => delete_matches r s' (S pos) k
      | O =>
          match match_here r s pos with
          | Some (e, _) =>
              match e - pos with
              | S k => delete_matches r s' (S pos) k
              | O => String c (delete_matches r s' (S pos) 0)
              end
          | None => String c (delete_matches r s' (S pos) 0)
          end
      end
  end.

(** Where a match of [r] at the start of [s] ends, if there is one. *)
Definition leading_match (r : regex) (s : string) : option nat :=
  match match_here r s 0 with
  | Some (e, _) => Some e
  | None => None
  end.

(** [re.sub(pattern, '', s)]; [None] stands for [re.error]. *)
Definition sub_empty (pattern s : string) : option string :=
  match compile pattern with
  | Some r => Some (delete_matches r s 0 0)
  | None => None
  end.

End Re.

(** ** [urllib.parse] *)

Module Urllib.

Definition is_hex (c : ascii) : bool :=
  Re.is_digit c ||
  (Nat.leb 65 (nat_of_ascii c) && Nat.leb (nat_of_ascii c) 70) ||
  (Nat.leb 97 (nat_of_ascii c) && Nat.leb (nat_of_ascii c) 102).

Definition hex_value (c : ascii) : nat :=
  let n := nat_of_ascii c in
  if Re.is_digit c then n - 48
  else if Nat.leb 97 n then n - 87
  else n - 55.

(** [urllib.parse.unquote]: a percent sign followed by two hexadecimal
    digits is replaced by the character with that code; any other
    percent sign is kept. *)
Fixpoint unquote (s : string) : string :=
  match s with
  | EmptyString => EmptyString
  | String c s' =>
      match s' with
      | String h (String l rest) =>
          if Ascii.eqb c "%" && is_hex h && is_hex l
          then String (ascii_of_nat (16 * hex_value h + hex_value l)) (unquote rest)
          else String c (unquote s')
      | _ => String c (unquote s')
      end
  end.

Fixpoint plus_to_space (s : string) : string :=
  match s with
  | EmptyString => EmptyString
  | String c s' =>
      String (if Ascii.eqb c "+" then " "%char else c) (plus_to_space s')
  end.

(** [urllib.parse.unquote_plus] *)
Definition unquote_plus (s : string) : string := unquote (plus_to_space s).

Definition is_alpha (c : ascii) : bool :=
  let n := nat_of_ascii c in
  (Nat.leb 65 n && Nat.leb n 90) || (Nat.leb 97 n && Nat.leb n 122).

Definition is_scheme_char (c : ascii) : bool :=
  is_alpha c || Re.is_digit c || Str.mem c "+-.".

Definition lower_char (c : ascii) : ascii :=
  let n := nat_of_ascii c in
  if Nat.leb 65 n && Nat.leb n 90 then ascii_of_nat (n + 32) else c.

Fixpoint lower (s : string) : string :=
  match s with
  | EmptyString => EmptyString
  | String c s' => String (lower_char c) (lower s')
  end.

(** [s.partition(c)]: the text before the first character satisfying
    [f], and the rest from that character on ([None] when there is
    none). *)
Fixpoint break (f : ascii -> bool) (s : string) : string * option string :=
  match s with
  | EmptyString => (EmptyString, None)
  | String c s' =>
      if f c then (EmptyString, Some s)
      else let '(h, t) := break f s' in (String c h, t)
  end.

(** C0 control characters and the space, stripped from the front of a
    URL; tab, carriage return and line feed, removed everywhere. *)
Definition is_c0_or_space (c : ascii) : bool := Nat.leb (nat_of_ascii c) 32.

Fixpoint lstrip_c0 (s : string) : string :=
  match s with
  | String c s' => if is_c0_or_space c then lstrip_c0 s' else s
  | EmptyString => EmptyString
  end.

Definition is_unsafe (c : ascii) : bool :=
  let n := nat_of_ascii c in
  Nat.eqb n 9 || Nat.eqb n 10 || Nat.eqb n 13.

Record ParseResult := {
  scheme : string;
  netloc : string;
  path : string;
}.

Definition uses_params : list string :=
  [""; "ftp"; "hdl"; "prospero"; "http"; "imap"; "https"; "shttp"; "rtsp";
   "rtspu"; "sip"; "sips"; "mms"; "sftp"; "tel"].

(** The scheme and what follows its colon. *)
Definition split_scheme (url : string) : string * string :=
  match break (fun c => Ascii.eqb c ":") url with
  | (String c0 _ as s, Some (String _ rest)) =>
      if is_alpha c0 && Str.all is_scheme_char s then (lower s, rest)
      else (EmptyString, url)
  | _ => (EmptyString, url)
  end.

(** The parameters of the last path segment are cut off. *)
Definition split_params (p : string) : string :=
  let '(head, tail) := Str.cut_last Str.slash p in
  head +:+ fst (break (fun c => Ascii.eqb c ";") tail).

(** [urllib.parse.urlparse(url)], its [scheme], [netloc] and [path];
    [None] stands for [ValueError] (unbalanced brackets in the network
    location).  The validation of bracketed hosts and of non-ASCII
    network locations is not modelled. *)
Definition urlparse (url : string) : option ParseResult :=
  let url := Str.filter (fun c => negb (is_unsafe c)) (lstrip_c0 url) in
  let '(sch, url) := split_scheme url in
  let '(loc, url) :=
    match url with
    | String a (String b rest) =>
        if Ascii.eqb a Str.slash && Ascii.eqb b Str.slash then
          match break (fun c => Str.mem c "/?#") rest with
          | (l, Some r) => (l, r)
          | (l, None) => (l, EmptyString)
          end
        else (EmptyString, url)
    | _ => (EmptyString, url)
    end in
  if xorb (Str.mem "[" loc) (Str.mem "]" loc) then None
  else
    let p := fst (break (fun c => Ascii.eqb c "#") url) in
    let p := fst (break (fun c => Ascii.eqb c "?") p) in
    let p := if bool_decide (sch ∈ uses_params) then split_params p else p in
    Some {| scheme := sch; netloc := loc; path := p |}.

End Urllib.

(** ** [os.path] (POSIX) *)

Module OsPath.

(** [os.path.join(a, b)] *)
Definition join (a b : string) : string :=
  if Str.startswith "/" b then b
  else if String.eqb a "" || Str.endswith_char Str.slash a then a +:+ b
  else a +:+ "/" +:+ b.

(** [os.path.split(p)]: trailing slashes are stripped from the head
    unless it consists of slashes only. *)
Definition split (p : string) : string * string :=
  let '(head, tail) := Str.cut_last Str.slash p in
  if negb (String.eqb head "") && negb (Str.all (Ascii.eqb Str.slash) head)
  then (Str.rstrip Str.slash head, tail)
  else (head, tail).

End OsPath.

(** ** File contents, JSON documents and archives *)

Inductive json :=
| JNull
| JBool (b : bool)
| JNumber (literal : string)
| JString (s : string)
| JArray (items : list json)
| JObject (members : list (string * json)).

Inductive zip_method := ZIP_STORED | ZIP_DEFLATED.

(** What a file or a stored object holds: raw bytes, the text
    [json.dump] writes for a document, or a zip archive with its
    compression method and its members in the order they were added. *)
Inductive content :=
| Bytes (b : string)
| JsonText (doc : json)
| ZipArchive (method : zip_method) (members : list (string * content)).

(** ** The file system below the working directory

    A directory is the list of its entries in [os.scandir] order.  Paths
    are resolved the way [os.path.normpath] does: empty and dot
    components are dropped and a double dot cancels the component before
    it.  There are no symbolic links.  Absolute paths and paths that
    climb above the working directory are outside the modelled tree:
    [components] is [None] for them and every operation fails.  The
    operating system resolves a double dot through the directory before
    it, which must exist; the two resolutions agree on paths of ordinary
    names, and statements about where a file lies are made for such
    paths. *)

Module Fs.

Inductive node :=
| File (c : content)
| Dir (entries : list (string * node)).

Fixpoint normalize (stack : list string) (parts : list string)
  : option (list string) :=
  match parts with
  | [] => Some (rev stack)
  | c :: parts' =>
      if String.eqb c "" || String.eqb c "." then normalize stack parts'
      else if String.eqb c ".." then
        match stack with
        | _ :: stack' => normalize stack' parts'
        | [] => None
        end
      else normalize (c :: stack) parts'
  end.

Definition components (p : string) : option (list string) :=
  if Str.startswith "/" p then None
  else normalize [] (Str.split Str.slash p).

(** The path text of a component list. *)
Fixpoint path_of (cs : list string) : string :=
  match cs with
  | [] => "."
  | [c] => c
  | c :: cs' => c +:+ "/" +:+ path_of cs'
  end.

Fixpoint entry (name : string) (es : list (string * node)) : option node :=
  match es with
  | [] => None
  | (n, x) :: es' => if String.eqb n name then Some x else entry name es'
  end.

(** Replace the entry called [name], or add it at the end. *)
Fixpoint set_entry (name : string) (x : node) (es : list (string * node))
  : list (string * node) :=
  match es with
  | [] => [(name, x)]
  | (n, y) :: es' =>
      if String.eqb n name then (n, x) :: es' else (n, y) :: set_entry name x es'
  end.

Fixpoint lookup (t : node) (p : list string) : option node :=
  match p with
  | [] => Some t
  | c :: p' =>
      match t with
      | Dir es =>
          match entry c es with
          | Some child => lookup child p'
          | None => None
          end
      | File _ => None
      end
  end.

Definition read (t : node) (p : list string) : option content :=
  match lookup t p with
  | Some (File c) => Some c
  | _ => None
  end.

(** Create or truncate the file at [p] with content [c]: the parent
    must be a directory and [p] must not be one. *)
Fixpoint write (t : node) (p : list string) (c : content) : option node :=
  match p, t with
  | [], _ => None
  | _ :: _, File _ => None
  | [name], Dir es =>
      match entry name es with
      | Some (Dir _) => None
      | _ => Some (Dir (set_entry name (File c) es))
      end
  | d :: p', Dir es =>
      match entry d es with
      | Some child =>
          match write child p' c with
          | Some child' => Some (Dir (set_entry d child' es))
          | None => None
          end
      | None => None
      end
  end.

(** A fresh chain of nested empty directories. *)
Fixpoint chain (p : list string) : node :=
  match p with
  | [] => Dir []
  | c :: p' => Dir [(c, chain p')]
  end.

(** [os.makedirs(p)]: missing directories are created along the
    path; it fails when the leaf exists or a component is a file. *)
Fixpoint makedirs (t : node) (p : list string) : option node :=
  match p, t with
  | [], _ => None
  | _ :: _, File _ => None
  | c :: p', Dir es =>
      match entry c es with
      | Some child =>
          match makedirs child p' with
          | Some child' => Some (Dir (set_entry c child' es))
          | None => None
          end
      | None => Some (Dir (set_entry c (chain p') es))
      end
  end.

Definition is_dir (x : node) : bool :=
  match x with Dir _ => true | File _ => false end.

Definition names (f : node -> bool) (es : list (string * node)) : list string :=
  map fst (List.filter (fun e => f (snd e)) es).

(** [os.walk(top)], top-down: for a directory, its own triple of path,
    directory names and file names, then the walks of its
    subdirectories in order.  Nothing is yielded for a path that is
    not a directory. *)
Fixpoint walk_dir (top : string) (t : node)
  : list (string * list string * list string) :=
  match t with
  | File _ => []
  | Dir es =>
      (top, names is_dir es, names (fun x => negb (is_dir x)) es)
      :: flat_map (fun e => walk_dir (OsPath.join top (fst e)) (snd e)) es
  end.

Definition walk (t : node) (top : string)
  : list (string * list string * list string) :=
  match components top with
  | Some p =>
      match lookup t p with
      | Some x => walk_dir top x
      | None => []
      end
  | None => []
  end.

(** A name a directory entry can have. *)
Definition valid_name (n : string) : bool :=
  negb (String.eqb n "") && negb (String.eqb n ".") &&
  negb (String.eqb n "..") && negb (Str.mem Str.slash n).

Fixpoint distinct (l : list string) : bool :=
  match l with
  | [] => true
  | n :: l' => negb (existsb (String.eqb n) l') && distinct l'
  end.

(** A tree as a file system holds it: in every directory the names are
    valid and no name occurs twice. *)
Fixpoint wf (t : node) : bool :=
  match t with
  | File _ => true
  | Dir es =>
      forallb valid_name (map fst es) && distinct (map fst es) &&
      forallb (fun e => wf (snd e)) es
  end.

(** The files of a directory itself, each with its one-component path. *)
Definition own_files (es : list (string * node)) : list (list string * content) :=
  flat_map (fun e => match snd e with
                     | File c => [([fst e], c)]
                     | Dir _ => []
                     end) es.

(** The files below a node with their paths relative to it: for a
    directory its own files, then those of its subdirectories. *)
Fixpoint files_of (t : node) : list (list string * content) :=
  match t with
  | File _ => []
  | Dir es =>
      own_files es ++
      flat_map (fun e => map (fun pc => (fst e :: fst pc, snd pc))
                             (files_of (snd e))) es
  end.

End Fs.

(** ** Exceptions, the world and computations *)

Inductive exn :=
| KeyError (key : string)
| TypeError
| ValueError
| AttributeError
| IndexError
| AssertionError
| ReError
| HTTPError (status : Z)
| JSONDecodeError
| OSError
| NoCredentialsError
| ClientError (code : string)
| OtherError (name : string).

Inductive res (A : Type) :=
| Ok (a : A)
| Raise (e : exn).
Arguments Ok {A} a.
Arguments Raise {A} e.

Inductive level := DEBUG | INFO | ERROR.

Inductive logarg :=
| ArgStr (s : string)
| ArgJson (doc : json).

(** A record handed to the module's logger: level, format string,
    arguments, and the exception attached by [logger.exception]. *)
Record log_record := {
  log_level : level;
  log_msg : string;
  log_args : list logarg;
  log_exc : option exn;
}.

Inductive event :=
| EvHttpGet (url : string)
| EvResource (endpoint_url : string)
| EvListObjects (bucket prefix : string)
| EvDownloadFile (bucket key filename : string) (multipart_threshold : Z)
| EvUploadFile (bucket filename key : string) (multipart_threshold : Z)
               (content_type : string)
| EvLog (r : log_record).

(** What [requests.get] gives: an exception of the transport, or a
    response with its status and, when the body is a JSON text, the
    document it parses to. *)
Inductive http_reply :=
| HttpFailed (e : exn)
| HttpResponse (status : Z) (body : option json).

(** An object of the store: the key it is stored under, the key as the
    listing reports it ([s3_object.key]), and its content. *)
Record s3_object := {
  obj_key : string;
  obj_listed : string;
  obj_body : content;
}.

(** The world.  [s3_fault n] is the exception, if any, with which the
    [n]-th call to the object store client fails (no credentials, no
    connection, ...); [s3_calls] counts the calls made so far.
    [http_get] and [mime_guess] are the answers of the results API and of
    [mimetypes.guess_type]. *)
Record World := {
  environ : gmap string string;
  fs : Fs.node;
  http_get : string -> http_reply;
  s3_buckets : gmap string (list s3_object);
  s3_fault : nat -> option exn;
  s3_calls : nat;
  mime_guess : string -> option string;
  trace : list event;
}.

Definition with_fs (t : Fs.node) (w : World) : World :=
  {| environ := environ w; fs := t; http_get := http_get w;
     s3_buckets := s3_buckets w; s3_fault := s3_fault w;
     s3_calls := s3_calls w; mime_guess := mime_guess w; trace := trace w |}.

Definition with_buckets (b : gmap string (list s3_object)) (w : World) : World :=
  {| environ := environ w; fs := fs w; http_get := http_get w;
     s3_buckets := b; s3_fault := s3_fault w;
     s3_calls := s3_calls w; mime_guess := mime_guess w; trace := trace w |}.

Definition with_event (e : event) (w : World) : World :=
  {| environ := environ w; fs := fs w; http_get := http_get w;
     s3_buckets := s3_buckets w; s3_fault := s3_fault w;
     s3_calls := s3_calls w; mime_guess := mime_guess w;
     trace := trace w ++ [e] |}.

Definition with_call (w : World) : World :=
  {| environ := environ w; fs := fs w; http_get := http_get w;
     s3_buckets := s3_buckets w; s3_fault := s3_fault w;
     s3_calls := S (s3_calls w); mime_guess := mime_guess w; trace := trace w |}.

(** A computation: it ends with a value or an exception, and leaves a
    world behind in both cases. *)
Definition M (A : Type) : Type := World -> res A * World.

Definition ret {A} (a : A) : M A := fun w => (Ok a, w).

Definition raise {A} (e : exn) : M A := fun w => (Raise e, w).

Definition bind {A B} (c : M A) (k : A -> M B) : M B :=
  fun w =>
    match c w with
    | (Ok a, w') => k a w'
    | (Raise e, w') => (Raise e, w')
    end.

(** [try: c except Exception as e: h(e)] *)
Definition try_except {A} (c : M A) (h : exn -> M A) : M A :=
  fun w =>
    match c w with
    | (Ok a, w') => (Ok a, w')
    | (Raise e, w') => h e w'
    end.

Notation "'let*' x ':=' c 'in' k" := (bind c (fun x => k))
  (at level 10, x pattern, c at level 100, k at level 200).
Notation "c ';;' k" := (bind c (fun _ => k))
  (at level 100, k at level 200, right associativity).

(** [for x in l: body(x)] *)
Fixpoint for_each {A} (l : list A) (body : A -> M unit) : M unit :=
  match l with
  | [] => ret tt
  | x :: l' => body x ;; for_each l' body
  end.

(** A loop that updates a local variable. *)
Fixpoint for_fold {A S} (l : list A) (body : S -> A -> M S) (s : S) : M S :=
  match l with
  | [] => ret s
  | x :: l' => let* s' := body s x in for_fold l' body s'
  end.

Definition of_option {A} (e : exn) (o : option A) : M A :=
  match o with
  | Some a => ret a
  | None => raise e
  end.

Definition get_world : M World := fun w => (Ok w, w).

Definition emit (e : event) : M unit := fun w => (Ok tt, with_event e w).

(** ** The collaborators of [Campaign] *)

(** Modelled from the spec: [xtesting.utils.env.get] is not under src/.
    The spec calls its values environment-derived configuration; it is
    the value of the variable in the process environment, [None] when the
    variable is not set. *)
Definition env_get (name : string) : M (option string) :=
  fun w => (Ok (environ w !! name), w).

(** [os.environ[name]] *)
Definition os_environ (name : string) : M string :=
  fun w =>
    match environ w !! name with
    | Some v => (Ok v, w)
    | None => (Raise (KeyError name), w)
    end.

(** How an f-string renders a value that may be [None]. *)
Definition fmt (v : option string) : string :=
  match v with
  | Some s => s
  | None => "None"
  end.

Definition nl : string := String Str.newline EmptyString.

Definition logger (lvl : level) (msg : string) (args : list logarg) : M unit :=
  emit (EvLog {| log_level := lvl; log_msg := msg; log_args := args;
                 log_exc := None |}).

(** [logger.exception(msg)] inside an [except] clause. *)
Definition logger_exception (msg : string) (e : exn) : M unit :=
  emit (EvLog {| log_level := ERROR; log_msg := msg; log_args := [];
                 log_exc := Some e |}).

(** [requests.get(url, headers=...)]; the headers are a constant of
    [testcase.TestCase] and do not select the reply. *)
Definition requests_get (url : string) : M (Z * option json) :=
  emit (EvHttpGet url) ;;
  let* w := get_world in
  match http_get w url with
  | HttpFailed e => raise e
  | HttpResponse status body => ret (status, body)
  end.

(** [Response.raise_for_status()]: statuses 400 to 599 raise. *)
Definition raise_for_status (req : Z * option json) : M unit :=
  if (400 <=? fst req)%Z && (fst req <? 600)%Z
  then raise (HTTPError (fst req))
  else ret tt.

(** [Response.json()] *)
Definition response_json (req : Z * option json) : M json :=
  of_option JSONDecodeError (snd req).

(** Subscripts on a parsed JSON document.  [json.loads] builds a tree
    without sharing, so the assignment to an item is a functional update
    along the path from the root. *)
Inductive subscript :=
| Key (k : string)
| Index (i : nat).

Fixpoint assoc {A} (k : string) (l : list (string * A)) : option A :=
  match l with
  | [] => None
  | (n, x) :: l' => if String.eqb n k then Some x else assoc k l'
  end.

Fixpoint assoc_set {A} (k : string) (x : A) (l : list (string * A))
  : list (string * A) :=
  match l with
  | [] => [(k, x)]
  | (n, y) :: l' =>
      if String.eqb n k then (n, x) :: l' else (n, y) :: assoc_set k x l'
  end.

Fixpoint string_of_digits (n : nat) (fuel : nat) (acc : string) : string :=
  match fuel with
  | O => acc
  | S fuel' =>
      let acc' := String (ascii_of_nat (48 + n mod 10)) acc in
      match n / 10 with
      | O => acc'
      | q => string_of_digits q fuel' acc'
      end
  end.

(** [str(n)] *)
Definition str_of_nat (n : nat) : string := string_of_digits n (S n) EmptyString.

(** [v[s]] *)
Definition getitem (v : json) (s : subscript) : M json :=
  match v, s with
  | JObject ms, Key k => of_option (KeyError k) (assoc k ms)
  | JObject ms, Index i => raise (KeyError (str_of_nat i))
  | JArray l, Index i => of_option IndexError (l !! i)
  | JArray _, Key _ => raise TypeError
  | JString t, Index i =>
      match Str.drop i t with
      | String c _ => ret (JString (String c EmptyString))
      | EmptyString => raise IndexError
      end
  | _, _ => raise TypeError
  end.

(** [v[s] = x].  On an object and an integer subscript the assignment
    would add a key; the program reads the same item first, and that
    read raises, so the case is not reached. *)
Definition setitem (v : json) (s : subscript) (x : json) : M json :=
  match v, s with
  | JObject ms, Key k => ret (JObject (assoc_set k x ms))
  | JArray l, Index i =>
      if Nat.ltb i (List.length l) then ret (JArray (<[i:=x]> l)) else raise IndexError
  | _, _ => raise TypeError
  end.

Fixpoint get_path (v : json) (p : list subscript) : M json :=
  match p with
  | [] => ret v
  | s :: p' => let* child := getitem v s in get_path child p'
  end.

Fixpoint set_path (v : json) (p : list subscript) (x : json) : M json :=
  match p with
  | [] => ret x
  | [s] => setitem v s x
  | s :: p' =>
      let* child := getitem v s in
      let* child' := set_path child p' x in
      setitem v s child'
  end.

(** The number of rounds of [for ... in enumerate(v)]. *)
Definition iter_len (v : json) : M nat :=
  match v with
  | JArray l => ret (List.length l)
  | JObject ms => ret (List.length ms)
  | JString t => ret (String.length t)
  | _ => raise TypeError
  end.

(** [re.sub(pattern, '', v)] *)
Definition re_sub (pattern s : string) : M string :=
  of_option ReError (Re.sub_empty pattern s).

Definition re_sub_json (pattern : string) (v : json) : M json :=
  match v with
  | JString t => let* t' := re_sub pattern t in ret (JString t')
  | _ => raise TypeError
  end.

(** [os.path.exists(p)] *)
Definition os_path_exists (p : string) : M bool :=
  fun w =>
    (Ok (negb (String.eqb p "") &&
         match Fs.components p with
         | Some cs => bool_decide (is_Some (Fs.lookup (fs w) cs))
         | None => false
         end), w).

(** [os.makedirs(p)] *)
Definition os_makedirs (p : string) : M unit :=
  fun w =>
    match Fs.components p with
    | Some cs =>
        match Fs.makedirs (fs w) cs with
        | Some t => (Ok tt, with_fs t w)
        | None => (Raise OSError, w)
        end
    | None => (Raise OSError, w)
    end.

(** Create or replace the file named [p] with content [c]; a name that
    is empty or ends with a slash does not name a file. *)
Definition write_file (p : string) (c : content) : M unit :=
  fun w =>
    if Str.endswith_char Str.slash p then (Raise OSError, w)
    else
      match Fs.components p with
      | Some cs =>
          match Fs.write (fs w) cs c with
          | Some t => (Ok tt, with_fs t w)
          | None => (Raise OSError, w)
          end
      | None => (Raise OSError, w)
      end.

(** [with open(p, "w") as f: json.dump(doc, f)] *)
Definition dump_json_file (p : string) (doc : json) : M unit :=
  write_file p (JsonText doc).

(** One call to the object store client: it is counted, and fails with
    the fault the world has in store for it. *)
Definition client_call : M unit :=
  fun w =>
    match s3_fault w (s3_calls w) with
    | Some e => (Raise e, with_call w)
    | None => (Ok tt, with_call w)
    end.

(** [boto3.resource('s3', endpoint_url=...)] *)
Definition boto3_resource (endpoint_url : string) : M unit :=
  emit (EvResource endpoint_url) ;; client_call.

(** [Bucket(bucket).objects.filter(Prefix=prefix)]: the objects whose
    key starts with the prefix, as one listing. *)
Definition objects_filter (bucket prefix : string) : M (list s3_object) :=
  emit (EvListObjects bucket prefix) ;;
  client_call ;;
  let* w := get_world in
  match s3_buckets w !! bucket with
  | Some objs => ret (List.filter (fun o => Str.startswith prefix (obj_key o)) objs)
  | None => raise (ClientError "NoSuchBucket")
  end.

(** [Bucket(bucket).download_file(key, filename, Config=...)] *)
Definition download_file (bucket key filename : string) (threshold : Z) : M unit :=
  emit (EvDownloadFile bucket key filename threshold) ;;
  client_call ;;
  let* w := get_world in
  match s3_buckets w !! bucket with
  | Some objs =>
      match List.find (fun o => String.eqb (obj_key o) key) objs with
      | Some o => write_file filename (obj_body o)
      | None => raise (ClientError "404")
      end
  | None => raise (ClientError "NoSuchBucket")
  end.

(** Replace the object stored under [key], or add it. *)
Fixpoint put_object (key : string) (c : content) (objs : list s3_object)
  : list s3_object :=
  match objs with
  | [] => [{| obj_key := key; obj_listed := key; obj_body := c |}]
  | o :: objs' =>
      if String.eqb (obj_key o) key
      then {| obj_key := key; obj_listed := obj_listed o; obj_body := c |} :: objs'
      else o :: put_object key c objs'
  end.

(** [Bucket(bucket).upload_file(filename, key, Config=..., ExtraArgs=...)] *)
Definition upload_file (bucket filename key : string) (threshold : Z)
    (content_type : string) : M unit :=
  emit (EvUploadFile bucket filename key threshold content_type) ;;
  let* w := get_world in
  match Fs.components filename with
  | Some cs =>
      match Fs.read (fs w) cs with
      | Some c =>
          client_call ;;
          let* w := get_world in
          match s3_buckets w !! bucket with
          | Some objs =>
              fun w => (Ok tt, with_buckets (<[bucket := put_object key c objs]> (s3_buckets w)) w)
          | None => raise (ClientError "NoSuchBucket")
          end
      | None => raise OSError
      end
  | None => raise OSError
  end.

(** [mimetypes.guess_type(name)[0]] *)
Definition mimetypes_guess_type (name : string) : M (option string) :=
  fun w => (Ok (mime_guess w name), w).

(** [urllib.parse.urlparse(url)] *)
Definition urlparse (url : string) : M Urllib.ParseResult :=
  of_option ValueError (Urllib.urlparse url).

(** [os.path.join(a, b)] where [b] may be [None]. *)
Definition os_path_join (a : string) (b : option string) : M string :=
  match b with
  | Some b => ret (OsPath.join a b)
  | None => raise TypeError
  end.

(** [zipfile.ZipFile(name, 'w', method)]: the archive file is created
    empty.  The file holds the members written so far; closing the
    archive adds no member. *)
Definition zip_open (name : string) (method : zip_method) : M unit :=
  write_file name (ZipArchive method []).

(** The member [ZipFile.write(filename)] adds: it is named by the
    normalized path and holds the content of the file; a directory gives
    an empty member whose name ends with a slash. *)
Definition zip_member (filename : string) : M (string * content) :=
  let* w := get_world in
  match Fs.components filename with
  | Some cs =>
      match Fs.lookup (fs w) cs with
      | Some (Fs.File c) => ret (Fs.path_of cs, c)
      | Some (Fs.Dir _) => ret (Fs.path_of cs +:+ "/", Bytes "")
      | None => raise OSError
      end
  | None => raise OSError
  end.

(** [zfile.write(filename)] on the archive opened as [name]. *)
Definition zip_write (name filename : string) : M unit :=
  let* member := zip_member filename in
  let* w := get_world in
  match Fs.components name with
  | Some cs =>
      match Fs.read (fs w) cs with
      | Some (ZipArchive method members) =>
          write_file name (ZipArchive method (members ++ [member]))
      | _ => raise OSError
      end
  | None => raise OSError
  end.

(** [os.walk(top)] where [top] may be [None]. *)
Definition os_walk (top : option string)
  : M (list (string * list string * list string)) :=
  match top with
  | Some t => fun w => (Ok (Fs.walk (fs w) t), w)
  | None => raise TypeError
  end.

(** ** The class [Campaign] *)

Module Campaign.

Open Scope Z_scope.

(** [os.EX_OK] and [os.EX_SOFTWARE] are 0 and 70. *)
Definition EX_OK : Z := 0.
Definition EX_DUMP_FROM_DB_ERROR : Z := 70 - 5.
Definition EX_DUMP_ARTIFACTS_ERROR : Z := 70 - 6.
Definition EX_ZIP_CAMPAIGN_FILES_ERROR : Z := 70 - 7.

(** The first argument of [re.sub] at line 81, as written. *)
Definition db_link_pattern : string := "^{os.environ['HTTP_DST_URL']}/*".

Definition links_of (i : nat) : list subscript :=
  [Key "results"; Index i; Key "details"; Key "links"].

(** Lines 77 to 82: the two loops over the results and their links. *)
Definition rewrite_links (output : json) : M json :=
  let* results := get_path output [Key "results"] in
  let* n := iter_len results in
  for_fold (seq 0 n) (fun output i =>
    let* links := get_path output (links_of i) in
    let* m := iter_len links in
    for_fold (seq 0 m) (fun output j =>
      let* old := get_path output (links_of i ++ [Index j]) in
      let* new := re_sub_json db_link_pattern old in
      set_path output (links_of i ++ [Index j]) new) output) output.

(** The f-string of line 72. *)
Definition request_url (url build_tag : option string) : string :=
  fmt url +:+ "?build_tag=" +:+ fmt build_tag.

Definition dump_db : M Z :=
  try_except
    (let* url := env_get "TEST_DB_URL" in
     let* build_tag := env_get "BUILD_TAG" in
     let* req := requests_get (request_url url build_tag) in
     raise_for_status req ;;
     let* output := response_json req in
     logger DEBUG ("data from DB: " +:+ nl +:+ "%s") [ArgJson output] ;;
     let* output := rewrite_links output in
     logger DEBUG ("data to archive: " +:+ nl +:+ "%s") [ArgJson output] ;;
     let* build_tag := env_get "BUILD_TAG" in
     dump_json_file (fmt build_tag +:+ ".json") output ;;
     ret EX_OK)
    (fun e =>
       logger_exception "The results cannot be collected from DB" e ;;
       ret EX_DUMP_FROM_DB_ERROR).

(** The pattern of lines 133, 138 and 143. *)
Definition s3path_pattern (s3path : string) : string := "^" +:+ s3path +:+ "/*".

(** Lines 131 to 145: the body of the loop over the listed objects. *)
Definition dump_object (bucket_name s3path : string) (tconfig : Z)
    (s3_object : s3_object) : M unit :=
  let key := Urllib.unquote_plus (obj_listed s3_object) in
  let '(path, _) := OsPath.split key in
  let* lpath := re_sub (s3path_pattern s3path) path in
  (if negb (String.eqb lpath "") then
     let* present := os_path_exists lpath in
     if negb present then os_makedirs lpath else ret tt
   else ret tt) ;;
  let* shown := re_sub (s3path_pattern s3path) key in
  logger INFO "Downloading %s" [ArgStr shown] ;;
  let* filename := re_sub (s3path_pattern s3path) key in
  download_file bucket_name key filename tconfig.

(** Lines 117 to 130: the configuration is read and the objects of the
    campaign are listed.  The result is the bucket, the destination
    path, the transfer configuration (its multipart threshold) and the
    listed objects. *)
Definition list_artifacts : M (string * string * Z * list s3_object) :=
  let* build_tag := env_get "BUILD_TAG" in
  let* endpoint_url := os_environ "S3_ENDPOINT_URL" in
  boto3_resource endpoint_url ;;
  let* dst_s3_url := os_environ "S3_DST_URL" in
  let* endpoint_url := os_environ "S3_ENDPOINT_URL" in
  let multipart_threshold :=
    if Str.contains "google" endpoint_url
    then 5 * 1024 ^ 5 else 8 * 1024 * 1024 in
  let tconfig := multipart_threshold in
  let* url := urlparse dst_s3_url in
  let bucket_name := Urllib.netloc url in
  let* url := urlparse dst_s3_url in
  let* s3path :=
    of_option AttributeError
      (Re.search_group1 "^/*(.*)/*$" (Urllib.path url)) in
  let* prefix := os_path_join s3path build_tag in
  let* objects := objects_filter bucket_name (prefix +:+ "/") in
  ret (bucket_name, s3path, tconfig, objects).

Definition dump_artifacts : M Z :=
  try_except
    (let* (bucket_name, s3path, tconfig, objects) := list_artifacts in
     for_each objects (dump_object bucket_name s3path tconfig) ;;
     ret EX_OK)
    (fun e =>
       logger_exception "Cannot publish the artifacts" e ;;
       ret EX_DUMP_ARTIFACTS_ERROR).

(** [assert rc == Campaign.EX_OK]; assertions are executed (the
    interpreter is not run with -O). *)
Definition assert_ok (rc : Z) : M unit :=
  if rc =? EX_OK then ret tt else raise AssertionError.

(** Lines 178 to 183: the archive is created and filled. *)
Definition build_archive (build_tag : option string) : M unit :=
  let zfile := fmt build_tag +:+ ".zip" in
  zip_open zfile ZIP_DEFLATED ;;
  zip_write zfile (fmt build_tag +:+ ".json") ;;
  let* tree := os_walk build_tag in
  for_each tree (fun '(root, _, files) =>
    for_each files (fun filename =>
      zip_write zfile (OsPath.join root filename))).

(** Lines 184 to 204: the archive is uploaded and its link logged. *)
Definition publish (build_tag : option string) : M Z :=
  let* endpoint_url := os_environ "S3_ENDPOINT_URL" in
  boto3_resource endpoint_url ;;
  let* dst_s3_url := os_environ "S3_DST_URL" in
  let* endpoint_url := os_environ "S3_ENDPOINT_URL" in
  let multipart_threshold :=
    if Str.contains "google" endpoint_url
    then 5 * 1024 ^ 5 else 8 * 1024 * 1024 in
  let tconfig := multipart_threshold in
  let* url := urlparse dst_s3_url in
  let bucket_name := Urllib.netloc url in
  let* mime_type := mimetypes_guess_type (fmt build_tag +:+ ".zip") in
  let* url := urlparse dst_s3_url in
  let path := Str.strip Str.slash (Urllib.path url) in
  upload_file bucket_name (fmt build_tag +:+ ".zip")
    (OsPath.join path (fmt build_tag +:+ ".zip")) tconfig
    (match mime_type with
     | Some (String _ _ as t) => t
     | _ => "application/octet-stream"
     end) ;;
  let* dst_http_url := os_environ "HTTP_DST_URL" in
  let link := OsPath.join dst_http_url (fmt build_tag +:+ ".zip") in
  logger INFO ("All data were successfully published:" +:+ nl +:+ nl +:+ "%s")
    [ArgStr link] ;;
  ret EX_OK.

(** [str(ex)] for the [KeyError] of a missing environment variable. *)
Definition str_key_error (key : string) : string := "'" +:+ key +:+ "'".

Definition zip_campaign_files : M Z :=
  try_except
    (let* build_tag := env_get "BUILD_TAG" in
     let* rc := dump_db in
     assert_ok rc ;;
     let* rc := dump_artifacts in
     assert_ok rc ;;
     build_archive build_tag ;;
     publish build_tag)
    (fun e =>
       match e with
       | KeyError key =>
           logger ERROR "Please check env var: %s" [ArgStr (str_key_error key)] ;;
           ret EX_ZIP_CAMPAIGN_FILES_ERROR
       | NoCredentialsError =>
           logger ERROR
             ("Please fill ~/.aws/credentials, ~/.boto or set " +:+
              "AWS_ACCESS_KEY_ID and AWS_SECRET_ACCESS_KEY in env") [] ;;
           ret EX_ZIP_CAMPAIGN_FILES_ERROR
       | _ =>
           logger_exception "Cannot publish the artifacts" e ;;
           ret EX_ZIP_CAMPAIGN_FILES_ERROR
       end).

End Campaign.

(** ** Scenarios *)

Module Scenario.

Definition env : gmap string string :=
  list_to_map
    [("BUILD_TAG", "build42");
     ("TEST_DB_URL", "http://db/api/v1/results");
     ("S3_ENDPOINT_URL", "http://127.0.0.1:9000");
     ("S3_DST_URL", "s3://bucket/prefix");
     ("HTTP_DST_URL", "http://internal")].

Definition doc (link : string) : json :=
  JObject [("results",
            JArray [JObject [("details",
                              JObject [("links", JArray [JString link])])]])].

Definition object (key body : string) : s3_object :=
  {| obj_key := key; obj_listed := key; obj_body := Bytes body |}.

(** Scenarios A and B of the specification: the results API answers
    with one link below the internal base URL, and the store holds two
    artifacts of the campaign (and one of another campaign). *)
Definition world : World :=
  {| environ := env;
     fs := Fs.Dir [];
     http_get := fun url =>
       if String.eqb url "http://db/api/v1/results?build_tag=build42"
       then HttpResponse 200 (Some (doc "http://internal/x/a.log"))
       else HttpFailed (OtherError "ConnectionError");
     s3_buckets :=
       {[ "bucket" :=
            [object "prefix/build42/log.txt" "LOG";
             object "prefix/build42/sub/report.html" "REPORT";
             object "prefix/build43/log.txt" "OTHER"] ]};
     s3_fault := fun _ => None;
     s3_calls := 0;
     mime_guess := fun _ => Some "application/zip";
     trace := [] |}.

Definition with_http (h : string -> http_reply) (w : World) : World :=
  {| environ := environ w; fs := fs w; http_get := h;
     s3_buckets := s3_buckets w; s3_fault := s3_fault w;
     s3_calls := s3_calls w; mime_guess := mime_guess w; trace := trace w |}.

Definition with_fault (f : nat -> option exn) (w : World) : World :=
  {| environ := environ w; fs := fs w; http_get := http_get w;
     s3_buckets := s3_buckets w; s3_fault := f;
     s3_calls := s3_calls w; mime_guess := mime_guess w; trace := trace w |}.

(** Scenario D: the results API answers with status 500. *)
Definition world_http_500 : World :=
  with_http (fun _ => HttpResponse 500 None) world.

(** Scenario C: the store client finds no credentials from its call
    number 5 on: the artifacts are listed and downloaded (calls 0 to
    3), the publish step makes its client (call 4), and the upload
    (call 5) fails. *)
Definition world_no_credentials : World :=
  with_fault (fun n => if Nat.leb 5 n then Some NoCredentialsError else None) world.

(** A store with two distinct keys that name the same local file. *)
Definition world_double_slash : World :=
  with_buckets
    {[ "bucket" :=
         [object "prefix/build42//log.txt" "FIRST";
          object "prefix/build42/log.txt" "SECOND"] ]} world.

(** A store with no artifact of the campaign. *)
Definition world_no_artifacts : World :=
  with_buckets {[ "bucket" := [object "prefix/build43/log.txt" "OTHER"] ]} world.

End Scenario.

(** ** Vocabulary of the statements *)




(** [spec I c Q]: the computation [c] keeps the invariant [I] of the
    world, whether it returns or raises, and the values it returns
    satisfy [Q]. *)
Definition spec {A} (I : World -> Prop) (c : M A) (Q : A -> Prop) : Prop :=
  forall w, I w -> I (snd (c w)) /\ forall a, fst (c w) = Ok a -> Q a.

(** A character with no special meaning in a pattern. *)
Definition plain_char (c : ascii) : bool := negb (Str.mem c "^$()*+?|\.[{").

(** The literal pattern items of a text. *)
Fixpoint literal (s : string) : Re.regex :=
  match s with
  | EmptyString => []
  | String c s' => Re.One (Re.Lit c) :: literal s'
  end.

(** The local file of a listed object: the path of the file name line
    143 computes from the decoded key. *)
Definition local_file (s3path : string) (o : s3_object) : option (list string) :=
  match Re.sub_empty (Campaign.s3path_pattern s3path)
          (Urllib.unquote_plus (obj_listed o)) with
  | Some filename => Fs.components filename
  | None => None
  end.

(** The object stored under a key of a bucket. *)
Definition stored (w : World) (bucket key : string) : option s3_object :=
  match s3_buckets w !! bucket with
  | Some objs => List.find (fun o => String.eqb (obj_key o) key) objs
  | None => None
  end.

(** The files of [w'] are those of [w] but for the file at [p], which
    holds [c]. *)
Definition files_updated (w w' : World) (p : list string) (c : content) : Prop :=
  forall q, Fs.read (fs w') q = if decide (q = p) then Some c else Fs.read (fs w) q.

(** The members [build_archive] adds for the tree at [build_tag]. *)
Definition tree_members (build_tag : string) (t : Fs.node)
  : list (string * content) :=
  match Fs.lookup t [build_tag] with
  | Some x =>
      map (fun pc => (Fs.path_of (build_tag :: fst pc), snd pc)) (Fs.files_of x)
  | None => []
  end.

(** The archive at the path [cs] exists and is deflated. *)
Definition archive_open (cs : list string) (w : World) : Prop :=
  exists members, Fs.read (fs w) cs = Some (ZipArchive ZIP_DEFLATED members).

(** The root directory holds the entries [es0] and the archive [zname],
    deflated, with the members [ms]. *)
Definition archive_holds (es0 : list (string * Fs.node)) (zname : string)
    (ms : list (string * content)) (w : World) : Prop :=
  fs w = Fs.Dir (Fs.set_entry zname (Fs.File (ZipArchive ZIP_DEFLATED ms)) es0).

(** A file listed relative to the directory at [base], as a member. *)
Definition relocate (base : list string) (pc : list string * content)
  : string * content :=
  (Fs.path_of (base ++ fst pc), snd pc).

(** [hoare P c Q X]: from a world that satisfies [P], the computation
    [c] returns a value and a world related by [Q], or raises an
    exception and leaves a world related by [X]. *)
Definition hoare {A} (P : World -> Prop) (c : M A)
    (Q : A -> World -> Prop) (X : exn -> World -> Prop) : Prop :=
  forall w, P w ->
    match c w with
    | (Ok a, w') => Q a w'
    | (Raise e, w') => X e w'
    end.

(** The record [zip_campaign_files] logs when the store client finds no
    credentials (lines 209-211). *)
Definition credentials_record : log_record :=
  {| log_level := ERROR;
     log_msg := "Please fill ~/.aws/credentials, ~/.boto or set " +:+
                "AWS_ACCESS_KEY_ID and AWS_SECRET_ACCESS_KEY in env";
     log_args := [];
     log_exc := None |}.

(** The threshold both functions compute from S3_ENDPOINT_URL (lines
    121-122 and 187-188). *)
Definition multipart_threshold_of (endpoint_url : string) : Z :=
  if Str.contains "google" endpoint_url
  then (5 * 1024 ^ 5)%Z else (8 * 1024 * 1024)%Z.

(** The multipart threshold of the configuration of a transfer. *)
Definition transfer_threshold (e : event) : option Z :=
  match e with
  | EvDownloadFile _ _ _ t => Some t
  | EvUploadFile _ _ _ t _ => Some t
  | _ => None
  end.

(** A threshold selected from the endpoint of the environment. *)
Definition selected_threshold (env : gmap string string) (t : Z) : Prop :=
  exists endpoint_url,
    env !! "S3_ENDPOINT_URL" = Some endpoint_url /\
    t = multipart_threshold_of endpoint_url.

Definition selected_transfer (env : gmap string string) (e : event) : Prop :=
  forall t, transfer_threshold e = Some t -> selected_threshold env t.

(** The events added to the trace of [w0] are transfers configured from
    the endpoint, or no transfers; the environment is that of [w0]. *)
Definition transfers_selected (w0 w : World) : Prop :=
  environ w = environ w0 /\
  exists new, trace w = trace w0 ++ new /\
              Forall (selected_transfer (environ w0)) new.

(** ** Vocabulary of the further properties *)

(** [returns c a]: the computation [c] returns [a] and leaves the world
    as it is. *)
Definition returns {A} (c : M A) (a : A) : Prop := forall w, c w = (Ok a, w).

(** The value line 80 assigns for a link: the pattern compiles, so the
    substitution is defined. *)
Definition rewritten_link (link : string) : string :=
  default link (Re.sub_empty Campaign.db_link_pattern link).

Definition rewritten_item (v : json) : json :=
  match v with
  | JString link => JString (rewritten_link link)
  | _ => v
  end.

Definition is_string (v : json) : bool :=
  match v with
  | JString _ => true
  | _ => false
  end.

(** The list at [result["details"]["links"]]. *)
Definition result_links (result : json) : option (list json) :=
  match result with
  | JObject rm =>
      match assoc "details" rm with
      | Some (JObject dm) =>
          match assoc "links" dm with
          | Some (JArray links) => Some links
          | _ => None
          end
      | _ => None
      end
  | _ => None
  end.

(** The result with another list at [result["details"]["links"]]. *)
Definition with_links (links : list json) (result : json) : json :=
  match result with
  | JObject rm =>
      match assoc "details" rm with
      | Some (JObject dm) =>
          JObject (assoc_set "details"
                     (JObject (assoc_set "links" (JArray links) dm)) rm)
      | _ => result
      end
  | _ => result
  end.

(** A result whose details hold a list of links, all of them strings. *)
Definition links_are_strings (result : json) : bool :=
  match result_links result with
  | Some links => forallb is_string links
  | None => false
  end.

Definition rewritten_result (result : json) : json :=
  match result_links result with
  | Some links => with_links (map rewritten_item links) result
  | None => result
  end.

(** The document with another list at [output["results"]]. *)
Definition with_results (results : list json) (ms : list (string * json)) : json :=
  JObject (assoc_set "results" (JArray results) ms).

(** A link that does not begin with an opening brace. *)
Definition plain_link (v : json) : bool :=
  match v with
  | JString link => negb (Str.startswith "{" link)
  | _ => false
  end.

Definition links_are_plain (result : json) : bool :=
  match result_links result with
  | Some links => forallb plain_link links
  | None => false
  end.

(** The exception the reply of the results API makes [dump_db] raise
    before its loops start, if any: the exception of the transport, the
    status [raise_for_status] rejects, a body that is not a JSON text,
    or a document without the member results. *)
Definition reply_failure (reply : http_reply) : option exn :=
  match reply with
  | HttpFailed e => Some e
  | HttpResponse status body =>
      if (400 <=? status)%Z && (status <? 600)%Z then Some (HTTPError status)
      else
        match body with
        | None => Some JSONDecodeError
        | Some (JObject ms) =>
            match assoc "results" ms with
            | Some _ => None
            | None => Some (KeyError "results")
            end
        | Some _ => Some TypeError
        end
  end.

(** The record [dump_db] logs when it fails (lines 88-89). *)
Definition dump_db_failure_record (e : exn) : log_record :=
  {| log_level := ERROR;
     log_msg := "The results cannot be collected from DB";
     log_args := [];
     log_exc := Some e |}.

(** The record [dump_artifacts] logs when it fails (line 148). *)
Definition dump_artifacts_failure_record (e : exn) : log_record :=
  {| log_level := ERROR;
     log_msg := "Cannot publish the artifacts";
     log_args := [];
     log_exc := Some e |}.

(** The record [zip_campaign_files] logs for a missing environment
    variable (line 206). *)
Definition env_var_record (name : string) : log_record :=
  {| log_level := ERROR;
     log_msg := "Please check env var: %s";
     log_args := [ArgStr (Campaign.str_key_error name)];
     log_exc := None |}.

(** The record [zip_campaign_files] logs for any other exception (line
    214). *)
Definition zip_failure_record (e : exn) : log_record :=
  {| log_level := ERROR;
     log_msg := "Cannot publish the artifacts";
     log_args := [];
     log_exc := Some e |}.

(** The record [zip_campaign_files] logs at the end (lines 202-203). *)
Definition published_record (link : string) : log_record :=
  {| log_level := INFO;
     log_msg := "All data were successfully published:" +:+ nl +:+ nl +:+ "%s";
     log_args := [ArgStr link];
     log_exc := None |}.

(** The name of the archive (lines 178, 191, 195, 196 and 201). *)
Definition archive_name (build_tag : option string) : string :=
  fmt build_tag +:+ ".zip".

(** The key the archive is uploaded under (lines 192 and 196). *)
Definition upload_key (url : Urllib.ParseResult) (build_tag : option string)
  : string :=
  OsPath.join (Str.strip Str.slash (Urllib.path url)) (archive_name build_tag).

(** The world without the environment variable [name]. *)
Definition unsetenv (name : string) (w : World) : World :=
  {| environ := delete name (environ w); fs := fs w; http_get := http_get w;
     s3_buckets := s3_buckets w; s3_fault := s3_fault w;
     s3_calls := s3_calls w; mime_guess := mime_guess w; trace := trace w |}.

(** The store client raises exceptions of its own, never a [KeyError]. *)
Definition client_faults (w : World) : Prop :=
  forall n key, s3_fault w n <> Some (KeyError key).

(** The bucket and the key of a download. *)
Definition download_of (e : event) : option (string * string) :=
  match e with
  | EvDownloadFile bucket key _ _ => Some (bucket, key)
  | _ => None
  end.

(** An event other than the record of the credentials guidance. *)
Definition not_guidance (e : event) : Prop := e <> EvLog credentials_record.

(** The record [r] is logged between the worlds [w] and [w']. *)
Definition logged_since (w w' : World) (r : log_record) : Prop :=
  exists before after, trace w' = trace w ++ before ++ EvLog r :: after.

(** The store client finds no credentials: every call made to the store
    after the client is made (the listing of line 129 is the first)
    fails with [NoCredentialsError]. *)
Definition credentials_unresolvable (w : World) : Prop :=
  forall n, s3_calls w < n -> s3_fault w n = Some NoCredentialsError.

(** The world with the environment variable [name] set to [value]. *)
Definition setenv (name value : string) (w : World) : World :=
  {| environ := <[name := value]> (environ w); fs := fs w; http_get := http_get w;
     s3_buckets := s3_buckets w; s3_fault := s3_fault w;
     s3_calls := s3_calls w; mime_guess := mime_guess w; trace := trace w |}.

(** * Properties *)

(** ** Strings *)

Section StrFacts.

Implicit Types (c a : ascii) (s : string).

Lemma lstrip_length c s :
  String.length (Str.lstrip c s) <= String.length s.
Proof.
  induction s as [|a s IH]; simpl; [lia|].
  destruct (Ascii.eqb a c); simpl; lia.
Qed.

Lemma drop_lstrip c s :
  Str.drop (String.length s - String.length (Str.lstrip c s)) s = Str.lstrip c s.
Proof.
  induction s as [|a s IH]; simpl; [done|].
  destruct (Ascii.eqb a c) eqn:E.
  - pose proof (lstrip_length c s).
    replace (S (String.length s) - String.length (Str.lstrip c s))
      with (S (String.length s - String.length (Str.lstrip c s))) by lia.
    simpl. exact IH.
  - simpl. by rewrite Nat.sub_diag.
Qed.





Lemma endswith_rstrip c s : Str.endswith_char c (Str.rstrip c s) = false.
Proof.
  induction s as [|a s IH]; [done|].
  cbn [Str.rstrip].
  destruct (Str.rstrip c s) as [|b r] eqn:R.
  - destruct (Ascii.eqb a c) eqn:E; [done|]. simpl. exact E.
  - exact IH.
Qed.

End StrFacts.

(** ** The matcher *)

Section ReFacts.

Implicit Types (r : Re.regex) (s : string).

Lemma match_here_star a r s pos :
  Re.match_here (Re.Star a :: r) s pos =
  match s with
  | String c s' =>
      if Re.atom_matches a c then
        match Re.match_here (Re.Star a :: r) s' (S pos) with
        | Some res => Some res
        | None => Re.match_here r s pos
        end
      else Re.match_here r s pos
  | EmptyString => Re.match_here r s pos
  end.
Proof. destruct s; reflexivity. Qed.

Lemma match_here_bol r s :
  Re.match_here (Re.Bol :: r) s 0 = Re.match_here r s 0.
Proof. reflexivity. Qed.


(** A pattern that begins with a caret matches at offset 0 only. *)
Lemma delete_matches_anchored_skip r s pos k :
  Re.delete_matches (Re.Bol :: r) s (S pos) k = Str.drop k s.
Proof.
  revert pos k; induction s as [|c s IH]; intros pos k.
  - by destruct k.
  - destruct k as [|k]; simpl.
    + f_equal. apply (IH (S pos) 0).
    + apply IH.
Qed.

(** [re.sub] with an anchored pattern deletes the leading match, if
    any, and nothing else. *)
Lemma delete_matches_anchored r s :
  Re.delete_matches (Re.Bol :: r) s 0 0 =
  match Re.leading_match (Re.Bol :: r) s with
  | Some e => Str.drop e s
  | None => s
  end.
Proof.
  unfold Re.leading_match.
  destruct s as [|c s].
  - simpl. destruct (Re.match_here r "" 0) as [[e m]|]; [by destruct e|done].
  - cbn [Re.delete_matches].
    destruct (Re.match_here (Re.Bol :: r) (String c s) 0) as [[e m]|].
    + rewrite Nat.sub_0_r. destruct e as [|e].
      * simpl. f_equal. apply (delete_matches_anchored_skip r s 0 0).
      * simpl. apply delete_matches_anchored_skip.
    + f_equal. apply (delete_matches_anchored_skip r s 0 0).
Qed.

End ReFacts.

(** ** The destination path of [dump_artifacts] (line 125) *)

Section PathPattern.





End PathPattern.

(** ** The path of a parsed URL holds no line feed *)

Section UrlparseFacts.

Variable f : ascii -> bool.







End UrlparseFacts.



(** ** The two destination paths (lines 125-126 and 192) *)




(** ** The link rewrite of [dump_db] (lines 80-82) *)

Lemma db_link_pattern_compiles :
  exists r, Re.compile Campaign.db_link_pattern =
            Some (Re.Bol :: Re.One (Re.Lit "{") :: r).
Proof. eexists. reflexivity. Qed.

(** C1.  In scenario A of the specification the results API returns the
    link http://internal/x/a.log and HTTP_DST_URL is http://internal:
    [dump_db] succeeds and the document it writes to build42.json holds
    the link unchanged, not x/a.log. *)
Theorem dump_db_keeps_internal_link :
  fst (Campaign.dump_db Scenario.world) = Ok Campaign.EX_OK /\
  Fs.read (fs (snd (Campaign.dump_db Scenario.world))) ["build42.json"] =
    Some (JsonText (Scenario.doc "http://internal/x/a.log")).
Proof. split; vm_compute; reflexivity. Qed.

(** The same pattern text with the variable interpolated, as line 133
    does for [s3path], strips the base URL. *)
Lemma interpolated_pattern_strips_link :
  Re.sub_empty (Campaign.s3path_pattern "http://internal")
    "http://internal/x/a.log" = Some "x/a.log".
Proof. reflexivity. Qed.

(** C8, as amended.  The rewrite of a link is defined for every link and
    deletes the leading match of its pattern, if there is one, and
    nothing else.  A link without a leading match is returned unchanged,
    so rewriting twice equals rewriting once whenever the link rewritten
    once has no leading match; a link that does not begin with an
    opening brace has none. *)
Theorem link_rewrite_deletes_leading_match (link : string) :
  exists r,
    Re.compile Campaign.db_link_pattern = Some r /\
    Re.sub_empty Campaign.db_link_pattern link =
      Some (match Re.leading_match r link with
            | Some e => Str.drop e link
            | None => link
            end) /\
    (Re.leading_match r link = None ->
     Re.sub_empty Campaign.db_link_pattern link = Some link) /\
    (forall once,
       Re.sub_empty Campaign.db_link_pattern link = Some once ->
       Re.leading_match r once = None ->
       Re.sub_empty Campaign.db_link_pattern once = Some once) /\
    (Str.startswith "{" link = false -> Re.leading_match r link = None).
Proof.
  destruct db_link_pattern_compiles as [r Hr].
  exists (Re.Bol :: Re.One (Re.Lit "{") :: r).
  assert (Hsub : forall l,
             Re.sub_empty Campaign.db_link_pattern l =
             Some (match Re.leading_match (Re.Bol :: Re.One (Re.Lit "{") :: r) l with
                   | Some e => Str.drop e l
                   | None => l
                   end)).
  { intros l. unfold Re.sub_empty. rewrite Hr.
    by rewrite delete_matches_anchored. }
  split; [exact Hr|]. split; [apply Hsub|]. split; [|split].
  - intros Hn. by rewrite Hsub, Hn.
  - intros once _ Hn. by rewrite Hsub, Hn.
  - intros Hs. unfold Re.leading_match. rewrite match_here_bol.
    destruct link as [|c l]; [done|].
    cbn [Str.startswith] in Hs. cbn [Re.match_here Re.atom_matches].
    destruct (Ascii.eqb "{" c); [by destruct l|done].
Qed.

(** C8, counterexample to the claim as stated.  A link that begins with
    two matches of the pattern loses one at each rewrite: rewriting
    twice differs from rewriting once. *)
Lemma link_rewrite_not_idempotent :
  ~ (forall link once twice,
       Re.sub_empty Campaign.db_link_pattern link = Some once ->
       Re.sub_empty Campaign.db_link_pattern once = Some twice ->
       twice = once).
Proof.
  intros H.
  specialize (H "{os.environH}/{os.environH}/x/a.log" "{os.environH}/x/a.log"
                "x/a.log" eq_refl eq_refl).
  discriminate H.
Qed.

(** The same holds for a prefix strip with the base URL interpolated. *)
Lemma prefix_strip_not_idempotent :
  Re.sub_empty (Campaign.s3path_pattern "http://internal")
    "http://internal/http://internal/x" = Some "http://internal/x" /\
  Re.sub_empty (Campaign.s3path_pattern "http://internal")
    "http://internal/x" = Some "x".
Proof. split; reflexivity. Qed.

(** ** Computations *)

Section MonadFacts.

Context {A B : Type}.
Implicit Types (c : M A) (k : A -> M B) (w : World).

Lemma bind_ok c k w a w' : c w = (Ok a, w') -> bind c k w = k a w'.
Proof. unfold bind. by intros ->. Qed.

Lemma bind_raise c k w e w' : c w = (Raise e, w') -> bind c k w = (Raise e, w').
Proof. unfold bind. by intros ->. Qed.

Lemma bind_ok_inv c k w b w'' :
  bind c k w = (Ok b, w'') ->
  exists a w', c w = (Ok a, w') /\ k a w' = (Ok b, w'').
Proof.
  unfold bind. destruct (c w) as [[a|e] w']; [|discriminate].
  intros H. by exists a, w'.
Qed.

Lemma bind_raise_inv c k w e w'' :
  bind c k w = (Raise e, w'') ->
  c w = (Raise e, w'') \/
  exists a w', c w = (Ok a, w') /\ k a w' = (Raise e, w'').
Proof.
  unfold bind. destruct (c w) as [[a|e'] w'].
  - intros H. right. exists a, w'. split; [reflexivity|exact H].
  - intros [= -> ->]. by left.
Qed.

End MonadFacts.

Lemma try_except_ok {A} (c : M A) h w a w' :
  c w = (Ok a, w') -> try_except c h w = (Ok a, w').
Proof. unfold try_except. by intros ->. Qed.

Lemma try_except_raise {A} (c : M A) h w e w' :
  c w = (Raise e, w') -> try_except c h w = h e w'.
Proof. unfold try_except. by intros ->. Qed.

(** ** Outcome codes *)

(** [dump_db] catches every exception: it returns one of its two codes. *)
Lemma dump_db_returns w :
  exists rc, fst (Campaign.dump_db w) = Ok rc /\
             (rc = Campaign.EX_OK \/ rc = Campaign.EX_DUMP_FROM_DB_ERROR).
Proof.
  unfold Campaign.dump_db, try_except.
  match goal with |- context [match ?c w with _ => _ end] => destruct (c w) as [[rc|e] w'] eqn:E end.
  - exists rc. split; [done|]. left.
    repeat (apply bind_ok_inv in E as (? & ? & _ & E)).
    by injection E as <- _.
  - exists Campaign.EX_DUMP_FROM_DB_ERROR. split; [done|]. by right.
Qed.

Lemma dump_artifacts_returns w :
  exists rc, fst (Campaign.dump_artifacts w) = Ok rc /\
             (rc = Campaign.EX_OK \/ rc = Campaign.EX_DUMP_ARTIFACTS_ERROR).
Proof.
  unfold Campaign.dump_artifacts, try_except.
  match goal with |- context [match ?c w with _ => _ end] => destruct (c w) as [[rc|e] w'] eqn:E end.
  - exists rc. split; [done|]. left.
    apply bind_ok_inv in E as ([[[b s] t] o] & ? & _ & E).
    apply bind_ok_inv in E as (? & ? & _ & E).
    by injection E as <- _.
  - exists Campaign.EX_DUMP_ARTIFACTS_ERROR. split; [done|]. by right.
Qed.

(** The handlers of [zip_campaign_files] all return the same code. *)
Lemma zip_handler_code (e : exn) w :
  exists w',
    match e with
    | KeyError key =>
        logger ERROR "Please check env var: %s"
          [ArgStr (Campaign.str_key_error key)] ;;
        ret Campaign.EX_ZIP_CAMPAIGN_FILES_ERROR
    | NoCredentialsError =>
        logger ERROR
          ("Please fill ~/.aws/credentials, ~/.boto or set " +:+
           "AWS_ACCESS_KEY_ID and AWS_SECRET_ACCESS_KEY in env") [] ;;
        ret Campaign.EX_ZIP_CAMPAIGN_FILES_ERROR
    | _ =>
        logger_exception "Cannot publish the artifacts" e ;;
        ret Campaign.EX_ZIP_CAMPAIGN_FILES_ERROR
    end w = (Ok Campaign.EX_ZIP_CAMPAIGN_FILES_ERROR, w').
Proof. destruct e; eexists; reflexivity. Qed.

(** A failed assertion on the code of a stage ends [zip_campaign_files]
    with its own code. *)
Lemma zip_after_failed_dump_db w rc w1 :
  Campaign.dump_db w = (Ok rc, w1) -> rc <> Campaign.EX_OK ->
  Campaign.zip_campaign_files w =
    (Ok Campaign.EX_ZIP_CAMPAIGN_FILES_ERROR,
     with_event (EvLog {| log_level := ERROR;
                          log_msg := "Cannot publish the artifacts";
                          log_args := []; log_exc := Some AssertionError |}) w1).
Proof.
  intros Hdb Hrc.
  unfold Campaign.zip_campaign_files.
  rewrite (try_except_raise _ _ w AssertionError w1); [reflexivity|].
  erewrite bind_ok by reflexivity.
  erewrite bind_ok by exact Hdb.
  apply bind_raise.
  unfold Campaign.assert_ok.
  destruct (Z.eqb_spec rc Campaign.EX_OK); [done|]. reflexivity.
Qed.

Lemma zip_after_failed_dump_artifacts w w1 rc w2 :
  Campaign.dump_db w = (Ok Campaign.EX_OK, w1) ->
  Campaign.dump_artifacts w1 = (Ok rc, w2) -> rc <> Campaign.EX_OK ->
  Campaign.zip_campaign_files w =
    (Ok Campaign.EX_ZIP_CAMPAIGN_FILES_ERROR,
     with_event (EvLog {| log_level := ERROR;
                          log_msg := "Cannot publish the artifacts";
                          log_args := []; log_exc := Some AssertionError |}) w2).
Proof.
  intros Hdb Hda Hrc.
  unfold Campaign.zip_campaign_files.
  rewrite (try_except_raise _ _ w AssertionError w2); [reflexivity|].
  erewrite bind_ok by reflexivity.
  erewrite bind_ok by exact Hdb.
  erewrite bind_ok by reflexivity.
  erewrite bind_ok by exact Hda.
  apply bind_raise.
  unfold Campaign.assert_ok.
  destruct (Z.eqb_spec rc Campaign.EX_OK); [done|]. reflexivity.
Qed.

(** C2, as amended.  When [dump_db] returns EX_DUMP_FROM_DB_ERROR, and
    when [dump_db] succeeds and [dump_artifacts] returns
    EX_DUMP_ARTIFACTS_ERROR, [zip_campaign_files] returns
    EX_ZIP_CAMPAIGN_FILES_ERROR: one code of its own for both, different
    from the code of either stage. *)
Theorem stage_failure_code (w : World) :
  (fst (Campaign.dump_db w) = Ok Campaign.EX_DUMP_FROM_DB_ERROR ->
   fst (Campaign.zip_campaign_files w) = Ok Campaign.EX_ZIP_CAMPAIGN_FILES_ERROR) /\
  (fst (Campaign.dump_db w) = Ok Campaign.EX_OK ->
   fst (Campaign.dump_artifacts (snd (Campaign.dump_db w))) =
     Ok Campaign.EX_DUMP_ARTIFACTS_ERROR ->
   fst (Campaign.zip_campaign_files w) = Ok Campaign.EX_ZIP_CAMPAIGN_FILES_ERROR) /\
  Campaign.EX_ZIP_CAMPAIGN_FILES_ERROR <> Campaign.EX_DUMP_FROM_DB_ERROR /\
  Campaign.EX_ZIP_CAMPAIGN_FILES_ERROR <> Campaign.EX_DUMP_ARTIFACTS_ERROR.
Proof.
  split; [|split; [|split; discriminate]].
  - destruct (Campaign.dump_db w) as [r w1] eqn:Hdb. simpl. intros ->.
    by rewrite (zip_after_failed_dump_db w _ w1 Hdb).
  - destruct (Campaign.dump_db w) as [r w1] eqn:Hdb. simpl. intros ->.
    destruct (Campaign.dump_artifacts w1) as [r w2] eqn:Hda. simpl. intros ->.
    by rewrite (zip_after_failed_dump_artifacts w w1 _ w2 Hdb Hda).
Qed.

(** C2, counterexample to the claim as stated.  When the results API
    answers with status 500, [dump_db] returns EX_DUMP_FROM_DB_ERROR and
    [zip_campaign_files] returns another code. *)
Lemma stage_code_not_propagated :
  fst (Campaign.dump_db Scenario.world_http_500) =
    Ok Campaign.EX_DUMP_FROM_DB_ERROR /\
  fst (Campaign.zip_campaign_files Scenario.world_http_500) <>
    Ok Campaign.EX_DUMP_FROM_DB_ERROR.
Proof. split; [reflexivity|]. vm_compute. discriminate. Qed.

Lemma requests_get_response w url status body :
  http_get w url = HttpResponse status body ->
  requests_get url w = (Ok (status, body), with_event (EvHttpGet url) w).
Proof.
  intros H. unfold requests_get, bind, emit, get_world.
  cbn [with_event http_get]. by rewrite H.
Qed.

(** C3.  When the results API answers with a status that
    [raise_for_status] rejects (400 to 599): [dump_db] logs the failure,
    writes no file and returns EX_DUMP_FROM_DB_ERROR;
    [zip_campaign_files] logs the failed assertion and returns its error
    code.  The world it leaves differs from the initial one by the
    request and the two log records only: no file is created (neither
    the JSON document nor the archive), and the object store client is
    never called, so [dump_artifacts] did not run. *)
Theorem fetch_failure_aborts (w : World) (status : Z) (body : option json) :
  http_get w (Campaign.request_url (environ w !! "TEST_DB_URL")
                                   (environ w !! "BUILD_TAG")) =
    HttpResponse status body ->
  (400 <= status < 600)%Z ->
  exists w1 w2,
    Campaign.dump_db w = (Ok Campaign.EX_DUMP_FROM_DB_ERROR, w1) /\
    Campaign.zip_campaign_files w = (Ok Campaign.EX_ZIP_CAMPAIGN_FILES_ERROR, w2) /\
    fs w1 = fs w /\ fs w2 = fs w /\
    s3_calls w2 = s3_calls w /\ s3_buckets w2 = s3_buckets w /\
    trace w2 =
      trace w ++
      [EvHttpGet (Campaign.request_url (environ w !! "TEST_DB_URL")
                                       (environ w !! "BUILD_TAG"));
       EvLog {| log_level := ERROR;
                log_msg := "The results cannot be collected from DB";
                log_args := []; log_exc := Some (HTTPError status) |};
       EvLog {| log_level := ERROR;
                log_msg := "Cannot publish the artifacts";
                log_args := []; log_exc := Some AssertionError |}].
Proof.
  intros Hget Hst.
  assert (Hdb : Campaign.dump_db w =
    (Ok Campaign.EX_DUMP_FROM_DB_ERROR,
     with_event (EvLog {| log_level := ERROR;
                          log_msg := "The results cannot be collected from DB";
                          log_args := []; log_exc := Some (HTTPError status) |})
       (with_event (EvHttpGet (Campaign.request_url (environ w !! "TEST_DB_URL")
                                                    (environ w !! "BUILD_TAG"))) w))).
  { unfold Campaign.dump_db.
    rewrite (try_except_raise _ _ w (HTTPError status)
               (with_event (EvHttpGet (Campaign.request_url
                                         (environ w !! "TEST_DB_URL")
                                         (environ w !! "BUILD_TAG"))) w));
      [reflexivity|].
    erewrite bind_ok by reflexivity.
    erewrite bind_ok by reflexivity.
    erewrite bind_ok by (apply requests_get_response; exact Hget).
    apply bind_raise. unfold raise_for_status, raise. cbn [fst].
    replace ((400 <=? status)%Z && (status <? 600)%Z) with true
      by (symmetry; apply andb_true_iff; split; [apply Z.leb_le|apply Z.ltb_lt]; lia).
    reflexivity. }
  eexists _, _. split; [exact Hdb|]. split.
  - apply (zip_after_failed_dump_db w _ _ Hdb). discriminate.
  - cbn. repeat split; try reflexivity. by rewrite <- !app_assoc.
Qed.

Lemma fetch_failure_aborts_witness :
  http_get Scenario.world_http_500
    (Campaign.request_url (environ Scenario.world_http_500 !! "TEST_DB_URL")
                          (environ Scenario.world_http_500 !! "BUILD_TAG")) =
    HttpResponse 500 None /\
  (400 <= 500 < 600)%Z /\
  exists w1 w2,
    Campaign.dump_db Scenario.world_http_500 =
      (Ok Campaign.EX_DUMP_FROM_DB_ERROR, w1) /\
    Campaign.zip_campaign_files Scenario.world_http_500 =
      (Ok Campaign.EX_ZIP_CAMPAIGN_FILES_ERROR, w2) /\
    fs w2 = fs Scenario.world_http_500 /\
    s3_calls w2 = s3_calls Scenario.world_http_500.
Proof.
  split; [reflexivity|]. split; [lia|].
  destruct (fetch_failure_aborts Scenario.world_http_500 500 None eq_refl)
    as (w1 & w2 & H1 & H2 & _ & H3 & H4 & _); [lia|].
  by exists w1, w2.
Defined.

(** ** Invariants of computations *)

Section Spec.

Variable I : World -> Prop.

Lemma spec_ret {A} (a : A) (Q : A -> Prop) : Q a -> spec I (ret a) Q.
Proof. intros HQ w HI. split; [done|]. by intros ? [= <-]. Qed.

Lemma spec_raise {A} (e : exn) (Q : A -> Prop) : spec I (raise e) Q.
Proof. intros w HI. split; [done|]. discriminate. Qed.

Lemma spec_bind {A B} (c : M A) (k : A -> M B) (Q1 : A -> Prop) (Q2 : B -> Prop) :
  spec I c Q1 -> (forall a, Q1 a -> spec I (k a) Q2) -> spec I (bind c k) Q2.
Proof.
  intros Hc Hk w HI. destruct (Hc w HI) as [HI' HQ]. unfold bind.
  destruct (c w) as [[a|e] w']; simpl in *.
  - apply (Hk a (HQ a eq_refl) w' HI').
  - split; [done|]. discriminate.
Qed.

Lemma spec_weaken {A} (c : M A) (Q Q' : A -> Prop) :
  spec I c Q -> (forall a, Q a -> Q' a) -> spec I c Q'.
Proof.
  intros Hc HQ w HI. destruct (Hc w HI) as [HI' H]. split; [done|].
  intros a Ha. by apply HQ, H.
Qed.

Lemma spec_try_except {A} (c : M A) (h : exn -> M A) (Q : A -> Prop) :
  spec I c Q -> (forall e, spec I (h e) Q) -> spec I (try_except c h) Q.
Proof.
  intros Hc Hh w HI. destruct (Hc w HI) as [HI' HQ]. unfold try_except.
  destruct (c w) as [[a|e] w']; simpl in *.
  - split; [done|]. intros ? [= <-]. by apply HQ.
  - apply (Hh e w' HI').
Qed.

Lemma spec_for_each {A} (l : list A) (body : A -> M unit) :
  (forall x, spec I (body x) (fun _ => True)) ->
  spec I (for_each l body) (fun _ => True).
Proof.
  intros Hb. induction l as [|x l IH]; simpl.
  - by apply spec_ret.
  - eapply spec_bind; [apply Hb|]. intros _ _. exact IH.
Qed.

Lemma spec_for_fold {A S} (l : list A) (body : S -> A -> M S) (s : S) :
  (forall s x, spec I (body s x) (fun _ => True)) ->
  spec I (for_fold l body s) (fun _ => True).
Proof.
  intros Hb. revert s. induction l as [|x l IH]; intros s; simpl.
  - by apply spec_ret.
  - eapply spec_bind; [apply Hb|]. intros s' _. apply IH.
Qed.

Lemma spec_of_option {A} (e : exn) (o : option A) :
  spec I (of_option e o) (fun _ => True).
Proof. destruct o; [by apply spec_ret|apply spec_raise]. Qed.

(** A computation that leaves the world as it is. *)
Lemma spec_pure {A} (c : M A) :
  (forall w, snd (c w) = w) -> spec I c (fun _ => True).
Proof. intros H w HI. by rewrite H. Qed.

Lemma spec_env_get name : spec I (env_get name) (fun _ => True).
Proof. by apply spec_pure. Qed.

Lemma spec_os_environ name :
  spec I (os_environ name) (fun _ => True).
Proof.
  apply spec_pure. intros w. unfold os_environ. by destruct (environ w !! name).
Qed.

Lemma spec_get_world : spec I get_world (fun _ => True).
Proof. by apply spec_pure. Qed.

Lemma spec_urlparse url : spec I (urlparse url) (fun _ => True).
Proof. apply spec_of_option. Qed.

Lemma spec_os_path_join a b : spec I (os_path_join a b) (fun _ => True).
Proof. destruct b; [by apply spec_ret|apply spec_raise]. Qed.

Lemma spec_re_sub pattern s : spec I (re_sub pattern s) (fun _ => True).
Proof. apply spec_of_option. Qed.

Lemma spec_mimetypes name : spec I (mimetypes_guess_type name) (fun _ => True).
Proof. by apply spec_pure. Qed.

Lemma spec_os_path_exists p : spec I (os_path_exists p) (fun _ => True).
Proof. by apply spec_pure. Qed.

Lemma spec_os_walk top : spec I (os_walk top) (fun _ => True).
Proof. destruct top; [by apply spec_pure|apply spec_raise]. Qed.

Lemma spec_raise_for_status req : spec I (raise_for_status req) (fun _ => True).
Proof.
  unfold raise_for_status. destruct (_ && _); [apply spec_raise|by apply spec_ret].
Qed.

Lemma spec_getitem v s : spec I (getitem v s) (fun _ => True).
Proof.
  apply spec_pure. intros w.
  destruct v, s; simpl; try done.
  - by destruct (Str.drop i s0).
  - unfold of_option. by destruct (items !! i).
  - unfold of_option. by destruct (assoc k members).
Qed.

Lemma spec_setitem v s x : spec I (setitem v s x) (fun _ => True).
Proof.
  apply spec_pure. intros w.
  destruct v, s; simpl; try done.
  by destruct (Nat.ltb i (List.length items)).
Qed.

Lemma spec_get_path v p : spec I (get_path v p) (fun _ => True).
Proof.
  revert v. induction p as [|s p IH]; intros v; simpl.
  - by apply spec_ret.
  - eapply spec_bind; [apply spec_getitem|]. intros child _. apply IH.
Qed.

Lemma spec_set_path v p x : spec I (set_path v p x) (fun _ => True).
Proof.
  revert v. induction p as [|s p IH]; intros v; simpl.
  - by apply spec_ret.
  - destruct p as [|s' p'].
    + apply spec_setitem.
    + eapply spec_bind; [apply spec_getitem|]. intros child _.
      eapply spec_bind; [apply IH|]. intros child' _. apply spec_setitem.
Qed.

Lemma spec_iter_len v : spec I (iter_len v) (fun _ => True).
Proof. destruct v; simpl; by (apply spec_ret || apply spec_raise). Qed.

Lemma spec_re_sub_json pattern v : spec I (re_sub_json pattern v) (fun _ => True).
Proof.
  destruct v; simpl; try apply spec_raise.
  eapply spec_bind; [apply spec_re_sub|]. intros. by apply spec_ret.
Qed.

Lemma spec_rewrite_links output :
  spec I (Campaign.rewrite_links output) (fun _ => True).
Proof.
  unfold Campaign.rewrite_links.
  eapply spec_bind; [apply spec_get_path|]. intros results _.
  eapply spec_bind; [apply spec_iter_len|]. intros n _.
  apply spec_for_fold. intros out i.
  eapply spec_bind; [apply spec_get_path|]. intros links _.
  eapply spec_bind; [apply spec_iter_len|]. intros m _.
  apply spec_for_fold. intros out' j.
  eapply spec_bind; [apply spec_get_path|]. intros old _.
  eapply spec_bind; [apply spec_re_sub_json|]. intros new _.
  apply spec_set_path.
Qed.

End Spec.

Section SpecEffects.

Variable I : World -> Prop.
Variable good : event -> Prop.
Hypothesis I_event : forall w e, good e -> I w -> I (with_event e w).
Hypothesis I_call : forall w, I w -> I (with_call w).
Hypothesis I_fs : forall w t, I w -> I (with_fs t w).
Hypothesis I_buckets : forall w b, I w -> I (with_buckets b w).

Lemma spec_emit e : good e -> spec I (emit e) (fun _ => True).
Proof. intros He w HI. split; [by apply I_event|done]. Qed.

Lemma spec_logger lvl msg args :
  good (EvLog {| log_level := lvl; log_msg := msg; log_args := args;
                 log_exc := None |}) ->
  spec I (logger lvl msg args) (fun _ => True).
Proof. apply spec_emit. Qed.

Lemma spec_logger_exception msg e :
  good (EvLog {| log_level := ERROR; log_msg := msg; log_args := [];
                 log_exc := Some e |}) ->
  spec I (logger_exception msg e) (fun _ => True).
Proof. apply spec_emit. Qed.

Lemma spec_client_call : spec I client_call (fun _ => True).
Proof.
  intros w HI. unfold client_call.
  destruct (s3_fault w (s3_calls w)); simpl; split; auto.
Qed.

Lemma spec_requests_get url :
  good (EvHttpGet url) -> spec I (requests_get url) (fun _ => True).
Proof.
  intros Hg. unfold requests_get.
  eapply spec_bind; [by apply spec_emit|]. intros _ _.
  eapply spec_bind; [apply spec_get_world|]. intros w _.
  destruct (http_get w url); [apply spec_raise|by apply spec_ret].
Qed.

Lemma spec_boto3_resource endpoint_url :
  good (EvResource endpoint_url) ->
  spec I (boto3_resource endpoint_url) (fun _ => True).
Proof.
  intros Hg. unfold boto3_resource.
  eapply spec_bind; [by apply spec_emit|]. intros _ _. apply spec_client_call.
Qed.

Lemma spec_objects_filter bucket prefix :
  good (EvListObjects bucket prefix) ->
  spec I (objects_filter bucket prefix) (fun _ => True).
Proof.
  intros Hg. unfold objects_filter.
  eapply spec_bind; [by apply spec_emit|]. intros _ _.
  eapply spec_bind; [apply spec_client_call|]. intros _ _.
  eapply spec_bind; [apply spec_get_world|]. intros w _.
  destruct (s3_buckets w !! bucket); [by apply spec_ret|apply spec_raise].
Qed.

Lemma spec_write_file p c : spec I (write_file p c) (fun _ => True).
Proof.
  intros w HI. unfold write_file.
  destruct (Str.endswith_char Str.slash p); [done|].
  destruct (Fs.components p) as [cs|]; [|done].
  destruct (Fs.write (fs w) cs c); simpl; split; auto.
Qed.

Lemma spec_os_makedirs p : spec I (os_makedirs p) (fun _ => True).
Proof.
  intros w HI. unfold os_makedirs.
  destruct (Fs.components p) as [cs|]; [|done].
  destruct (Fs.makedirs (fs w) cs); simpl; split; auto.
Qed.

Lemma spec_download_file bucket key filename t :
  good (EvDownloadFile bucket key filename t) ->
  spec I (download_file bucket key filename t) (fun _ => True).
Proof.
  intros Hg. unfold download_file.
  eapply spec_bind; [by apply spec_emit|]. intros _ _.
  eapply spec_bind; [apply spec_client_call|]. intros _ _.
  eapply spec_bind; [apply spec_get_world|]. intros w _.
  destruct (s3_buckets w !! bucket) as [objs|]; [|apply spec_raise].
  destruct (List.find _ objs); [apply spec_write_file|apply spec_raise].
Qed.

Lemma spec_upload_file bucket filename key t ct :
  good (EvUploadFile bucket filename key t ct) ->
  spec I (upload_file bucket filename key t ct) (fun _ => True).
Proof.
  intros Hg. unfold upload_file.
  eapply spec_bind; [by apply spec_emit|]. intros _ _.
  eapply spec_bind; [apply spec_get_world|]. intros w _.
  destruct (Fs.components filename) as [cs|]; [|apply spec_raise].
  destruct (Fs.read (fs w) cs) as [c|]; [|apply spec_raise].
  eapply spec_bind; [apply spec_client_call|]. intros _ _.
  eapply spec_bind; [apply spec_get_world|]. intros w' _.
  destruct (s3_buckets w' !! bucket) as [objs|]; [|apply spec_raise].
  intros w'' HI. split; [by apply I_buckets|done].
Qed.

Lemma spec_zip_member filename : spec I (zip_member filename) (fun _ => True).
Proof.
  unfold zip_member.
  eapply spec_bind; [apply spec_get_world|]. intros w _.
  destruct (Fs.components filename) as [cs|]; [|apply spec_raise].
  destruct (Fs.lookup (fs w) cs) as [[c|es]|];
    by (apply spec_ret || apply spec_raise).
Qed.

Lemma spec_zip_write name filename :
  spec I (zip_write name filename) (fun _ => True).
Proof.
  unfold zip_write.
  eapply spec_bind; [apply spec_zip_member|]. intros member _.
  eapply spec_bind; [apply spec_get_world|]. intros w _.
  destruct (Fs.components name) as [cs|]; [|apply spec_raise].
  destruct (Fs.read (fs w) cs) as [[b|d|m ms]|];
    try apply spec_raise. apply spec_write_file.
Qed.

Lemma spec_build_archive build_tag :
  spec I (Campaign.build_archive build_tag) (fun _ => True).
Proof.
  unfold Campaign.build_archive, zip_open.
  eapply spec_bind; [apply spec_write_file|]. intros _ _.
  eapply spec_bind; [apply spec_zip_write|]. intros _ _.
  eapply spec_bind; [apply spec_os_walk|]. intros tree _.
  apply spec_for_each. intros [[root dirs] files].
  apply spec_for_each. intros filename. apply spec_zip_write.
Qed.

End SpecEffects.

(** ** Invariants of the functions of [Campaign] *)

Section CampaignSpec.

Variable I : World -> Prop.
Variable good : event -> Prop.
Variable threshold_ok : Z -> Prop.
Hypothesis I_event : forall w e, good e -> I w -> I (with_event e w).
Hypothesis I_call : forall w, I w -> I (with_call w).
Hypothesis I_fs : forall w t, I w -> I (with_fs t w).
Hypothesis I_buckets : forall w b, I w -> I (with_buckets b w).
Hypothesis good_other : forall e, transfer_threshold e = None -> good e.
Hypothesis good_transfer :
  forall e t, transfer_threshold e = Some t -> threshold_ok t -> good e.
Hypothesis endpoint_threshold :
  spec I (os_environ "S3_ENDPOINT_URL")
    (fun endpoint_url => threshold_ok (multipart_threshold_of endpoint_url)).

Ltac spec_step lem :=
  eapply spec_bind; [eapply lem; eauto|].

Lemma spec_assert_ok rc : spec I (Campaign.assert_ok rc) (fun _ => True).
Proof.
  unfold Campaign.assert_ok.
  destruct (_ =? _)%Z; [by apply spec_ret|apply spec_raise].
Qed.

Lemma spec_dump_db : spec I Campaign.dump_db (fun _ => True).
Proof.
  unfold Campaign.dump_db. apply spec_try_except.
  - spec_step spec_env_get. intros url _.
    spec_step spec_env_get. intros build_tag _.
    spec_step spec_requests_get. intros req _.
    spec_step spec_raise_for_status. intros _ _.
    spec_step spec_of_option. intros output _.
    spec_step spec_logger. intros _ _.
    spec_step spec_rewrite_links. intros output' _.
    spec_step spec_logger. intros _ _.
    spec_step spec_env_get. intros build_tag' _.
    spec_step spec_write_file. intros _ _.
    by apply spec_ret.
  - intros e. spec_step spec_logger_exception. intros _ _. by apply spec_ret.
Qed.

Lemma spec_list_artifacts :
  spec I Campaign.list_artifacts (fun r => threshold_ok (snd (fst r))).
Proof.
  unfold Campaign.list_artifacts.
  spec_step spec_env_get. intros build_tag _.
  spec_step spec_os_environ. intros endpoint_url _.
  spec_step spec_boto3_resource. intros _ _.
  spec_step spec_os_environ. intros dst_s3_url _.
  eapply spec_bind; [apply endpoint_threshold|]. intros ep Hep.
  spec_step spec_urlparse. intros url _.
  spec_step spec_urlparse. intros url' _.
  spec_step spec_of_option. intros s3path _.
  spec_step spec_os_path_join. intros prefix _.
  spec_step spec_objects_filter. intros objects _.
  by apply spec_ret.
Qed.

Lemma spec_dump_object bucket_name s3path tconfig o :
  threshold_ok tconfig ->
  spec I (Campaign.dump_object bucket_name s3path tconfig o) (fun _ => True).
Proof.
  intros Ht. unfold Campaign.dump_object.
  destruct (OsPath.split _) as [path tail].
  spec_step spec_re_sub. intros lpath _.
  eapply spec_bind with (Q1 := fun _ => True).
  { destruct (negb _); [|by apply spec_ret].
    spec_step spec_os_path_exists. intros present _.
    destruct (negb present); [|by apply spec_ret].
    eapply spec_os_makedirs; eauto. }
  intros _ _.
  spec_step spec_re_sub. intros shown _.
  spec_step spec_logger. intros _ _.
  spec_step spec_re_sub. intros filename _.
  eapply spec_download_file; eauto.
Qed.

Lemma spec_dump_artifacts : spec I Campaign.dump_artifacts (fun _ => True).
Proof.
  unfold Campaign.dump_artifacts. apply spec_try_except.
  - eapply spec_bind; [apply spec_list_artifacts|].
    intros [[[bucket_name s3path] tconfig] objects] Ht. simpl in Ht.
    eapply spec_bind with (Q1 := fun _ => True).
    { apply spec_for_each. intros o. by apply spec_dump_object. }
    intros _ _. by apply spec_ret.
  - intros e. spec_step spec_logger_exception. intros _ _. by apply spec_ret.
Qed.

Lemma spec_publish build_tag : spec I (Campaign.publish build_tag) (fun _ => True).
Proof.
  unfold Campaign.publish.
  spec_step spec_os_environ. intros endpoint_url _.
  spec_step spec_boto3_resource. intros _ _.
  spec_step spec_os_environ. intros dst_s3_url _.
  eapply spec_bind; [apply endpoint_threshold|]. intros ep Hep.
  spec_step spec_urlparse. intros url _.
  spec_step spec_mimetypes. intros mime_type _.
  spec_step spec_urlparse. intros url' _.
  spec_step spec_upload_file. intros _ _.
  spec_step spec_os_environ. intros dst_http_url _.
  spec_step spec_logger. intros _ _.
  by apply spec_ret.
Qed.

Lemma spec_zip_campaign_files : spec I Campaign.zip_campaign_files (fun _ => True).
Proof.
  unfold Campaign.zip_campaign_files. apply spec_try_except.
  - spec_step spec_env_get. intros build_tag _.
    eapply spec_bind; [apply spec_dump_db|]. intros rc _.
    eapply spec_bind; [apply spec_assert_ok|]. intros _ _.
    eapply spec_bind; [apply spec_dump_artifacts|]. intros rc' _.
    eapply spec_bind; [apply spec_assert_ok|]. intros _ _.
    eapply spec_bind; [eapply spec_build_archive; eauto|]. intros _ _.
    apply spec_publish.
  - intros e. destruct e;
      (eapply spec_bind;
       [first [eapply spec_logger|eapply spec_logger_exception]; eauto|]);
      intros _ _; by apply spec_ret.
Qed.

End CampaignSpec.

(** ** The transfer configuration (lines 121-123 and 187-189) *)

Section Transfers.

Variable w0 : World.

Lemma ts_refl : transfers_selected w0 w0.
Proof. split; [done|]. exists []. by rewrite app_nil_r. Qed.

Lemma ts_event w e :
  selected_transfer (environ w0) e ->
  transfers_selected w0 w -> transfers_selected w0 (with_event e w).
Proof.
  intros He [Henv (new & Htr & Hall)]. split; [done|].
  exists (new ++ [e]). split.
  - cbn. by rewrite Htr, app_assoc.
  - apply Forall_app. split; [done|]. by constructor.
Qed.

Lemma ts_call w : transfers_selected w0 w -> transfers_selected w0 (with_call w).
Proof. by intros [? ?]. Qed.

Lemma ts_fs w t : transfers_selected w0 w -> transfers_selected w0 (with_fs t w).
Proof. by intros [? ?]. Qed.

Lemma ts_buckets w b :
  transfers_selected w0 w -> transfers_selected w0 (with_buckets b w).
Proof. by intros [? ?]. Qed.

Lemma ts_other e :
  transfer_threshold e = None -> selected_transfer (environ w0) e.
Proof. intros H t Ht. congruence. Qed.

Lemma ts_transfer e t :
  transfer_threshold e = Some t -> selected_threshold (environ w0) t ->
  selected_transfer (environ w0) e.
Proof. intros H Ht t' Ht'. congruence. Qed.

Lemma ts_endpoint :
  spec (transfers_selected w0) (os_environ "S3_ENDPOINT_URL")
    (fun ep => selected_threshold (environ w0) (multipart_threshold_of ep)).
Proof.
  intros w [Henv HI]. unfold os_environ. rewrite Henv.
  destruct (environ w0 !! "S3_ENDPOINT_URL") as [v|] eqn:E; simpl.
  - split; [by split|]. intros ? [= <-]. by exists v.
  - split; [by split|]. discriminate.
Qed.

Lemma ts_dump_artifacts :
  transfers_selected w0 (snd (Campaign.dump_artifacts w0)).
Proof.
  apply (spec_dump_artifacts (transfers_selected w0)
           (selected_transfer (environ w0)) (selected_threshold (environ w0)));
    eauto using ts_event, ts_call, ts_fs, ts_other, ts_transfer, ts_endpoint, ts_refl.
Qed.

Lemma ts_zip_campaign_files :
  transfers_selected w0 (snd (Campaign.zip_campaign_files w0)).
Proof.
  apply (spec_zip_campaign_files (transfers_selected w0)
           (selected_transfer (environ w0)) (selected_threshold (environ w0)));
    eauto using ts_event, ts_call, ts_fs, ts_buckets, ts_other, ts_transfer,
      ts_endpoint, ts_refl.
Qed.

End Transfers.

(** The transfers of scenario B and of its publication: two downloads
    and one upload, at 8 MiB. *)
Example scenario_transfers :
  omap transfer_threshold
    (trace (snd (Campaign.zip_campaign_files Scenario.world))) =
  [8388608; 8388608; 8388608]%Z.
Proof. vm_compute. reflexivity. Qed.

(** ** Frames: what the stages leave unchanged *)

Lemma list_artifacts_keeps_fs w :
  fs (snd (Campaign.list_artifacts w)) = fs w.
Proof.
  apply (spec_list_artifacts (fun w' => fs w' = fs w) (fun _ => True) (fun _ => True));
    auto.
  intros w' Hw'. split; [|done]. unfold os_environ. by destruct (_ !! _).
Qed.

Lemma publish_keeps_fs build_tag w :
  fs (snd (Campaign.publish build_tag w)) = fs w.
Proof.
  apply (spec_publish (fun w' => fs w' = fs w) (fun _ => True) (fun _ => True));
    auto.
  intros w' Hw'. split; [|done]. unfold os_environ. by destruct (_ !! _).
Qed.

Lemma dump_db_keeps_store w :
  s3_buckets (snd (Campaign.dump_db w)) = s3_buckets w.
Proof.
  apply (spec_dump_db (fun w' => s3_buckets w' = s3_buckets w) (fun _ => True));
    auto.
Qed.

Lemma dump_artifacts_keeps_store w :
  s3_buckets (snd (Campaign.dump_artifacts w)) = s3_buckets w.
Proof.
  apply (spec_dump_artifacts (fun w' => s3_buckets w' = s3_buckets w)
           (fun _ => True) (fun _ => True)); auto.
  intros w' Hw'. split; [|done]. unfold os_environ. by destruct (_ !! _).
Qed.

Lemma build_archive_keeps_store build_tag w :
  s3_buckets (snd (Campaign.build_archive build_tag w)) = s3_buckets w.
Proof.
  apply (spec_build_archive (fun w' => s3_buckets w' = s3_buckets w)); auto.
Qed.

(** ** An empty listing *)

(** C10.  When the listing of [dump_artifacts] returns no objects,
    [dump_artifacts] returns EX_OK and the file system is the one it
    started from: nothing is downloaded and no directory is created. *)
Theorem empty_listing_leaves_files (w w1 : World)
    (bucket_name s3path : string) (tconfig : Z) :
  Campaign.list_artifacts w = (Ok (bucket_name, s3path, tconfig, []), w1) ->
  Campaign.dump_artifacts w = (Ok Campaign.EX_OK, w1) /\ fs w1 = fs w.
Proof.
  intros Hl. split.
  - unfold Campaign.dump_artifacts.
    apply try_except_ok. erewrite bind_ok by exact Hl. reflexivity.
  - pose proof (list_artifacts_keeps_fs w) as H. by rewrite Hl in H.
Qed.

Lemma empty_listing_leaves_files_witness :
  exists w1,
    Campaign.list_artifacts Scenario.world_no_artifacts =
      (Ok ("bucket", "prefix", 8388608%Z, []), w1) /\
    Campaign.dump_artifacts Scenario.world_no_artifacts =
      (Ok Campaign.EX_OK, w1) /\
    fs w1 = fs Scenario.world_no_artifacts.
Proof.
  eexists. split; [vm_compute; reflexivity|].
  eapply empty_listing_leaves_files. vm_compute. reflexivity.
Defined.

(** ** The file system *)

Section FsFacts.

Implicit Types (t : Fs.node) (p q : list string) (es : list (string * Fs.node)).

Lemma entry_set_entry_same name x es :
  Fs.entry name (Fs.set_entry name x es) = Some x.
Proof.
  induction es as [|[n y] es IH]; simpl.
  - by rewrite String.eqb_refl.
  - destruct (String.eqb n name) eqn:E; simpl; rewrite E; [done|exact IH].
Qed.

Lemma entry_set_entry_other name other x es :
  other <> name ->
  Fs.entry other (Fs.set_entry name x es) = Fs.entry other es.
Proof.
  intros Hne. induction es as [|[n y] es IH]; simpl.
  - destruct (String.eqb_spec name other); [congruence|done].
  - destruct (String.eqb_spec n name) as [->|Hn]; simpl.
    + destruct (String.eqb_spec name other); [congruence|done].
    + by rewrite IH.
Qed.

Lemma read_cons es name q :
  Fs.read (Fs.Dir es) (name :: q) =
  match Fs.entry name es with
  | Some child => Fs.read child q
  | None => None
  end.
Proof. unfold Fs.read. simpl. by destruct (Fs.entry name es). Qed.

Lemma read_file_node c q :
  Fs.read (Fs.File c) q = match q with [] => Some c | _ => None end.
Proof. by destruct q. Qed.

Lemma write_cons_cons es a b p c :
  Fs.write (Fs.Dir es) (a :: b :: p) c =
  match Fs.entry a es with
  | Some child =>
      match Fs.write child (b :: p) c with
      | Some child' => Some (Fs.Dir (Fs.set_entry a child' es))
      | None => None
      end
  | None => None
  end.
Proof. reflexivity. Qed.

(** Writing a file changes what is read at its path and nowhere else. *)
Lemma read_write t p c t' q :
  Fs.write t p c = Some t' ->
  Fs.read t' q = if decide (q = p) then Some c else Fs.read t q.
Proof.
  revert t t' q. induction p as [|a p IH]; intros t t' q; [done|].
  destruct t as [c0|es]; [by destruct p|].
  destruct p as [|b p'].
  - (* the last component *)
    simpl. destruct (Fs.entry a es) as [[c1|es1]|] eqn:E; try done;
      intros [= <-]; destruct q as [|n q']; try done;
      rewrite !read_cons;
      (destruct (decide (n = a)) as [->|Hn];
       [rewrite entry_set_entry_same, E, ?read_file_node;
        destruct q'; [by rewrite decide_True|by rewrite decide_False]
       |rewrite entry_set_entry_other by done;
        rewrite decide_False by congruence; done]).
  - (* a directory on the way *)
    rewrite write_cons_cons.
    destruct (Fs.entry a es) as [child|] eqn:E; [|done].
    destruct (Fs.write child (b :: p') c) as [child'|] eqn:W; [|done].
    intros [= <-]. destruct q as [|n q']; [done|].
    rewrite !read_cons.
    destruct (decide (n = a)) as [->|Hn].
    + rewrite entry_set_entry_same, E. rewrite (IH child child' q' W).
      destruct (decide (q' = b :: p')) as [->|Hq].
      * by rewrite decide_True.
      * by rewrite decide_False by congruence.
    + rewrite entry_set_entry_other by done.
      by rewrite decide_False by congruence.
Qed.

Lemma read_chain p q : Fs.read (Fs.chain p) q = None.
Proof.
  revert q. induction p as [|a p IH]; intros q.
  - by destruct q.
  - destruct q as [|n q']; [done|]. simpl. rewrite read_cons. simpl.
    destruct (String.eqb a n); [apply IH|done].
Qed.

(** Creating directories changes no file. *)
Lemma read_makedirs t p t' q :
  Fs.makedirs t p = Some t' -> Fs.read t' q = Fs.read t q.
Proof.
  revert t t' q. induction p as [|a p IH]; intros t t' q; [done|].
  destruct t as [c0|es]; [done|]. cbn [Fs.makedirs].
  destruct (Fs.entry a es) as [child|] eqn:E.
  - destruct (Fs.makedirs child p) as [child'|] eqn:W; [|done].
    intros [= <-]. destruct q as [|n q']; [done|].
    rewrite !read_cons.
    destruct (decide (n = a)) as [->|Hn].
    + rewrite entry_set_entry_same, E. by apply IH.
    + by rewrite entry_set_entry_other.
  - intros [= <-]. destruct q as [|n q']; [done|].
    rewrite !read_cons.
    destruct (decide (n = a)) as [->|Hn].
    + by rewrite entry_set_entry_same, E, read_chain.
    + by rewrite entry_set_entry_other.
Qed.

(** Writing below one entry of the root changes nothing below another. *)
Lemma lookup_write_other t a p c t' b q :
  Fs.write t (a :: p) c = Some t' -> b <> a ->
  Fs.lookup t' (b :: q) = Fs.lookup t (b :: q).
Proof.
  intros W Hne. destruct t as [c0|es]; [by destruct p|].
  assert (exists x, t' = Fs.Dir (Fs.set_entry a x es)) as [x ->].
  { destruct p as [|b' p'].
    - simpl in W. destruct (Fs.entry a es) as [[?|?]|]; try done;
        injection W as <-; eauto.
    - rewrite write_cons_cons in W. destruct (Fs.entry a es); [|done].
      destruct (Fs.write _ _ _); [|done]. injection W as <-; eauto. }
  simpl. by rewrite entry_set_entry_other.
Qed.

End FsFacts.

(** ** Outcomes of computations *)

Section HoareFacts.

Context {A B : Type}.

Lemma hoare_bind (c : M A) (k : A -> M B) P Q R X :
  hoare P c Q X -> (forall a, hoare (Q a) (k a) R X) -> hoare P (bind c k) R X.
Proof.
  intros Hc Hk w Hw. specialize (Hc w Hw). unfold bind.
  destruct (c w) as [[a|e] w']; [|done]. by apply Hk.
Qed.

Lemma hoare_of_spec (c : M A) (I : World -> Prop) (Q0 : A -> Prop) :
  spec I c Q0 ->
  hoare I c (fun a w' => I w' /\ Q0 a) (fun _ w' => I w').
Proof.
  intros Hc w Hw. destruct (Hc w Hw) as [HI HQ].
  destruct (c w) as [[a|e] w']; simpl in *; [|done]. split; [done|]. by apply HQ.
Qed.

Lemma hoare_conseq (c : M A) (P P' : World -> Prop) Q Q' X X' :
  hoare P c Q X ->
  (forall w, P' w -> P w) ->
  (forall a w, Q a w -> Q' a w) ->
  (forall e w, X e w -> X' e w) ->
  hoare P' c Q' X'.
Proof.
  intros Hc HP HQ HX w Hw. specialize (Hc w (HP w Hw)).
  destruct (c w) as [[a|e] w']; auto.
Qed.

(** A step that keeps an invariant, followed by the rest. *)
Lemma hoare_step (c : M A) (k : A -> M B) (I : World -> Prop) R X :
  spec I c (fun _ => True) ->
  (forall e w, I w -> X e w) ->
  (forall a, hoare I (k a) R X) ->
  hoare I (bind c k) R X.
Proof.
  intros Hc HX Hk. eapply hoare_bind; [|intros a; apply Hk].
  eapply hoare_conseq; [apply (hoare_of_spec _ _ _ Hc)|..]; auto.
  by intros a w [? _].
Qed.

End HoareFacts.

(** ** The publish step *)

Section Publish.

Variable buckets : gmap string (list s3_object).

Local Abbreviation I := (fun w : World => s3_buckets w = buckets).
Local Abbreviation X :=
  (fun (e : exn) (w : World) =>
     e = KeyError "HTTP_DST_URL" \/ s3_buckets w = buckets).

(** An upload that fails leaves the store as it was. *)
Lemma upload_file_failure bucket filename key t ct :
  hoare I (upload_file bucket filename key t ct) (fun _ _ => True) X.
Proof.
  unfold upload_file.
  apply hoare_step; [|by right|intros _].
  { eapply spec_emit with (good := fun _ => True); auto. }
  apply hoare_step; [apply spec_get_world|by right|intros w].
  destruct (Fs.components filename) as [cs|]; [|by intros w' Hw'; right].
  destruct (Fs.read (fs w) cs) as [c|]; [|by intros w' Hw'; right].
  apply hoare_step; [|by right|intros _].
  { eapply spec_client_call; auto. }
  apply hoare_step; [apply spec_get_world|by right|intros w'].
  destruct (s3_buckets w' !! bucket); [done|by intros w'' Hw''; right].
Qed.

(** [publish] raises either before the store is changed, or for the
    missing HTTP_DST_URL after the upload. *)
Lemma publish_failure build_tag :
  hoare I (Campaign.publish build_tag) (fun _ _ => True) X.
Proof.
  unfold Campaign.publish.
  apply hoare_step; [apply spec_os_environ|by right|intros endpoint_url].
  apply hoare_step; [|by right|intros _].
  { eapply spec_boto3_resource with (good := fun _ => True); auto. }
  apply hoare_step; [apply spec_os_environ|by right|intros dst_s3_url].
  apply hoare_step; [apply spec_os_environ|by right|intros endpoint_url'].
  apply hoare_step; [apply spec_urlparse|by right|intros url].
  apply hoare_step; [apply spec_mimetypes|by right|intros mime_type].
  apply hoare_step; [apply spec_urlparse|by right|intros url'].
  eapply hoare_bind; [apply upload_file_failure|]. intros u.
  intros w _. unfold bind, os_environ.
  destruct (environ w !! "HTTP_DST_URL"); [done|by left].
Qed.

End Publish.

Lemma publish_no_credentials build_tag w w' :
  Campaign.publish build_tag w = (Raise NoCredentialsError, w') ->
  s3_buckets w' = s3_buckets w /\ fs w' = fs w.
Proof.
  intros H. split.
  - pose proof (publish_failure (s3_buckets w) build_tag w eq_refl) as Hp.
    rewrite H in Hp. by destruct Hp.
  - pose proof (publish_keeps_fs build_tag w) as Hf. by rewrite H in Hf.
Qed.

(** ** The archive file *)

Section ArchiveFile.

Variables (zfile : string) (cs : list string).
Hypothesis zfile_path : Fs.components zfile = Some cs.

Lemma zip_open_archive w w' :
  zip_open zfile ZIP_DEFLATED w = (Ok tt, w') -> archive_open cs w'.
Proof.
  unfold zip_open, write_file. rewrite zfile_path.
  destruct (Str.endswith_char _ _); [done|].
  destruct (Fs.write (fs w) cs _) as [t|] eqn:W; [|done].
  intros [= <-]. exists []. cbn. rewrite (read_write _ _ _ _ cs W).
  by rewrite decide_True.
Qed.

Lemma zip_write_archive filename :
  spec (archive_open cs) (zip_write zfile filename) (fun _ => True).
Proof.
  intros w [ms Hms]. split; [|done]. unfold zip_write, bind.
  destruct (zip_member filename w) as [[member|e] w1] eqn:Hm.
  - assert (w1 = w) as ->.
    { pose proof (spec_zip_member (fun x => x = w) filename w eq_refl) as [Hw _].
      by rewrite Hm in Hw. }
    cbn. rewrite zfile_path, Hms. unfold write_file.
    destruct (Str.endswith_char _ _); [by exists ms|].
    rewrite zfile_path.
    destruct (Fs.write (fs w) cs _) as [t|] eqn:W; [|by exists ms].
    exists (ms ++ [member]). cbn. rewrite (read_write _ _ _ _ cs W).
    by rewrite decide_True.
  - assert (w1 = w) as ->.
    { pose proof (spec_zip_member (fun x => x = w) filename w eq_refl) as [Hw _].
      by rewrite Hm in Hw. }
    by exists ms.
Qed.

End ArchiveFile.

Lemma build_archive_archive build_tag w w' :
  Campaign.build_archive build_tag w = (Ok tt, w') ->
  exists cs members,
    Fs.components (fmt build_tag +:+ ".zip") = Some cs /\
    Fs.read (fs w') cs = Some (ZipArchive ZIP_DEFLATED members).
Proof.
  unfold Campaign.build_archive. intros H.
  apply bind_ok_inv in H as ([] & wa & Hopen & H).
  destruct (Fs.components (fmt build_tag +:+ ".zip")) as [cs|] eqn:Hcs.
  2:{ unfold zip_open, write_file in Hopen. rewrite Hcs in Hopen.
      by destruct (Str.endswith_char _ _). }
  pose proof (zip_open_archive _ cs Hcs w wa Hopen) as Ha.
  assert (Hrest : spec (archive_open cs)
            (zip_write (fmt build_tag +:+ ".zip") (fmt build_tag +:+ ".json") ;;
             let* tree := os_walk build_tag in
             for_each tree (fun '(root, _, files) =>
               for_each files (fun filename =>
                 zip_write (fmt build_tag +:+ ".zip") (OsPath.join root filename))))
            (fun _ => True)).
  { eapply spec_bind; [by apply zip_write_archive|]. intros _ _.
    eapply spec_bind; [apply spec_os_walk|]. intros tree _.
    apply spec_for_each. intros [[root dirs] files].
    apply spec_for_each. intros filename. by apply zip_write_archive. }
  destruct (Hrest wa Ha) as [[ms Hms] _]. rewrite H in Hms.
  by exists cs, ms.
Qed.

(** [publish] returns EX_OK when it returns. *)
Lemma publish_returns build_tag w rc w' :
  Campaign.publish build_tag w = (Ok rc, w') -> rc = Campaign.EX_OK.
Proof.
  unfold Campaign.publish. intros H.
  repeat (apply bind_ok_inv in H as (? & ? & _ & H)).
  by injection H as <- _.
Qed.

(** [zip_campaign_files] returns one of two codes. *)
Lemma zip_campaign_files_returns w :
  fst (Campaign.zip_campaign_files w) = Ok Campaign.EX_OK \/
  fst (Campaign.zip_campaign_files w) = Ok Campaign.EX_ZIP_CAMPAIGN_FILES_ERROR.
Proof.
  unfold Campaign.zip_campaign_files, try_except.
  match goal with |- context [match ?c w with _ => _ end] =>
    destruct (c w) as [[rc|e] w'] eqn:E end.
  - left. simpl.
    do 6 (apply bind_ok_inv in E as (? & ? & _ & E)).
    by rewrite (publish_returns _ _ _ _ E).
  - right. destruct (zip_handler_code e w') as [w'' ->]. done.
Qed.

(** ** Downloading the listed objects (lines 129-145) *)

Lemma re_sub_ok pattern s w r w' :
  re_sub pattern s w = (Ok r, w') -> Re.sub_empty pattern s = Some r /\ w' = w.
Proof.
  unfold re_sub, of_option. destruct (Re.sub_empty pattern s); [|done].
  by intros [= <- <-].
Qed.

Lemma write_file_ok p c w w' :
  write_file p c w = (Ok tt, w') ->
  exists cs t,
    Fs.components p = Some cs /\ Fs.write (fs w) cs c = Some t /\ w' = with_fs t w.
Proof.
  unfold write_file. destruct (Str.endswith_char _ _); [done|].
  destruct (Fs.components p) as [cs|]; [|done].
  destruct (Fs.write (fs w) cs c) as [t|] eqn:W; [|done].
  intros [= <-]. by exists cs, t.
Qed.

Lemma os_makedirs_ok p w w' :
  os_makedirs p w = (Ok tt, w') ->
  exists cs t,
    Fs.components p = Some cs /\ Fs.makedirs (fs w) cs = Some t /\ w' = with_fs t w.
Proof.
  unfold os_makedirs.
  destruct (Fs.components p) as [cs|]; [|done].
  destruct (Fs.makedirs (fs w) cs) as [t|] eqn:W; [|done].
  intros [= <-]. by exists cs, t.
Qed.

Lemma client_call_ok w w' :
  client_call w = (Ok tt, w') -> w' = with_call w.
Proof.
  unfold client_call. destruct (s3_fault w (s3_calls w)); [done|].
  by intros [= <-].
Qed.

(** A download that succeeds writes the body of the object stored under
    the key to the file, and changes nothing else in the file system or
    in the store. *)
Lemma download_file_ok bucket key filename t w w' :
  download_file bucket key filename t w = (Ok tt, w') ->
  exists objs o p,
    s3_buckets w !! bucket = Some objs /\
    List.find (fun o => String.eqb (obj_key o) key) objs = Some o /\
    Fs.components filename = Some p /\
    s3_buckets w' = s3_buckets w /\
    forall q, Fs.read (fs w') q =
              if decide (q = p) then Some (obj_body o) else Fs.read (fs w) q.
Proof.
  unfold download_file. intros H.
  apply bind_ok_inv in H as ([] & w1 & H1 & H). injection H1 as <-.
  apply bind_ok_inv in H as ([] & w2 & H2 & H).
  apply client_call_ok in H2 as ->.
  apply bind_ok_inv in H as (w3 & w4 & H3 & H). injection H3 as <- <-.
  cbn [s3_buckets with_call with_event] in H.
  destruct (s3_buckets w !! bucket) as [objs|] eqn:Hb; [|done].
  destruct (List.find _ objs) as [o|] eqn:Hf; [|done].
  apply write_file_ok in H as (p & t' & Hp & Hw & ->).
  exists objs, o, p. repeat split; try done.
  intros q. cbn. by apply read_write.
Qed.

Lemma conditional_makedirs_ok lpath w w' :
  (if negb (String.eqb lpath "") then
     let* present := os_path_exists lpath in
     if negb present then os_makedirs lpath else ret tt
   else ret tt) w = (Ok tt, w') ->
  s3_buckets w' = s3_buckets w /\ forall q, Fs.read (fs w') q = Fs.read (fs w) q.
Proof.
  destruct (negb _); [|by intros [= <-]].
  intros H. apply bind_ok_inv in H as (present & w1 & H1 & H).
  injection H1 as _ <-.
  destruct (negb present); [|by injection H as <-].
  apply os_makedirs_ok in H as (cs & t & _ & Hm & ->).
  split; [done|]. intros q. cbn. by apply (read_makedirs _ cs).
Qed.

(** One round of the loop that succeeds. *)
Lemma dump_object_ok bucket s3path tconfig o w w' :
  Campaign.dump_object bucket s3path tconfig o w = (Ok tt, w') ->
  exists p obj,
    local_file s3path o = Some p /\
    stored w bucket (Urllib.unquote_plus (obj_listed o)) = Some obj /\
    s3_buckets w' = s3_buckets w /\
    files_updated w w' p (obj_body obj).
Proof.
  unfold Campaign.dump_object. destruct (OsPath.split _) as [path tail].
  intros H.
  apply bind_ok_inv in H as (lpath & w1 & H1 & H).
  apply re_sub_ok in H1 as [_ ->].
  apply bind_ok_inv in H as ([] & w2 & H2 & H).
  apply conditional_makedirs_ok in H2 as [Hb2 Hf2].
  apply bind_ok_inv in H as (shown & w3 & H3 & H).
  apply re_sub_ok in H3 as [_ ->].
  apply bind_ok_inv in H as ([] & w4 & H4 & H). injection H4 as <-.
  apply bind_ok_inv in H as (filename & w5 & H5 & H).
  apply re_sub_ok in H5 as [Hname ->].
  apply download_file_ok in H as (objs & obj & p & Hbk & Hfind & Hp & Hb & Hr).
  cbn [s3_buckets with_event fs] in *.
  exists p, obj. split; [|split; [|split]].
  - unfold local_file. by rewrite Hname.
  - unfold stored. rewrite <- Hb2, Hbk. exact Hfind.
  - congruence.
  - intros q. rewrite Hr, Hf2. done.
Qed.

(** The loop: when the listed objects name distinct local files, each
    file holds the body of the object stored under the decoded key, and
    no other file changes. *)
Lemma dump_objects_ok bucket s3path tconfig objects w w' :
  for_each objects (Campaign.dump_object bucket s3path tconfig) w = (Ok tt, w') ->
  NoDup (map (local_file s3path) objects) ->
  s3_buckets w' = s3_buckets w /\
  (forall o, In o objects ->
     exists p obj,
       local_file s3path o = Some p /\
       stored w bucket (Urllib.unquote_plus (obj_listed o)) = Some obj /\
       Fs.read (fs w') p = Some (obj_body obj)) /\
  (forall q, (forall o, In o objects -> local_file s3path o <> Some q) ->
     Fs.read (fs w') q = Fs.read (fs w) q).
Proof.
  revert w. induction objects as [|o objects IH]; intros w H Hnd.
  - injection H as <-. split; [done|]. split; [by intros ? []|done].
  - cbn [for_each] in H.
    apply bind_ok_inv in H as ([] & w1 & H1 & H).
    apply dump_object_ok in H1 as (p & obj & Hp & Hst & Hb1 & Hf1).
    cbn [map] in Hnd. apply NoDup_cons in Hnd as [Hnotin Hnd].
    destruct (IH w1 H Hnd) as (Hb & Hin & Hframe).
    split; [congruence|]. split.
    + intros o' [<-|Ho'].
      * exists p, obj. split; [done|]. split; [done|].
        rewrite Hframe.
        -- rewrite (Hf1 p). by rewrite decide_True.
        -- intros o2 Ho2 Heq. apply Hnotin. rewrite Hp, <- Heq.
           apply list_elem_of_In, in_map, Ho2.
      * destruct (Hin o' Ho') as (p' & obj' & Hp' & Hst' & Hr').
        exists p', obj'. split; [done|]. split; [|done].
        unfold stored in *. by rewrite <- Hb1.
    + intros q Hq. rewrite Hframe.
      * rewrite (Hf1 q). rewrite decide_False; [done|].
        intros ->. by apply (Hq o (or_introl eq_refl)).
      * intros o2 Ho2. apply Hq. by right.
Qed.

(** ** Stripping a prefix without special characters (line 143) *)

Lemma parse_plain_char d c rest :
  plain_char c = true ->
  Re.parse d (String c rest) =
  match rest with
  | String q rest' =>
      if Re.is_star q then
        if Re.peek_is Re.is_repeat rest' then None
        else cons (Re.Star (Re.Lit c)) <$> Re.parse d rest'
      else if Re.is_repeat q then None
      else cons (Re.One (Re.Lit c)) <$> Re.parse d rest
  | EmptyString => cons (Re.One (Re.Lit c)) <$> Re.parse d rest
  end.
Proof.
  destruct c as [[] [] [] [] [] [] [] []]; intros H;
    first [discriminate H | reflexivity].
Qed.

Lemma plain_not_repeat c :
  plain_char c = true -> Re.is_repeat c = false /\ Re.is_star c = false.
Proof.
  destruct c as [[] [] [] [] [] [] [] []]; intros H;
    first [discriminate H | by split].
Qed.

Lemma parse_plain s :
  Str.all plain_char s = true ->
  Re.parse 0 (s +:+ "/*") = Some (literal s ++ [Re.Star (Re.Lit "/")]).
Proof.
  induction s as [|c s IH]; [reflexivity|].
  cbn [Str.all]. intros H. apply andb_true_iff in H as [Hc Hs].
  change (String c s +:+ "/*") with (String c (s +:+ "/*")).
  rewrite (parse_plain_char 0 c _ Hc).
  destruct s as [|q s'].
  - reflexivity.
  - change (String q s' +:+ "/*") with (String q (s' +:+ "/*")) in *.
    cbn [Str.all] in Hs. apply andb_true_iff in Hs as [Hq Hs'].
    destruct (plain_not_repeat q Hq) as [-> ->].
    rewrite IH; [done|]. cbn [Str.all]. by rewrite Hq, Hs'.
Qed.

Lemma compile_plain s :
  Str.all plain_char s = true ->
  Re.compile (Campaign.s3path_pattern s) =
    Some (Re.Bol :: literal s ++ [Re.Star (Re.Lit "/")]).
Proof.
  intros H. unfold Re.compile, Campaign.s3path_pattern.
  change ("^" +:+ s +:+ "/*") with (String "^" (s +:+ "/*")).
  cbn [Re.parse].
  change (Ascii.eqb "^" "^") with true. cbv iota.
  assert (Hp : Re.peek_is Re.is_repeat (s +:+ "/*") = false).
  { destruct s as [|c s']; [done|]. cbn [Str.all] in H.
    apply andb_true_iff in H as [Hc _]. unfold Re.peek_is. simpl.
    by destruct (plain_not_repeat c Hc) as [-> _]. }
  rewrite Hp. by rewrite (parse_plain s H).
Qed.

Lemma match_literal s r k pos :
  Re.match_here (literal s ++ r) k pos =
  if Str.startswith s k
  then Re.match_here r (Str.drop (String.length s) k) (pos + String.length s)
  else None.
Proof.
  revert k pos. induction s as [|c s IH]; intros k pos.
  - simpl. by rewrite Nat.add_0_r.
  - cbn [literal app Re.match_here Str.startswith Re.atom_matches].
    destruct k as [|c' k']; [done|].
    destruct (Ascii.eqb c c'); [|done].
    rewrite IH. cbn [String.length Str.drop]. by rewrite Nat.add_succ_r.
Qed.

Lemma match_star_slash k pos :
  Re.match_here [Re.Star (Re.Lit "/")] k pos =
  Some (pos + (String.length k - String.length (Str.lstrip "/" k)), []).
Proof.
  revert pos. induction k as [|c k IH]; intros pos.
  - simpl. by rewrite Nat.add_0_r.
  - rewrite match_here_star. cbn [Re.atom_matches Str.lstrip].
    rewrite (Ascii.eqb_sym "/" c).
    destruct (Ascii.eqb c "/").
    + rewrite IH. pose proof (lstrip_length "/" k).
      cbn [String.length]. do 2 f_equal. lia.
    + cbn [Re.match_here]. by rewrite Nat.sub_diag, Nat.add_0_r.
Qed.

Lemma drop_add n m s : Str.drop (n + m) s = Str.drop m (Str.drop n s).
Proof.
  revert s. induction n as [|n IH]; intros s; [done|].
  destruct s as [|c s']; [by destruct m|]. simpl. apply IH.
Qed.

(** For a destination path without special characters, the rewrite of
    line 143 removes the path and the slashes after it from a key that
    begins with it, and leaves any other key as it is. *)
Lemma strip_plain_prefix s3path key :
  Str.all plain_char s3path = true ->
  Re.sub_empty (Campaign.s3path_pattern s3path) key =
  Some (if Str.startswith s3path key
        then Str.lstrip "/" (Str.drop (String.length s3path) key)
        else key).
Proof.
  intros H. unfold Re.sub_empty. rewrite (compile_plain s3path H).
  rewrite delete_matches_anchored. unfold Re.leading_match.
  rewrite match_here_bol, match_literal.
  destruct (Str.startswith s3path key) eqn:E; [|done].
  rewrite match_star_slash. f_equal. simpl.
  rewrite drop_add. apply drop_lstrip.
Qed.

Lemma read_parents t p c :
  Fs.read t p = Some c ->
  forall q r, p = q ++ r -> r <> [] -> exists es, Fs.lookup t q = Some (Fs.Dir es).
Proof.
  intros H q. revert t p H. induction q as [|a q IH]; intros t p H r -> Hr.
  - destruct t as [c0|es]; [|by exists es].
    rewrite read_file_node in H. by destruct r.
  - destruct t as [c0|es]; [done|].
    simpl in H. rewrite read_cons in H. simpl.
    destruct (Fs.entry a es) as [child|]; [|done].
    by apply (IH child (q ++ r) H r).
Qed.

Lemma list_artifacts_keeps_store w :
  s3_buckets (snd (Campaign.list_artifacts w)) = s3_buckets w.
Proof.
  apply (spec_list_artifacts (fun w' => s3_buckets w' = s3_buckets w)
           (fun _ => True) (fun _ => True)); auto.
  intros w' Hw'. split; [|done]. unfold os_environ. by destruct (_ !! _).
Qed.

(** When [dump_artifacts] succeeds, its loop ran to the end. *)
Lemma dump_artifacts_ok w w1 w' bucket s3path tconfig objects :
  Campaign.list_artifacts w = (Ok (bucket, s3path, tconfig, objects), w1) ->
  Campaign.dump_artifacts w = (Ok Campaign.EX_OK, w') ->
  for_each objects (Campaign.dump_object bucket s3path tconfig) w1 = (Ok tt, w').
Proof.
  intros Hl H. unfold Campaign.dump_artifacts, try_except in H.
  erewrite bind_ok in H by exact Hl. unfold bind in H.
  destruct (for_each objects _ w1) as [[[]|e] w2].
  - by injection H as <-.
  - discriminate H.
Qed.

(** C5, as amended.  Let the listing return [objects], let each listed
    object be the one the store holds under its percent-decoded key, and
    let the decoded keys name pairwise distinct local files.  When
    [dump_artifacts] succeeds, every listed object has its local file,
    at the path line 143 computes from the decoded key; the file holds
    the body of the object and lies below directories; and no other
    file is created or changed.  For a destination path without special
    characters, the file name is the decoded key without the path and
    the slashes after it. *)
Theorem artifacts_downloaded (w w1 w' : World) (bucket s3path : string)
    (tconfig : Z) (objects : list s3_object) :
  Campaign.list_artifacts w = (Ok (bucket, s3path, tconfig, objects), w1) ->
  Campaign.dump_artifacts w = (Ok Campaign.EX_OK, w') ->
  NoDup (map (local_file s3path) objects) ->
  (forall o, In o objects ->
     stored w bucket (Urllib.unquote_plus (obj_listed o)) = Some o) ->
  (forall o, In o objects ->
     exists p,
       local_file s3path o = Some p /\
       Fs.read (fs w') p = Some (obj_body o) /\
       forall q r, p = q ++ r -> r <> [] ->
         exists es, Fs.lookup (fs w') q = Some (Fs.Dir es)) /\
  (forall q, (forall o, In o objects -> local_file s3path o <> Some q) ->
     Fs.read (fs w') q = Fs.read (fs w) q) /\
  (Str.all plain_char s3path = true ->
   forall o,
     local_file s3path o =
     Fs.components
       (if Str.startswith s3path (Urllib.unquote_plus (obj_listed o))
        then Str.lstrip "/" (Str.drop (String.length s3path)
                               (Urllib.unquote_plus (obj_listed o)))
        else Urllib.unquote_plus (obj_listed o))).
Proof.
  intros Hl Hd Hnd Hst.
  pose proof (dump_artifacts_ok _ _ _ _ _ _ _ Hl Hd) as Hloop.
  destruct (dump_objects_ok _ _ _ _ _ _ Hloop Hnd) as (_ & Hin & Hframe).
  pose proof (list_artifacts_keeps_store w) as Hb1.
  pose proof (list_artifacts_keeps_fs w) as Hf1.
  rewrite Hl in Hb1, Hf1. simpl in Hb1, Hf1.
  split; [|split].
  - intros o Ho. destruct (Hin o Ho) as (p & obj & Hp & Hobj & Hr).
    assert (obj = o) as ->.
    { specialize (Hst o Ho). unfold stored in *. rewrite Hb1 in Hobj. congruence. }
    exists p. split; [done|]. split; [done|].
    by apply (read_parents _ _ _ Hr).
  - intros q Hq. rewrite (Hframe q Hq). by rewrite Hf1.
  - intros Hplain o. unfold local_file. by rewrite strip_plain_prefix.
Qed.

Lemma artifacts_downloaded_witness :
  Fs.read (fs (snd (Campaign.dump_artifacts Scenario.world)))
    ["build42"; "log.txt"] = Some (Bytes "LOG") /\
  Fs.read (fs (snd (Campaign.dump_artifacts Scenario.world)))
    ["build42"; "sub"; "report.html"] = Some (Bytes "REPORT") /\
  Fs.read (fs (snd (Campaign.dump_artifacts Scenario.world)))
    ["build42"; "other"] = None.
Proof.
  pose (w := Scenario.world).
  pose (o1 := Scenario.object "prefix/build42/log.txt" "LOG").
  pose (o2 := Scenario.object "prefix/build42/sub/report.html" "REPORT").
  destruct (artifacts_downloaded w (snd (Campaign.list_artifacts w))
              (snd (Campaign.dump_artifacts w)) "bucket" "prefix" 8388608%Z
              [o1; o2]) as (Hin & Hframe & _).
  - vm_compute. reflexivity.
  - vm_compute. reflexivity.
  - apply (bool_decide_unpack _). vm_compute. reflexivity.
  - intros o [<-|[<-|[]]]; vm_compute; reflexivity.
  - destruct (Hin o1 (or_introl eq_refl)) as (p1 & Hp1 & Hr1 & _).
    destruct (Hin o2 (or_intror (or_introl eq_refl))) as (p2 & Hp2 & Hr2 & _).
    vm_compute in Hp1. vm_compute in Hp2.
    injection Hp1 as <-. injection Hp2 as <-.
    split; [exact Hr1|]. split; [exact Hr2|].
    rewrite Hframe; [reflexivity|].
    intros o [<-|[<-|[]]]; vm_compute; discriminate.
Defined.

(** C5, counterexample to the claim as stated.  The store holds two
    objects of the campaign, under the keys prefix/build42//log.txt and
    prefix/build42/log.txt.  Both are listed and [dump_artifacts]
    succeeds, but both name the local file build42/log.txt: the local
    tree holds one file, with the body of the second object, and the
    body of the first is nowhere. *)
Lemma two_objects_one_file :
  exists w1 w',
    Campaign.list_artifacts Scenario.world_double_slash =
      (Ok ("bucket", "prefix", 8388608%Z,
           [Scenario.object "prefix/build42//log.txt" "FIRST";
            Scenario.object "prefix/build42/log.txt" "SECOND"]), w1) /\
    Campaign.dump_artifacts Scenario.world_double_slash =
      (Ok Campaign.EX_OK, w') /\
    fs w' = Fs.Dir [("build42", Fs.Dir [("log.txt", Fs.File (Bytes "SECOND"))])].
Proof.
  eexists _, _. split; [vm_compute; reflexivity|].
  split; vm_compute; reflexivity.
Qed.

(** ** Paths of valid names *)

Section PathFacts.

Implicit Types (n s : string) (cs : list string).

Lemma append_cons x (a b : string) : String x a +:+ b = String x (a +:+ b).
Proof. reflexivity. Qed.

Lemma append_assoc (a b c : string) : (a +:+ b) +:+ c = a +:+ (b +:+ c).
Proof.
  induction a as [|x a IH]; [done|].
  rewrite !append_cons. f_equal. exact IH.
Qed.

Lemma append_length (a b : string) :
  String.length (a +:+ b) = String.length a + String.length b.
Proof.
  induction a as [|x a IH]; [done|].
  rewrite append_cons. cbn [String.length]. by rewrite IH.
Qed.

Lemma valid_name_inv n :
  Fs.valid_name n = true ->
  n <> "" /\ n <> "." /\ n <> ".." /\ Str.mem Str.slash n = false.
Proof.
  unfold Fs.valid_name. intros H.
  repeat (apply andb_true_iff in H as [H ?]).
  repeat split;
    try (intros ->; discriminate).
  by apply negb_true_iff.
Qed.

Lemma split_noslash n : Str.mem Str.slash n = false -> Str.split Str.slash n = [n].
Proof.
  induction n as [|a n IH]; [done|]. cbn [Str.mem Str.split].
  intros H. apply orb_false_iff in H as [Ha Hn]. rewrite Ha.
  by rewrite (IH Hn).
Qed.

Lemma split_app n rest :
  Str.mem Str.slash n = false ->
  Str.split Str.slash (n +:+ String Str.slash rest) = n :: Str.split Str.slash rest.
Proof.
  induction n as [|a n IH].
  - intros _. change ("" +:+ String Str.slash rest) with (String Str.slash rest).
    cbn [Str.split]. by rewrite Ascii.eqb_refl.
  - rewrite append_cons. cbn [Str.mem Str.split].
    intros H. apply orb_false_iff in H as [Ha Hn]. rewrite Ha.
    by rewrite (IH Hn).
Qed.

Lemma split_path_of cs :
  cs <> [] -> forallb Fs.valid_name cs = true ->
  Str.split Str.slash (Fs.path_of cs) = cs.
Proof.
  induction cs as [|c cs IH]; [done|]. intros _ H.
  cbn [forallb] in H. apply andb_true_iff in H as [Hc Hcs].
  destruct (valid_name_inv c Hc) as (_ & _ & _ & Hs).
  destruct cs as [|c' cs'].
  - by apply split_noslash.
  - change (Fs.path_of (c :: c' :: cs'))
      with (c +:+ String Str.slash (Fs.path_of (c' :: cs'))).
    rewrite (split_app c _ Hs). by rewrite IH.
Qed.

Lemma normalize_valid stack cs :
  forallb Fs.valid_name cs = true ->
  Fs.normalize stack cs = Some (rev stack ++ cs).
Proof.
  revert stack. induction cs as [|c cs IH]; intros stack H.
  - simpl. by rewrite app_nil_r.
  - cbn [forallb] in H. apply andb_true_iff in H as [Hc Hcs].
    destruct (valid_name_inv c Hc) as (H1 & H2 & H3 & _).
    cbn [Fs.normalize].
    destruct (String.eqb_spec c ""); [done|].
    destruct (String.eqb_spec c "."); [done|].
    destruct (String.eqb_spec c ".."); [done|]. simpl.
    rewrite (IH (c :: stack) Hcs). simpl. by rewrite <- app_assoc.
Qed.

Lemma valid_name_first n :
  Fs.valid_name n = true -> Str.startswith "/" n = false.
Proof.
  intros H. destruct (valid_name_inv n H) as (Hn & _ & _ & Hs).
  destruct n as [|a n']; [done|]. cbn [Str.mem] in Hs.
  apply orb_false_iff in Hs as [Ha _]. cbn [Str.startswith].
  rewrite Ascii.eqb_sym. unfold Str.slash in Ha. by rewrite Ha.
Qed.

Lemma path_of_first c cs :
  Fs.valid_name c = true -> Str.startswith "/" (Fs.path_of (c :: cs)) = false.
Proof.
  intros H. pose proof (valid_name_first c H) as Hf.
  destruct (valid_name_inv c H) as (Hn & _).
  destruct c as [|a c']; [done|].
  destruct cs; [done|]. exact Hf.
Qed.

Lemma components_path_of cs :
  cs <> [] -> forallb Fs.valid_name cs = true ->
  Fs.components (Fs.path_of cs) = Some cs.
Proof.
  intros Hne H. unfold Fs.components.
  destruct cs as [|c cs']; [done|].
  cbn [forallb] in H. pose proof H as H'. apply andb_true_iff in H' as [Hc _].
  rewrite (path_of_first c cs' Hc).
  rewrite split_path_of by done. by rewrite normalize_valid.
Qed.

Lemma endswith_append c (a b : string) :
  b <> "" -> Str.endswith_char c (a +:+ b) = Str.endswith_char c b.
Proof.
  intros Hb. induction a as [|x a IH]; [done|].
  rewrite append_cons. cbn [Str.endswith_char].
  destruct (a +:+ b) eqn:E; [|exact IH].
  destruct a; [by destruct b|discriminate].
Qed.

Lemma endswith_noslash n :
  Str.mem Str.slash n = false -> Str.endswith_char Str.slash n = false.
Proof.
  induction n as [|a n IH]; [done|]. cbn [Str.mem Str.endswith_char].
  intros H. apply orb_false_iff in H as [Ha Hn].
  destruct n; [exact Ha|by apply IH].
Qed.

Lemma path_of_last cs :
  cs <> [] -> forallb Fs.valid_name cs = true ->
  Fs.path_of cs <> "" /\ Str.endswith_char Str.slash (Fs.path_of cs) = false.
Proof.
  induction cs as [|c cs IH]; [done|]. intros _ H.
  cbn [forallb] in H. apply andb_true_iff in H as [Hc Hcs].
  destruct (valid_name_inv c Hc) as (Hn & _ & _ & Hs).
  destruct cs as [|c' cs'].
  - split; [done|]. by apply endswith_noslash.
  - destruct (IH ltac:(done) Hcs) as [IH1 IH2].
    change (Fs.path_of (c :: c' :: cs'))
      with (c +:+ "/" +:+ Fs.path_of (c' :: cs')).
    split; [by destruct c|].
    rewrite endswith_append by done. rewrite endswith_append by done.
    exact IH2.
Qed.

Lemma path_of_snoc cs n :
  cs <> [] -> Fs.path_of (cs ++ [n]) = Fs.path_of cs +:+ "/" +:+ n.
Proof.
  induction cs as [|c cs IH]; [done|]. intros _.
  destruct cs as [|c' cs']; [done|].
  change (Fs.path_of ((c :: c' :: cs') ++ [n]))
    with (c +:+ "/" +:+ Fs.path_of ((c' :: cs') ++ [n])).
  rewrite IH by done.
  change (Fs.path_of (c :: c' :: cs'))
    with (c +:+ "/" +:+ Fs.path_of (c' :: cs')).
  by rewrite !append_assoc.
Qed.

(** Joining the path of a directory with the name of an entry gives the
    path of the entry. *)
Lemma join_path_of cs n :
  cs <> [] -> forallb Fs.valid_name cs = true -> Fs.valid_name n = true ->
  OsPath.join (Fs.path_of cs) n = Fs.path_of (cs ++ [n]).
Proof.
  intros Hne Hcs Hn. unfold OsPath.join.
  rewrite (valid_name_first n Hn).
  destruct (path_of_last cs Hne Hcs) as [H1 H2].
  destruct (String.eqb_spec (Fs.path_of cs) ""); [done|].
  rewrite H2. simpl. by rewrite path_of_snoc.
Qed.

End PathFacts.

(** ** Trees and the files below them *)

Lemma node_induction (P : Fs.node -> Prop) :
  (forall c, P (Fs.File c)) ->
  (forall es, Forall (fun e => P (snd e)) es -> P (Fs.Dir es)) ->
  forall t, P t.
Proof.
  intros HF HD. fix IH 1. intros [c|es]; [apply HF|].
  apply HD. induction es as [|[n x] es IHes]; constructor; [apply IH|exact IHes].
Qed.

Section TreeFacts.

Implicit Types (t x : Fs.node) (p q : list string) (es : list (string * Fs.node)).

Lemma entry_in es n x : Fs.entry n es = Some x -> In (n, x) es.
Proof.
  induction es as [|[m y] es IH]; [done|]. simpl.
  destruct (String.eqb_spec m n) as [->|Hne].
  - intros [= ->]. by left.
  - intros H. right. by apply IH.
Qed.

Lemma entry_distinct es n x :
  Fs.distinct (map fst es) = true -> In (n, x) es -> Fs.entry n es = Some x.
Proof.
  induction es as [|[m y] es IH]; [done|]. cbn [map fst Fs.distinct Fs.entry].
  intros H. apply andb_true_iff in H as [Hm Hd].
  intros [[= -> ->]|Hin].
  - by rewrite String.eqb_refl.
  - destruct (String.eqb_spec m n) as [->|Hne]; [|by apply IH].
    apply negb_true_iff in Hm.
    assert (existsb (String.eqb n) (map fst es) = true); [|congruence].
    apply existsb_exists. exists n. split; [|apply String.eqb_refl].
    by apply (in_map fst es (n, x)).
Qed.

Lemma set_entry_twice a x y es :
  Fs.set_entry a x (Fs.set_entry a y es) = Fs.set_entry a x es.
Proof.
  induction es as [|[m z] es IH]; simpl.
  - by rewrite String.eqb_refl.
  - destruct (String.eqb m a) eqn:E; simpl; rewrite E; [done|]. by rewrite IH.
Qed.

Lemma lookup_app t p q :
  Fs.lookup t (p ++ q) =
  match Fs.lookup t p with
  | Some x => Fs.lookup x q
  | None => None
  end.
Proof.
  revert t. induction p as [|a p IH]; intros t; [done|].
  simpl. destruct t as [c|es]; [done|].
  destruct (Fs.entry a es) as [child|]; [apply IH|done].
Qed.

Lemma read_lookup t p c :
  Fs.read t p = Some c <-> Fs.lookup t p = Some (Fs.File c).
Proof.
  unfold Fs.read. destruct (Fs.lookup t p) as [[c0|es]|]; split; congruence.
Qed.

Lemma wf_dir es :
  Fs.wf (Fs.Dir es) = true ->
  forallb Fs.valid_name (map fst es) = true /\
  Fs.distinct (map fst es) = true /\
  forall e, In e es -> Fs.wf (snd e) = true.
Proof.
  cbn [Fs.wf]. intros H.
  apply andb_true_iff in H as [H H3]. apply andb_true_iff in H as [H1 H2].
  split; [done|]. split; [done|]. by apply forallb_forall.
Qed.

Lemma in_own_files es p c :
  In (p, c) (Fs.own_files es) <-> exists n, p = [n] /\ In (n, Fs.File c) es.
Proof.
  unfold Fs.own_files. rewrite in_flat_map. split.
  - intros ([n x] & Hin & H). simpl in H. destruct x as [c'|]; [|done].
    destruct H as [[= <- <-]|[]]. by exists n.
  - intros (n & -> & Hin). exists (n, Fs.File c). split; [done|]. by left.
Qed.

(** The listed files are the files that can be read below the node. *)
Lemma files_of_read t :
  Fs.wf t = true ->
  forall p c, In (p, c) (Fs.files_of t) <-> p <> [] /\ Fs.read t p = Some c.
Proof.
  induction t as [c0|es IH] using node_induction; intros Hwf p c.
  - simpl. rewrite read_file_node. split; [done|]. intros [Hp H]. by destruct p.
  - destruct (wf_dir es Hwf) as (Hv & Hd & Hch).
    rewrite Forall_forall in IH.
    cbn [Fs.files_of]. rewrite in_app_iff, in_own_files, in_flat_map. split.
    + intros [(n & -> & Hin)|([n x] & Hin & H)].
      * split; [done|]. rewrite read_cons, (entry_distinct es n _ Hd Hin). done.
      * simpl in H. apply in_map_iff in H as ([p' c'] & [= <- <-] & Hp').
        split; [done|]. rewrite read_cons, (entry_distinct es n _ Hd Hin).
        apply list_elem_of_In in Hin.
        by apply (IH (n, x) Hin (Hch _ (proj1 (list_elem_of_In _ _) Hin))).
    + intros [Hp H]. destruct p as [|n p']; [done|].
      rewrite read_cons in H.
      destruct (Fs.entry n es) as [x|] eqn:E; [|done].
      pose proof (entry_in es n x E) as Hin.
      destruct p' as [|m p''].
      * left. exists n. split; [done|].
        destruct x as [c'|]; [|done]. by injection H as ->.
      * right. exists (n, x). split; [done|]. simpl.
        apply in_map_iff. exists (m :: p'', c). split; [done|].
        apply (IH (n, x) (proj2 (list_elem_of_In _ _) Hin) (Hch _ Hin)). done.
Qed.

End TreeFacts.

(** ** Filling the archive (lines 180-183) *)

Lemma for_each_app {A} (l1 l2 : list A) (body : A -> M unit) w w1 :
  for_each l1 body w = (Ok tt, w1) ->
  for_each (l1 ++ l2) body w = for_each l2 body w1.
Proof.
  revert w. induction l1 as [|x l1 IH]; intros w H.
  - by injection H as <-.
  - cbn [for_each app] in *.
    apply bind_ok_inv in H as ([] & w' & Hx & H).
    erewrite bind_ok by exact Hx. by apply IH.
Qed.

Section Archive.

Variables (es0 : list (string * Fs.node)) (zfile zname : string).
Hypothesis zfile_path : Fs.components zfile = Some [zname].
Hypothesis zfile_name : Str.endswith_char Str.slash zfile = false.

(** One member is added for a file outside the archive. *)
Lemma zip_write_step ms w filename b q c :
  archive_holds es0 zname ms w ->
  Fs.components filename = Some (b :: q) -> b <> zname ->
  Fs.lookup (Fs.Dir es0) (b :: q) = Some (Fs.File c) ->
  exists w',
    zip_write zfile filename w = (Ok tt, w') /\
    archive_holds es0 zname (ms ++ [(Fs.path_of (b :: q), c)]) w'.
Proof.
  intros Hw Hf Hb Hl. unfold archive_holds in Hw.
  assert (Hm : zip_member filename w = (Ok (Fs.path_of (b :: q), c), w)).
  { unfold zip_member, bind, get_world. rewrite Hf, Hw.
    cbn [Fs.lookup]. rewrite entry_set_entry_other by done.
    cbn [Fs.lookup] in Hl. by rewrite Hl. }
  unfold zip_write. erewrite bind_ok by exact Hm.
  unfold bind, get_world. rewrite zfile_path, Hw.
  rewrite read_cons, entry_set_entry_same, read_file_node.
  unfold write_file. rewrite zfile_name, zfile_path. cbn [fs].
  rewrite Hw. cbn [Fs.write]. rewrite entry_set_entry_same.
  eexists. split; [reflexivity|].
  unfold archive_holds. cbn [fs with_fs]. by rewrite set_entry_twice.
Qed.

Section Directory.

Variables (base : list string) (es : list (string * Fs.node)).
Hypothesis base_outside : forall b rel, base = b :: rel -> b <> zname.
Hypothesis base_not_nil : base <> [].
Hypothesis base_valid : forallb Fs.valid_name base = true.
Hypothesis base_dir : Fs.lookup (Fs.Dir es0) base = Some (Fs.Dir es).
Hypothesis names_valid : forallb Fs.valid_name (map fst es) = true.
Hypothesis names_distinct : Fs.distinct (map fst es) = true.

Lemma entry_valid n x : In (n, x) es -> Fs.valid_name n = true.
Proof.
  intros Hin. apply (proj1 (forallb_forall _ _) names_valid).
  by apply (in_map fst es (n, x)).
Qed.

Lemma entry_path n x :
  In (n, x) es ->
  OsPath.join (Fs.path_of base) n = Fs.path_of (base ++ [n]) /\
  Fs.components (Fs.path_of (base ++ [n])) = Some (base ++ [n]) /\
  forallb Fs.valid_name (base ++ [n]) = true /\
  Fs.lookup (Fs.Dir es0) (base ++ [n]) = Some x.
Proof.
  intros Hin. pose proof (entry_valid n x Hin) as Hn.
  assert (Hv : forallb Fs.valid_name (base ++ [n]) = true).
  { rewrite forallb_app, base_valid. simpl. by rewrite Hn. }
  split; [by apply join_path_of|]. split; [|split; [done|]].
  - apply components_path_of; [by destruct base|done].
  - rewrite lookup_app, base_dir. simpl.
    by rewrite (entry_distinct es n x names_distinct Hin).
Qed.

(** The files of the directory itself are added in order. *)
Lemma own_files_loop l ms w :
  (forall e, In e l -> In e es) ->
  archive_holds es0 zname ms w ->
  exists w',
    for_each (Fs.names (fun x => negb (Fs.is_dir x)) l)
      (fun filename => zip_write zfile (OsPath.join (Fs.path_of base) filename)) w
    = (Ok tt, w') /\
    archive_holds es0 zname (ms ++ map (relocate base) (Fs.own_files l)) w'.
Proof.
  revert ms w. induction l as [|[n x] l IH]; intros ms w Hsub Hw.
  - exists w. split; [done|]. simpl. by rewrite app_nil_r.
  - assert (Hin : In (n, x) es) by (apply Hsub; by left).
    assert (Hsub' : forall e, In e l -> In e es) by (intros e He; apply Hsub; by right).
    destruct x as [c|es'].
    + destruct (entry_path n _ Hin) as (Hj & Hc & _ & Hl).
      destruct base as [|b rel] eqn:Eb; [done|].
      destruct (zip_write_step ms w (OsPath.join (Fs.path_of (b :: rel)) n)
                  b (rel ++ [n]) c Hw) as (w1 & Hz & Hw1).
      { rewrite Hj. exact Hc. }
      { by apply (base_outside b rel). }
      { exact Hl. }
      destruct (IH _ w1 Hsub' Hw1) as (w2 & Hloop & Hw2).
      exists w2. split.
      * unfold Fs.names. cbn [List.filter snd Fs.is_dir negb map fst for_each].
        erewrite bind_ok by exact Hz. exact Hloop.
      * unfold Fs.own_files. cbn [flat_map snd fst app map].
        unfold relocate at 1. cbn [fst snd].
        rewrite <- app_assoc in Hw2. exact Hw2.
    + destruct (IH ms w Hsub' Hw) as (w2 & Hloop & Hw2).
      exists w2. split; [exact Hloop|exact Hw2].
Qed.

End Directory.

Lemma relocate_below base n (l : list (list string * content)) :
  map (relocate base) (map (fun pc => (n :: fst pc, snd pc)) l) =
  map (relocate (base ++ [n])) l.
Proof.
  rewrite map_map. apply map_ext. intros [p c]. unfold relocate. simpl.
  by rewrite <- app_assoc.
Qed.

(** The walk adds the files below a directory, in the order of
    [Fs.files_of]. *)
Lemma walk_loop x :
  forall base ms w,
    (forall b rel, base = b :: rel -> b <> zname) ->
    base <> [] ->
    forallb Fs.valid_name base = true ->
    Fs.lookup (Fs.Dir es0) base = Some x ->
    Fs.wf x = true ->
    archive_holds es0 zname ms w ->
    exists w',
      for_each (Fs.walk_dir (Fs.path_of base) x)
        (fun '(root, _, files) =>
           for_each files (fun filename =>
             zip_write zfile (OsPath.join root filename))) w = (Ok tt, w') /\
      archive_holds es0 zname (ms ++ map (relocate base) (Fs.files_of x)) w'.
Proof.
  induction x as [c|es IH] using node_induction;
    intros base ms w Hout Hne Hv Hl Hwf Hw.
  - exists w. split; [done|]. simpl. by rewrite app_nil_r.
  - destruct (wf_dir es Hwf) as (Hnv & Hnd & Hch).
    destruct (own_files_loop base es Hout Hne Hv Hl Hnv Hnd es ms w
                ltac:(done) Hw) as (w1 & Hown & Hw1).
    assert (Hsub : forall l ms w,
      (forall e, In e l -> In e es) ->
      archive_holds es0 zname ms w ->
      exists w',
        for_each
          (flat_map (fun e => Fs.walk_dir (OsPath.join (Fs.path_of base) (fst e))
                                (snd e)) l)
          (fun '(root, _, files) =>
             for_each files (fun filename =>
               zip_write zfile (OsPath.join root filename))) w = (Ok tt, w') /\
        archive_holds es0 zname
          (ms ++ map (relocate base)
                   (flat_map (fun e => map (fun pc => (fst e :: fst pc, snd pc))
                                         (Fs.files_of (snd e))) l)) w').
    { clear ms w Hw w1 Hown Hw1.
      induction l as [|[n y] l IHl]; intros ms w Hsub Hw.
      - exists w. split; [done|]. simpl. by rewrite app_nil_r.
      - assert (Hin : In (n, y) es) by (apply Hsub; by left).
        destruct (entry_path base es Hout Hne Hv Hl Hnv Hnd n y Hin)
          as (Hj & _ & Hv' & Hl').
        rewrite Forall_forall in IH.
        destruct (IH (n, y) (proj2 (list_elem_of_In _ _) Hin) (base ++ [n]) ms w)
          as (w2 & Hwalk & Hw2); try done.
        { intros b rel Hb. destruct base as [|b0 rel0]; [done|].
          injection Hb as <- _. by apply (Hout b0 rel0). }
        { by destruct base. }
        { by apply (Hch (n, y)). }
        destruct (IHl _ w2 ltac:(intros e He; apply Hsub; by right) Hw2)
          as (w3 & Hrest & Hw3).
        exists w3. split.
        + cbn [flat_map fst snd]. rewrite Hj.
          rewrite (for_each_app _ _ _ _ _ Hwalk). exact Hrest.
        + cbn [flat_map fst snd]. rewrite map_app, relocate_below.
          rewrite <- app_assoc in Hw3. exact Hw3. }
    destruct (Hsub es _ w1 ltac:(done) Hw1) as (w2 & Hdirs & Hw2).
    exists w2. split.
    + cbn [Fs.walk_dir for_each]. erewrite bind_ok by exact Hown. exact Hdirs.
    + cbn [Fs.files_of]. rewrite map_app, app_assoc. exact Hw2.
Qed.

End Archive.

(** ** The archive of a campaign (lines 178-183) *)

Lemma mem_append c (a b : string) :
  Str.mem c (a +:+ b) = Str.mem c a || Str.mem c b.
Proof.
  induction a as [|x a IH]; [done|].
  rewrite append_cons. cbn [Str.mem]. by rewrite IH, orb_assoc.
Qed.

(** A valid name with an extension is a valid name. *)
Lemma valid_name_ext n ext :
  Fs.valid_name n = true -> 2 < String.length ext ->
  Str.mem Str.slash ext = false ->
  Fs.valid_name (n +:+ ext) = true.
Proof.
  intros Hn Hlen Hext.
  destruct (valid_name_inv n Hn) as (_ & _ & _ & Hs).
  assert (Hl : 2 < String.length (n +:+ ext)) by (rewrite append_length; lia).
  unfold Fs.valid_name. rewrite mem_append, Hs, Hext.
  destruct (String.eqb_spec (n +:+ ext) "") as [E|_];
    [rewrite E in Hl; simpl in Hl; lia|].
  destruct (String.eqb_spec (n +:+ ext) ".") as [E|_];
    [rewrite E in Hl; simpl in Hl; lia|].
  destruct (String.eqb_spec (n +:+ ext) "..") as [E|_];
    [rewrite E in Hl; simpl in Hl; lia|].
  reflexivity.
Qed.

Lemma name_ext_differs n ext : ext <> "" -> n <> n +:+ ext.
Proof.
  intros Hext E. apply (f_equal String.length) in E.
  rewrite append_length in E. destruct ext; [done|]. simpl in E. lia.
Qed.

Lemma components_name n :
  Fs.valid_name n = true -> Fs.components n = Some [n].
Proof.
  intros Hn. apply (components_path_of [n]); [done|]. simpl. by rewrite Hn.
Qed.

(** The archive [build_archive] makes from the JSON document and the
    tree of a campaign. *)
Lemma build_archive_ok w bt doc :
  Fs.valid_name bt = true ->
  Fs.wf (fs w) = true ->
  Fs.read (fs w) [bt +:+ ".json"] = Some doc ->
  (forall es, Fs.lookup (fs w) [bt +:+ ".zip"] <> Some (Fs.Dir es)) ->
  exists w3 es0,
    Campaign.build_archive (Some bt) w = (Ok tt, w3) /\
    fs w = Fs.Dir es0 /\
    archive_holds es0 (bt +:+ ".zip")
      ((bt +:+ ".json", doc) :: tree_members bt (fs w)) w3.
Proof.
  intros Hbt Hwf Hdoc Hzip.
  destruct (fs w) as [c0|es0] eqn:Hfs; [done|].
  set (zname := bt +:+ ".zip") in *. set (jname := bt +:+ ".json") in *.
  assert (Hzv : Fs.valid_name zname = true)
    by (apply valid_name_ext; [done|simpl; lia|done]).
  assert (Hjv : Fs.valid_name jname = true)
    by (apply valid_name_ext; [done|simpl; lia|done]).
  pose proof (components_name zname Hzv) as Hzc.
  pose proof (components_name jname Hjv) as Hjc.
  pose proof (components_name bt Hbt) as Hbc.
  assert (Hze : Str.endswith_char Str.slash zname = false).
  { subst zname. by rewrite endswith_append. }
  assert (Hjz : jname <> zname).
  { subst jname zname. intros E. by apply String.app_inj in E. }
  assert (Hbz : bt <> zname) by (by apply name_ext_differs).
  (* the archive is created *)
  assert (Hopen : exists wa,
             zip_open zname ZIP_DEFLATED w = (Ok tt, wa) /\
             archive_holds es0 zname [] wa).
  { unfold zip_open, write_file. rewrite Hze, Hzc, Hfs. cbn [Fs.write].
    destruct (Fs.entry zname es0) as [[c|es]|] eqn:E.
    - eexists. split; [reflexivity|done].
    - exfalso. apply (Hzip es). simpl. by rewrite E.
    - eexists. split; [reflexivity|done]. }
  destruct Hopen as (wa & Hopen & Hwa).
  (* the JSON document is added *)
  destruct (zip_write_step es0 zname zname Hzc Hze [] wa jname jname [] doc Hwa Hjc Hjz)
    as (wb & Hjson & Hwb).
  { by apply read_lookup. }
  (* the tree is walked *)
  assert (Hwalk : exists w3,
             for_each (Fs.walk (fs wb) bt)
               (fun '(root, _, files) =>
                  for_each files (fun filename =>
                    zip_write zname (OsPath.join root filename))) wb = (Ok tt, w3) /\
             archive_holds es0 zname
               ((jname, doc) :: tree_members bt (Fs.Dir es0)) w3).
  { unfold Fs.walk, tree_members. rewrite Hbc.
    unfold archive_holds in Hwb. rewrite Hwb.
    cbn [Fs.lookup]. rewrite entry_set_entry_other by done.
    destruct (Fs.entry bt es0) as [x|] eqn:E.
    - destruct (walk_loop es0 zname zname Hzc Hze x [bt] [(jname, doc)] wb)
        as (w3 & Hl & Hw3); try done.
      + intros b rel [= <- _]. done.
      + simpl. by rewrite Hbt.
      + simpl. by rewrite E.
      + destruct (wf_dir es0 Hwf) as (_ & _ & Hch).
        apply (Hch (bt, x)). by apply entry_in.
      + exists w3. split; [exact Hl|]. exact Hw3.
    - exists wb. split; [done|]. exact Hwb. }
  destruct Hwalk as (w3 & Hwalk & Hw3).
  exists w3, es0. split; [|split; [done|exact Hw3]].
  unfold Campaign.build_archive. cbn [fmt]. fold zname jname.
  erewrite bind_ok by exact Hopen.
  erewrite bind_ok by exact Hjson.
  erewrite bind_ok by reflexivity.
  exact Hwalk.
Qed.

(** What follows the archive in [zip_campaign_files] changes no file. *)
Lemma zip_after_archive w0 w1 w w3 bt :
  environ w0 !! "BUILD_TAG" = Some bt ->
  Campaign.dump_db w0 = (Ok Campaign.EX_OK, w1) ->
  Campaign.dump_artifacts w1 = (Ok Campaign.EX_OK, w) ->
  Campaign.build_archive (Some bt) w = (Ok tt, w3) ->
  fs (snd (Campaign.zip_campaign_files w0)) = fs w3.
Proof.
  intros Hbt Hdb Hda Hzip.
  pose proof (publish_keeps_fs (Some bt) w3) as Hfs.
  unfold Campaign.zip_campaign_files, try_except.
  erewrite bind_ok by reflexivity. rewrite Hbt.
  erewrite bind_ok by exact Hdb.
  erewrite bind_ok by reflexivity.
  erewrite bind_ok by exact Hda.
  erewrite bind_ok by reflexivity.
  erewrite bind_ok by exact Hzip.
  destruct (Campaign.publish (Some bt) w3) as [[rc|e] w4]; simpl in Hfs.
  - exact Hfs.
  - rewrite <- Hfs. by destruct e.
Qed.

(** C4.  Let the two stages succeed for the campaign [bt] and leave the
    JSON document [doc] and a tree of artifacts.  Then the archive step
    succeeds, and the archive [zip_campaign_files] leaves in the working
    directory is deflated and holds the JSON document under its name,
    followed by one member for every file below the directory of the
    campaign, under the path of the file, and no other member.  The
    members are a function of the document and of the tree; no file but
    the archive is changed. *)
Theorem archive_members_exact (w0 w1 w : World) (bt : string) (doc : content) :
  environ w0 !! "BUILD_TAG" = Some bt ->
  Fs.valid_name bt = true ->
  Campaign.dump_db w0 = (Ok Campaign.EX_OK, w1) ->
  Campaign.dump_artifacts w1 = (Ok Campaign.EX_OK, w) ->
  Fs.wf (fs w) = true ->
  Fs.read (fs w) [bt +:+ ".json"] = Some doc ->
  (forall es, Fs.lookup (fs w) [bt +:+ ".zip"] <> Some (Fs.Dir es)) ->
  exists w3,
    Campaign.build_archive (Some bt) w = (Ok tt, w3) /\
    fs (snd (Campaign.zip_campaign_files w0)) = fs w3 /\
    Fs.read (fs w3) [bt +:+ ".zip"] =
      Some (ZipArchive ZIP_DEFLATED
              ((bt +:+ ".json", doc) :: tree_members bt (fs w))) /\
    (forall q, q <> [bt +:+ ".zip"] -> Fs.read (fs w3) q = Fs.read (fs w) q) /\
    (forall name c,
       In (name, c) (tree_members bt (fs w)) <->
       exists p, p <> [] /\ name = Fs.path_of (bt :: p) /\
                 Fs.read (fs w) (bt :: p) = Some c).
Proof.
  intros Hbt Hv Hdb Hda Hwf Hdoc Hzip.
  destruct (build_archive_ok w bt doc Hv Hwf Hdoc Hzip) as (w3 & es0 & Hb & Hfs & Hw3).
  exists w3. split; [exact Hb|].
  split; [by apply (zip_after_archive w0 w1 w w3 bt)|].
  unfold archive_holds in Hw3. rewrite Hfs in *. split; [|split].
  - by rewrite Hw3, read_cons, entry_set_entry_same.
  - intros q Hq.
    assert (W : Fs.write (Fs.Dir es0) [bt +:+ ".zip"]
                  (ZipArchive ZIP_DEFLATED
                     ((bt +:+ ".json", doc) :: tree_members bt (Fs.Dir es0)))
                = Some (fs w3)).
    { rewrite Hw3. cbn [Fs.write].
      destruct (Fs.entry (bt +:+ ".zip") es0) as [[c|es]|] eqn:E; try done.
      exfalso. apply (Hzip es). simpl. by rewrite E. }
    rewrite (read_write _ _ _ _ q W). by rewrite decide_False.
  - intros name c. unfold tree_members. cbn [Fs.lookup].
    destruct (Fs.entry bt es0) as [x|] eqn:E.
    + assert (Hx : Fs.wf x = true).
      { destruct (wf_dir es0 Hwf) as (_ & _ & Hch).
        apply (Hch (bt, x)). by apply entry_in. }
      rewrite in_map_iff. split.
      * intros ([p c'] & [= <- <-] & Hin).
        apply (files_of_read x Hx) in Hin as [Hp Hr].
        exists p. split; [done|]. split; [done|]. by rewrite read_cons, E.
      * intros (p & Hp & -> & Hr). rewrite read_cons, E in Hr.
        exists (p, c). split; [done|]. by apply (files_of_read x Hx).
    + split; [done|]. intros (p & _ & _ & Hr). by rewrite read_cons, E in Hr.
Qed.

Lemma archive_members_exact_witness :
  Fs.read (fs (snd (Campaign.zip_campaign_files Scenario.world)))
    ["build42.zip"] =
  Some (ZipArchive ZIP_DEFLATED
          [("build42.json", JsonText (Scenario.doc "http://internal/x/a.log"));
           ("build42/log.txt", Bytes "LOG");
           ("build42/sub/report.html", Bytes "REPORT")]).
Proof.
  pose (w0 := Scenario.world).
  pose (w1 := snd (Campaign.dump_db w0)).
  pose (w := snd (Campaign.dump_artifacts w1)).
  assert (Hbt : environ w0 !! "BUILD_TAG" = Some "build42") by reflexivity.
  assert (Hv : Fs.valid_name "build42" = true) by reflexivity.
  assert (Hdb : Campaign.dump_db w0 = (Ok Campaign.EX_OK, w1))
    by (vm_compute; reflexivity).
  assert (Hda : Campaign.dump_artifacts w1 = (Ok Campaign.EX_OK, w))
    by (vm_compute; reflexivity).
  assert (Hwf : Fs.wf (fs w) = true) by (vm_compute; reflexivity).
  assert (Hdoc : Fs.read (fs w) ["build42" +:+ ".json"] =
                 Some (JsonText (Scenario.doc "http://internal/x/a.log")))
    by (vm_compute; reflexivity).
  assert (Hzip : forall es, Fs.lookup (fs w) ["build42" +:+ ".zip"] <> Some (Fs.Dir es))
    by (intros es; vm_compute; discriminate).
  destruct (archive_members_exact w0 w1 w "build42" _ Hbt Hv Hdb Hda Hwf Hdoc Hzip)
    as (w3 & _ & Hfs & Hr & _).
  fold w0. rewrite Hfs. exact Hr.
Defined.

(** * Further properties *)

(** ** The loops of [dump_db] over the results and their links (lines 77-82) *)

Section Returns.

Context {A B : Type}.

Lemma returns_ret (a : A) : returns (ret a) a.
Proof. done. Qed.

Lemma returns_bind (c : M A) (k : A -> M B) a b :
  returns c a -> returns (k a) b -> returns (bind c k) b.
Proof. intros Hc Hk w. unfold bind. by rewrite Hc. Qed.

Lemma returns_of_option (e : exn) (o : option A) a :
  o = Some a -> returns (of_option e o) a.
Proof. by intros ->. Qed.

End Returns.

(** A loop over the indices [a], ..., [a + n - 1] whose rounds step
    through the states [st a], ..., [st (a + n)]. *)
Lemma returns_for_fold {S} (body : S -> nat -> M S) (st : nat -> S) n a :
  (forall j, a <= j < a + n -> returns (body (st j) j) (st (Datatypes.S j))) ->
  returns (for_fold (seq a n) body (st a)) (st (a + n)).
Proof.
  revert a. induction n as [|n IH]; intros a Hb.
  - rewrite Nat.add_0_r. apply returns_ret.
  - cbn [seq for_fold]. eapply returns_bind; [apply Hb; lia|].
    replace (a + Datatypes.S n) with (Datatypes.S a + n) by lia.
    apply IH. intros j Hj. apply Hb. lia.
Qed.

Section AssocFacts.

Context {A : Type}.
Implicit Types (k : string) (x y : A) (l : list (string * A)).

Lemma assoc_set_same k x l : assoc k l = Some x -> assoc_set k x l = l.
Proof.
  induction l as [|[n y] l IH]; [done|]. cbn [assoc assoc_set].
  destruct (String.eqb n k); [by intros [= ->]|].
  intros H. by rewrite IH.
Qed.

Lemma assoc_assoc_set k x l : assoc k (assoc_set k x l) = Some x.
Proof.
  induction l as [|[n y] l IH]; cbn [assoc assoc_set].
  - by rewrite String.eqb_refl.
  - destruct (String.eqb n k) eqn:E; cbn [assoc]; by rewrite E.
Qed.

Lemma assoc_set_twice k x y l :
  assoc_set k y (assoc_set k x l) = assoc_set k y l.
Proof.
  induction l as [|[n z] l IH]; cbn [assoc_set].
  - by rewrite String.eqb_refl.
  - destruct (String.eqb n k) eqn:E; cbn [assoc_set]; rewrite E; [done|].
    by rewrite IH.
Qed.

End AssocFacts.

(** The items before [i] are mapped; mapping the item at [i] extends the
    mapped part by one. *)
Lemma insert_mapped_prefix {A} (g : A -> A) (l : list A) i x :
  l !! i = Some x ->
  <[i := g x]> (map g (take i l) ++ drop i l) =
  map g (take (S i) l) ++ drop (S i) l.
Proof.
  revert i. induction l as [|y l IH]; intros [|i] H; try done.
  - by injection H as ->.
  - cbn. f_equal. by apply IH.
Qed.

Lemma lookup_mapped_prefix {A} (g : A -> A) (l : list A) i :
  (map g (take i l) ++ drop i l) !! i = l !! i.
Proof.
  revert i. induction l as [|y l IH]; intros [|i]; try done. cbn. apply IH.
Qed.

Lemma length_mapped_prefix {A} (g : A -> A) (l : list A) i :
  List.length (map g (take i l) ++ drop i l) = List.length l.
Proof.
  revert i. induction l as [|y l IH]; intros [|i]; try done. cbn. by rewrite IH.
Qed.

Lemma rewritten_link_sub link :
  Re.sub_empty Campaign.db_link_pattern link = Some (rewritten_link link).
Proof.
  unfold rewritten_link, Re.sub_empty.
  destruct db_link_pattern_compiles as [r ->]. reflexivity.
Qed.

Lemma re_sub_json_returns link :
  returns (re_sub_json Campaign.db_link_pattern (JString link))
          (JString (rewritten_link link)).
Proof.
  intros w. unfold re_sub_json, re_sub, bind.
  by rewrite rewritten_link_sub.
Qed.

Lemma with_links_same result links :
  result_links result = Some links -> with_links links result = result.
Proof.
  unfold result_links, with_links.
  destruct result as [| | | | |rm]; try done.
  destruct (assoc "details" rm) as [[| | | | |dm]|] eqn:Hd; try done.
  destruct (assoc "links" dm) as [[| | | |ls|]|] eqn:Hl; try done.
  intros [= ->]. f_equal.
  rewrite (assoc_set_same "links" (JArray links) dm Hl).
  by apply assoc_set_same.
Qed.

Section Links.

Variables (ms : list (string * json)) (results : list json) (i : nat)
          (result : json) (links0 : list json).
Hypothesis result_at : results !! i = Some result.
Hypothesis links_at : result_links result = Some links0.

Local Abbreviation document links :=
  (with_results (<[i := with_links links result]> results) ms).

Lemma links_get links :
  returns (get_path (document links) (Campaign.links_of i)) (JArray links).
Proof.
  unfold result_links in links_at.
  destruct result as [| | | | |rm]; try done.
  destruct (assoc "details" rm) as [[| | | | |dm]|] eqn:Hd; try done.
  unfold Campaign.links_of, with_results, with_links. rewrite Hd.
  cbn [get_path].
  eapply returns_bind.
  { apply returns_of_option, assoc_assoc_set. }
  eapply returns_bind.
  { apply returns_of_option, list_lookup_insert_eq.
    by apply lookup_lt_Some in result_at. }
  eapply returns_bind.
  { apply returns_of_option, assoc_assoc_set. }
  eapply returns_bind.
  { apply returns_of_option, assoc_assoc_set. }
  apply returns_ret.
Qed.

Lemma link_get links j x :
  links !! j = Some x ->
  returns (get_path (document links) (Campaign.links_of i ++ [Index j])) x.
Proof.
  intros Hj.
  unfold result_links in links_at.
  destruct result as [| | | | |rm]; try done.
  destruct (assoc "details" rm) as [[| | | | |dm]|] eqn:Hd; try done.
  unfold Campaign.links_of, with_results, with_links. rewrite Hd.
  cbn [app get_path].
  eapply returns_bind.
  { apply returns_of_option, assoc_assoc_set. }
  eapply returns_bind.
  { apply returns_of_option, list_lookup_insert_eq.
    by apply lookup_lt_Some in result_at. }
  eapply returns_bind.
  { apply returns_of_option, assoc_assoc_set. }
  eapply returns_bind.
  { apply returns_of_option, assoc_assoc_set. }
  eapply returns_bind.
  { apply returns_of_option, Hj. }
  apply returns_ret.
Qed.

Lemma link_set links j x :
  j < List.length links ->
  returns (set_path (document links) (Campaign.links_of i ++ [Index j]) x)
          (document (<[j := x]> links)).
Proof.
  intros Hj.
  pose proof (lookup_lt_Some _ _ _ result_at) as Hi.
  unfold result_links in links_at.
  destruct result as [| | | | |rm]; try done.
  destruct (assoc "details" rm) as [[| | | | |dm]|] eqn:Hd; try done.
  unfold Campaign.links_of, with_results, with_links. rewrite Hd.
  cbn [app set_path].
  eapply returns_bind.
  { apply returns_of_option, assoc_assoc_set. }
  eapply returns_bind.
  { eapply returns_bind.
    { apply returns_of_option, list_lookup_insert_eq, Hi. }
    eapply returns_bind.
    { eapply returns_bind.
      { apply returns_of_option, assoc_assoc_set. }
      eapply returns_bind.
      { eapply returns_bind.
        { apply returns_of_option, assoc_assoc_set. }
        eapply returns_bind.
        { unfold setitem. apply Nat.ltb_lt in Hj. rewrite Hj.
          apply returns_ret. }
        apply returns_ret. }
      apply returns_ret. }
    unfold setitem. rewrite length_insert.
    apply Nat.ltb_lt in Hi. rewrite Hi. apply returns_ret. }
  intros w. cbn [setitem ret].
  by rewrite !assoc_set_twice, list_insert_insert_eq.
Qed.

(** The inner loop (lines 78-82) on a result whose links are strings. *)
Lemma links_loop :
  forallb is_string links0 = true ->
  returns
    (for_fold (seq 0 (List.length links0)) (fun output j =>
       let* old := get_path output (Campaign.links_of i ++ [Index j]) in
       let* new := re_sub_json Campaign.db_link_pattern old in
       set_path output (Campaign.links_of i ++ [Index j]) new)
       (with_results results ms))
    (with_results (<[i := rewritten_result result]> results) ms).
Proof.
  intros Hstr.
  pose (st := fun j => document (map rewritten_item (take j links0) ++ drop j links0)).
  assert (H0 : with_results results ms = st 0).
  { unfold st. rewrite take_0, drop_0. cbn [map app].
    rewrite (with_links_same _ _ links_at).
    by rewrite (list_insert_id _ _ _ result_at). }
  assert (Hn : with_results (<[i := rewritten_result result]> results) ms =
               st (0 + List.length links0)).
  { unfold st, rewritten_result. rewrite links_at.
    cbn [Nat.add]. by rewrite firstn_all, drop_all, app_nil_r. }
  rewrite H0, Hn. apply returns_for_fold.
  intros j [_ Hj]. cbn [Nat.add] in Hj.
  destruct (lookup_lt_is_Some_2 links0 j Hj) as [x Hx].
  assert (Hs : is_string x = true).
  { rewrite forallb_forall in Hstr. apply Hstr.
    apply list_elem_of_In. by apply list_elem_of_lookup_2 in Hx. }
  destruct x as [| | |link| |]; try done.
  unfold st.
  eapply returns_bind.
  { apply link_get. rewrite lookup_mapped_prefix. exact Hx. }
  eapply returns_bind; [apply re_sub_json_returns|].
  rewrite <- (insert_mapped_prefix rewritten_item links0 j (JString link) Hx).
  apply link_set. by rewrite length_mapped_prefix.
Qed.

End Links.


Lemma rewrite_links_returns (ms : list (string * json)) (results : list json) :
  assoc "results" ms = Some (JArray results) ->
  forallb links_are_strings results = true ->
  returns (Campaign.rewrite_links (JObject ms))
          (with_results (map rewritten_result results) ms).
Proof.
  intros Hres Hshape. unfold Campaign.rewrite_links.
  eapply returns_bind.
  { cbn [get_path]. eapply returns_bind; [|apply returns_ret].
    apply returns_of_option, Hres. }
  eapply returns_bind; [apply returns_ret|]. cbn beta.
  pose (st := fun i =>
          with_results (map rewritten_result (take i results) ++ drop i results) ms).
  assert (H0 : JObject ms = st 0).
  { unfold st, with_results. rewrite take_0, drop_0. cbn [map app].
    by rewrite (assoc_set_same _ _ _ Hres). }
  assert (Hn : with_results (map rewritten_result results) ms =
               st (0 + List.length results)).
  { unfold st. cbn [Nat.add]. by rewrite firstn_all, drop_all, app_nil_r. }
  rewrite H0 at 1. rewrite Hn. apply returns_for_fold.
  intros i [_ Hi]. cbn [Nat.add] in Hi.
  destruct (lookup_lt_is_Some_2 results i Hi) as [r Hr].
  assert (Hs : links_are_strings r = true).
  { rewrite forallb_forall in Hshape. apply Hshape.
    apply list_elem_of_In. by apply list_elem_of_lookup_2 in Hr. }
  unfold links_are_strings in Hs.
  destruct (result_links r) as [links|] eqn:Hl; [|done].
  unfold st.
  set (cur := map rewritten_result (take i results) ++ drop i results).
  assert (Hcur : cur !! i = Some r).
  { unfold cur. by rewrite lookup_mapped_prefix. }
  eapply returns_bind.
  { rewrite <- (list_insert_id cur i r Hcur) at 1.
    rewrite <- (with_links_same r links Hl) at 1.
    apply (links_get ms cur i r links Hcur Hl). }
  eapply returns_bind; [apply returns_ret|]. cbn beta.
  rewrite <- (insert_mapped_prefix rewritten_result results i r Hr).
  by apply links_loop.
Qed.

(** A link that does not begin with an opening brace is its own rewrite. *)
Lemma rewritten_link_plain link :
  Str.startswith "{" link = false -> rewritten_link link = link.
Proof.
  intros Hs. unfold rewritten_link, Re.sub_empty.
  destruct db_link_pattern_compiles as [r ->]. cbn [default].
  rewrite delete_matches_anchored. unfold Re.leading_match.
  rewrite match_here_bol.
  destruct link as [|c l]; [done|].
  cbn [Str.startswith] in Hs. cbn [Re.match_here Re.atom_matches].
  destruct (Ascii.eqb "{" c); [by destruct l|done].
Qed.

Lemma plain_is_string v : plain_link v = true -> is_string v = true.
Proof. by destruct v. Qed.

Lemma rewritten_items_plain links :
  forallb plain_link links = true -> map rewritten_item links = links.
Proof.
  induction links as [|v links IH]; [done|]. cbn [forallb map].
  intros H. apply andb_true_iff in H as [Hv Hl]. rewrite (IH Hl). f_equal.
  destruct v as [| | |link| |]; try done.
  cbn [plain_link rewritten_item] in *.
  rewrite rewritten_link_plain; [done|]. by apply negb_true_iff.
Qed.

Lemma rewritten_results_plain results :
  forallb links_are_plain results = true ->
  map rewritten_result results = results /\
  forallb links_are_strings results = true.
Proof.
  induction results as [|r results IH]; [done|]. cbn [forallb map].
  intros H. apply andb_true_iff in H as [Hr Hl].
  destruct (IH Hl) as [-> ->].
  unfold links_are_plain in Hr. unfold rewritten_result, links_are_strings.
  destruct (result_links r) as [links|] eqn:E; [|done].
  rewrite (rewritten_items_plain _ Hr), (with_links_same _ _ E).
  split; [done|]. rewrite andb_true_r.
  apply forallb_forall. intros v Hv. apply plain_is_string.
  rewrite forallb_forall in Hr. by apply Hr.
Qed.

(** X1.  On a document whose member results is a list of results, each
    with a list of links at details/links that holds strings only, the
    two loops of [dump_db] (lines 77-82) return the document in which
    every link of every result is replaced by its rewrite; the other
    members of the document, of the results and of their details stay
    as they are, and the world is not touched.  When no link begins
    with an opening brace, the document returned is the document
    given. *)
Theorem rewrite_links_maps (ms : list (string * json)) (results : list json) :
  assoc "results" ms = Some (JArray results) ->
  forallb links_are_strings results = true ->
  returns (Campaign.rewrite_links (JObject ms))
          (with_results (map rewritten_result results) ms) /\
  (forallb links_are_plain results = true ->
   with_results (map rewritten_result results) ms = JObject ms).
Proof.
  intros Hres Hshape. split; [by apply rewrite_links_returns|].
  intros Hplain. destruct (rewritten_results_plain _ Hplain) as [-> _].
  unfold with_results. by rewrite (assoc_set_same _ _ _ Hres).
Qed.

Lemma rewrite_links_maps_witness :
  returns
    (Campaign.rewrite_links
       (JObject [("total", JNumber "1");
                 ("results",
                  JArray [JObject [("case", JString "a");
                                   ("details",
                                    JObject [("links",
                                              JArray [JString "{os.environH}/x/a.log";
                                                      JString "http://internal/b.log"])])];
                          JObject [("details", JObject [("links", JArray [])])]])]))
    (JObject [("total", JNumber "1");
              ("results",
               JArray [JObject [("case", JString "a");
                                ("details",
                                 JObject [("links",
                                           JArray [JString "x/a.log";
                                                   JString "http://internal/b.log"])])];
                       JObject [("details", JObject [("links", JArray [])])]])]).
Proof.
  intros w.
  destruct (rewrite_links_maps
              [("total", JNumber "1");
               ("results",
                JArray [JObject [("case", JString "a");
                                 ("details",
                                  JObject [("links",
                                            JArray [JString "{os.environH}/x/a.log";
                                                    JString "http://internal/b.log"])])];
                        JObject [("details", JObject [("links", JArray [])])]])]
              [JObject [("case", JString "a");
                        ("details",
                         JObject [("links",
                                   JArray [JString "{os.environH}/x/a.log";
                                           JString "http://internal/b.log"])])];
               JObject [("details", JObject [("links", JArray [])])]]
              eq_refl eq_refl) as [H _].
  rewrite (H w). vm_compute. reflexivity.
Defined.

(** ** [dump_db] from the reply to the file (lines 69-91) *)


Lemma raise_for_status_raise status body w :
  (400 <=? status)%Z && (status <? 600)%Z = true ->
  raise_for_status (status, body) w = (Raise (HTTPError status), w).
Proof. intros H. unfold raise_for_status. cbn [fst]. by rewrite H. Qed.

Lemma requests_get_failed w url e :
  http_get w url = HttpFailed e ->
  requests_get url w = (Raise e, with_event (EvHttpGet url) w).
Proof.
  intros H. unfold requests_get, bind, emit, get_world.
  cbn [with_event http_get]. by rewrite H.
Qed.

Lemma write_file_raise p c w e w' :
  write_file p c w = (Raise e, w') -> w' = w.
Proof.
  unfold write_file. destruct (Str.endswith_char _ _); [by intros [= _ <-]|].
  destruct (Fs.components p) as [cs|]; [|by intros [= _ <-]].
  destruct (Fs.write (fs w) cs c); [done|by intros [= _ <-]].
Qed.




(** The body of [dump_db] leaves the files, the store and the client as
    they were when it raises. *)
Lemma dump_db_body_raise (w : World) :
  hoare (fun w' => fs w' = fs w /\ s3_calls w' = s3_calls w /\
                   s3_buckets w' = s3_buckets w)
    (let* url := env_get "TEST_DB_URL" in
     let* build_tag := env_get "BUILD_TAG" in
     let* req := requests_get (Campaign.request_url url build_tag) in
     raise_for_status req ;;
     let* output := response_json req in
     logger DEBUG ("data from DB: " +:+ nl +:+ "%s") [ArgJson output] ;;
     let* output := Campaign.rewrite_links output in
     logger DEBUG ("data to archive: " +:+ nl +:+ "%s") [ArgJson output] ;;
     let* build_tag := env_get "BUILD_TAG" in
     dump_json_file (fmt build_tag +:+ ".json") output ;;
     ret Campaign.EX_OK)
    (fun rc _ => rc = Campaign.EX_OK)
    (fun _ w' => fs w' = fs w /\ s3_calls w' = s3_calls w /\
                 s3_buckets w' = s3_buckets w).
Proof.
  assert (Hev : forall (w' : World) (e : event),
             True ->
             fs w' = fs w /\ s3_calls w' = s3_calls w /\ s3_buckets w' = s3_buckets w ->
             fs (with_event e w') = fs w /\ s3_calls (with_event e w') = s3_calls w /\
             s3_buckets (with_event e w') = s3_buckets w) by done.
  apply hoare_step; [apply spec_env_get|done|intros url].
  apply hoare_step; [apply spec_env_get|done|intros build_tag].
  apply hoare_step; [by apply spec_requests_get with (good := fun _ => True)|done|intros req].
  apply hoare_step; [apply spec_raise_for_status|done|intros _].
  apply hoare_step; [apply spec_of_option|done|intros output].
  apply hoare_step; [by apply spec_logger with (good := fun _ => True)|done|intros _].
  apply hoare_step; [apply spec_rewrite_links|done|intros output'].
  apply hoare_step; [by apply spec_logger with (good := fun _ => True)|done|intros _].
  apply hoare_step; [apply spec_env_get|done|intros build_tag'].
  intros w' Hw'. unfold bind, dump_json_file.
  destruct (write_file _ _ w') as [[[]|e] w''] eqn:E; [done|].
  by rewrite (write_file_raise _ _ _ _ _ E).
Qed.

(** X3.  When [dump_db] returns its error code, it has written no file:
    the file system is the one it started from.  The last record of the
    trace is the one of its handler, with the exception that ended the
    attempt.  In no case does it call the object store client or change
    the store. *)
Theorem dump_db_failure_writes_nothing (w w' : World) (rc : Z) :
  Campaign.dump_db w = (Ok rc, w') ->
  rc <> Campaign.EX_OK ->
  rc = Campaign.EX_DUMP_FROM_DB_ERROR /\
  fs w' = fs w /\
  s3_calls w' = s3_calls w /\ s3_buckets w' = s3_buckets w /\
  exists e, last (trace w') = Some (EvLog (dump_db_failure_record e)).
Proof.
  unfold Campaign.dump_db, try_except. intros H Hrc.
  pose proof (dump_db_body_raise w w (conj eq_refl (conj eq_refl eq_refl))) as Hb.
  match type of H with
  | context [match ?c w with _ => _ end] => destruct (c w) as [[rc'|e] w1]
  end.
  - injection H as <- <-. done.
  - injection H as <- <-. destruct Hb as (Hf & Hc & Hs).
    cbn [fs s3_calls s3_buckets with_event trace].
    repeat split; try done.
    exists e. by rewrite last_snoc.
Qed.

Lemma dump_db_failure_writes_nothing_witness :
  exists w',
    Campaign.dump_db Scenario.world_http_500 =
      (Ok Campaign.EX_DUMP_FROM_DB_ERROR, w') /\
    fs w' = fs Scenario.world_http_500 /\
    last (trace w') = Some (EvLog (dump_db_failure_record (HTTPError 500))).
Proof.
  pose (w' := snd (Campaign.dump_db Scenario.world_http_500)).
  destruct (dump_db_failure_writes_nothing Scenario.world_http_500 w'
              Campaign.EX_DUMP_FROM_DB_ERROR)
    as (_ & Hf & _ & _ & _); [vm_compute; reflexivity|discriminate|].
  exists w'. split; [vm_compute; reflexivity|]. split; [exact Hf|].
  vm_compute. reflexivity.
Defined.

(** X4.  When the reply of the results API is an exception of the
    transport, a status from 400 to 599, a body that is not JSON, a
    JSON value that is not an object, or an object without the member
    results, [dump_db] returns EX_DUMP_FROM_DB_ERROR; the exception it
    logs is the one of the first of these failures, and no file is
    written. *)
Theorem dump_db_reply_failure (w : World) (e : exn) :
  reply_failure
    (http_get w (Campaign.request_url (environ w !! "TEST_DB_URL")
                                      (environ w !! "BUILD_TAG"))) = Some e ->
  exists w',
    Campaign.dump_db w = (Ok Campaign.EX_DUMP_FROM_DB_ERROR, w') /\
    last (trace w') = Some (EvLog (dump_db_failure_record e)) /\
    fs w' = fs w.
Proof.
  intros Hf.
  set (url := Campaign.request_url (environ w !! "TEST_DB_URL")
                                   (environ w !! "BUILD_TAG")) in *.
  assert (Hbody : exists w1,
    (let* url := env_get "TEST_DB_URL" in
     let* build_tag := env_get "BUILD_TAG" in
     let* req := requests_get (Campaign.request_url url build_tag) in
     raise_for_status req ;;
     let* output := response_json req in
     logger DEBUG ("data from DB: " +:+ nl +:+ "%s") [ArgJson output] ;;
     let* output := Campaign.rewrite_links output in
     logger DEBUG ("data to archive: " +:+ nl +:+ "%s") [ArgJson output] ;;
     let* build_tag := env_get "BUILD_TAG" in
     dump_json_file (fmt build_tag +:+ ".json") output ;;
     ret Campaign.EX_OK) w = (Raise e, w1) /\ fs w1 = fs w).
  { erewrite bind_ok by reflexivity.
    erewrite bind_ok by reflexivity.
    destruct (http_get w url) as [e'|status body] eqn:Hget.
    - injection Hf as ->. eexists. split.
      + apply bind_raise. apply requests_get_failed. exact Hget.
      + done.
    - erewrite bind_ok by (apply requests_get_response; exact Hget).
      cbn [reply_failure] in Hf.
      destruct ((400 <=? status)%Z && (status <? 600)%Z) eqn:Hst.
      { injection Hf as <-. eexists. split.
        - apply bind_raise. by apply raise_for_status_raise.
        - done. }
      erewrite bind_ok.
      2:{ unfold raise_for_status. cbn [fst]. by rewrite Hst. }
      destruct body as [doc|].
      2:{ injection Hf as <-. eexists. split; [by apply bind_raise|done]. }
      erewrite bind_ok by reflexivity.
      erewrite bind_ok by reflexivity.
      eexists. split.
      { apply bind_raise.
        unfold Campaign.rewrite_links. apply bind_raise.
        cbn [get_path]. apply bind_raise.
        destruct doc as [| | | | |ms]; try (by injection Hf as <-).
        cbn [getitem]. destruct (assoc "results" ms); [done|].
        by injection Hf as <-. }
      done. }
  destruct Hbody as (w1 & Hb & Hfs).
  eexists. split; [|split].
  - unfold Campaign.dump_db. erewrite try_except_raise by exact Hb. reflexivity.
  - cbn [trace with_event]. by rewrite last_snoc.
  - exact Hfs.
Qed.

Lemma dump_db_reply_failure_witness :
  exists w',
    Campaign.dump_db
      (Scenario.with_http
         (fun _ => HttpResponse 200 (Some (JObject [("total", JNumber "0")])))
         Scenario.world) =
      (Ok Campaign.EX_DUMP_FROM_DB_ERROR, w') /\
    last (trace w') =
      Some (EvLog (dump_db_failure_record (KeyError "results"))) /\
    fs w' = Fs.Dir [].
Proof.
  apply (dump_db_reply_failure
           (Scenario.with_http
              (fun _ => HttpResponse 200 (Some (JObject [("total", JNumber "0")])))
              Scenario.world)
           (KeyError "results")).
  reflexivity.
Defined.

(** ** The loop of [dump_artifacts] (lines 129-145) *)

Section FailedRound.

Variable t0 : Fs.node.

Local Abbreviation same_files :=
  (fun w : World => forall q, Fs.read (fs w) q = Fs.read t0 q).

Lemma same_files_event (w : World) (e : event) :
  True -> same_files w -> same_files (with_event e w).
Proof. done. Qed.

Lemma same_files_call (w : World) : same_files w -> same_files (with_call w).
Proof. done. Qed.

Lemma os_makedirs_same_files p : spec same_files (os_makedirs p) (fun _ => True).
Proof.
  intros w Hw. split; [|done]. unfold os_makedirs.
  destruct (Fs.components p) as [cs|]; [|done].
  destruct (Fs.makedirs (fs w) cs) as [t|] eqn:E; [|done].
  intros q. cbn. by rewrite (read_makedirs _ _ _ q E).
Qed.

(** A download that fails changes no file. *)
Lemma download_file_failure bucket key filename threshold :
  hoare same_files (download_file bucket key filename threshold)
    (fun _ _ => True) (fun _ w => same_files w).
Proof.
  unfold download_file.
  apply hoare_step; [|done|intros _].
  { apply spec_emit with (good := fun _ => True); [apply same_files_event|done]. }
  apply hoare_step; [|done|intros _].
  { apply spec_client_call. apply same_files_call. }
  apply hoare_step; [apply spec_get_world|done|intros w].
  destruct (s3_buckets w !! bucket) as [objs|]; [|by intros w' Hw'].
  destruct (List.find _ objs) as [o|]; [|by intros w' Hw'].
  intros w' Hw'. destruct (write_file _ _ w') as [[[]|e] w''] eqn:E; [done|].
  by rewrite (write_file_raise _ _ _ _ _ E).
Qed.

(** A round of the loop that fails changes no file: it may have created
    directories. *)
Lemma dump_object_failure bucket s3path tconfig o :
  hoare same_files (Campaign.dump_object bucket s3path tconfig o)
    (fun _ _ => True) (fun _ w => same_files w).
Proof.
  unfold Campaign.dump_object. destruct (OsPath.split _) as [path tail].
  apply hoare_step; [apply spec_re_sub|done|intros lpath].
  apply hoare_step; [|done|intros _].
  { destruct (negb _); [|by apply spec_ret].
    eapply spec_bind; [apply spec_os_path_exists|]. intros present _.
    destruct (negb present); [apply os_makedirs_same_files|by apply spec_ret]. }
  apply hoare_step; [apply spec_re_sub|done|intros shown].
  apply hoare_step; [|done|intros _].
  { apply spec_logger with (good := fun _ => True); [apply same_files_event|done]. }
  apply hoare_step; [apply spec_re_sub|done|intros filename].
  apply download_file_failure.
Qed.

End FailedRound.

(** The record the handler of [dump_artifacts] logs (line 148). *)
Lemma dump_artifacts_handler e w :
  (logger_exception "Cannot publish the artifacts" e ;;
   ret Campaign.EX_DUMP_ARTIFACTS_ERROR) w =
  (Ok Campaign.EX_DUMP_ARTIFACTS_ERROR,
   with_event (EvLog (dump_artifacts_failure_record e)) w).
Proof. reflexivity. Qed.

(** X5.  [dump_artifacts] stops at the first object whose round fails:
    the objects listed after it are not tried, the exception of the
    failed round is logged, and the code is EX_DUMP_ARTIFACTS_ERROR.
    Nothing is cleaned up: every file is as the rounds before the failed
    one left it. *)
Theorem dump_artifacts_stops_at_failure (w w1 w2 w3 : World)
    (bucket s3path : string) (tconfig : Z)
    (before after : list s3_object) (o : s3_object) (e : exn) :
  Campaign.list_artifacts w =
    (Ok (bucket, s3path, tconfig, before ++ o :: after), w1) ->
  for_each before (Campaign.dump_object bucket s3path tconfig) w1 = (Ok tt, w2) ->
  Campaign.dump_object bucket s3path tconfig o w2 = (Raise e, w3) ->
  Campaign.dump_artifacts w =
    (Ok Campaign.EX_DUMP_ARTIFACTS_ERROR,
     with_event (EvLog (dump_artifacts_failure_record e)) w3) /\
  forall q, Fs.read (fs w3) q = Fs.read (fs w2) q.
Proof.
  intros Hl Hb Ho. split.
  - unfold Campaign.dump_artifacts.
    rewrite (try_except_raise _ _ w e w3); [apply dump_artifacts_handler|].
    erewrite bind_ok by exact Hl. cbn beta iota.
    apply bind_raise. rewrite (for_each_app _ _ _ _ _ Hb).
    cbn [for_each]. by apply bind_raise.
  - pose proof (dump_object_failure (fs w2) bucket s3path tconfig o w2
                  (fun q => eq_refl)) as H.
    by rewrite Ho in H.
Qed.

Lemma dump_artifacts_stops_at_failure_witness :
  exists w3,
    Campaign.dump_artifacts
      (Scenario.with_fault (fun n => if Nat.eqb n 3 then Some (ClientError "500") else None)
         (with_buckets
            {[ "bucket" :=
                 [Scenario.object "prefix/build42/a.txt" "A";
                  Scenario.object "prefix/build42/b.txt" "B";
                  Scenario.object "prefix/build42/c.txt" "C"] ]} Scenario.world)) =
      (Ok Campaign.EX_DUMP_ARTIFACTS_ERROR,
       with_event (EvLog (dump_artifacts_failure_record (ClientError "500"))) w3) /\
    Fs.read (fs w3) ["build42"; "a.txt"] = Some (Bytes "A") /\
    Fs.read (fs w3) ["build42"; "b.txt"] = None /\
    Fs.read (fs w3) ["build42"; "c.txt"] = None.
Proof.
  pose (w := Scenario.with_fault
               (fun n => if Nat.eqb n 3 then Some (ClientError "500") else None)
               (with_buckets
                  {[ "bucket" :=
                       [Scenario.object "prefix/build42/a.txt" "A";
                        Scenario.object "prefix/build42/b.txt" "B";
                        Scenario.object "prefix/build42/c.txt" "C"] ]} Scenario.world)).
  pose (w1 := snd (Campaign.list_artifacts w)).
  pose (w2 := snd (Campaign.dump_object "bucket" "prefix" 8388608
                     (Scenario.object "prefix/build42/a.txt" "A") w1)).
  pose (w3 := snd (Campaign.dump_object "bucket" "prefix" 8388608
                     (Scenario.object "prefix/build42/b.txt" "B") w2)).
  destruct (dump_artifacts_stops_at_failure w w1 w2 w3 "bucket" "prefix" 8388608
              [Scenario.object "prefix/build42/a.txt" "A"]
              [Scenario.object "prefix/build42/c.txt" "C"]
              (Scenario.object "prefix/build42/b.txt" "B")
              (ClientError "500")) as [H _]; try (vm_compute; reflexivity).
  exists w3. split; [exact H|]. repeat split; vm_compute; reflexivity.
Defined.

(** ** Keys that name no file, and the decoding of keys (lines 131-145) *)

Lemma for_each_ok_in {A} (l : list A) (body : A -> M unit) w w' x :
  for_each l body w = (Ok tt, w') -> In x l ->
  exists wa wb, body x wa = (Ok tt, wb).
Proof.
  revert w. induction l as [|y l IH]; intros w H Hin; [done|].
  cbn [for_each] in H. apply bind_ok_inv in H as ([] & w1 & Hy & H).
  destruct Hin as [->|Hin]; [by exists w, w1|]. by apply (IH w1).
Qed.

Lemma endswith_drop c s n :
  Str.endswith_char c s = true ->
  Str.drop n s = "" \/ Str.endswith_char c (Str.drop n s) = true.
Proof.
  revert n. induction s as [|a s IH]; intros n H; [done|].
  destruct n as [|n]; [by right|]. cbn [Str.drop].
  destruct s as [|b s]; [left; by destruct n|].
  apply IH. exact H.
Qed.

Lemma endswith_lstrip_end c s :
  Str.endswith_char c s = true ->
  Str.lstrip c s = "" \/ Str.endswith_char c (Str.lstrip c s) = true.
Proof.
  induction s as [|a s IH]; [done|]. intros H. cbn [Str.lstrip].
  destruct (Ascii.eqb a c); [|by right].
  destruct s as [|b s]; [by left|]. by apply IH.
Qed.

Lemma write_file_name p c w w' :
  write_file p c w = (Ok tt, w') ->
  p <> "" /\ Str.endswith_char Str.slash p = false.
Proof.
  unfold write_file. destruct (Str.endswith_char _ _); [done|].
  intros H. split; [|done]. intros ->. by cbn in H.
Qed.

Lemma download_file_name bucket key filename t w w' :
  download_file bucket key filename t w = (Ok tt, w') ->
  filename <> "" /\ Str.endswith_char Str.slash filename = false.
Proof.
  unfold download_file. intros H.
  apply bind_ok_inv in H as ([] & w1 & _ & H).
  apply bind_ok_inv in H as ([] & w2 & _ & H).
  apply bind_ok_inv in H as (w3 & w4 & H3 & H). injection H3 as <- <-.
  destruct (s3_buckets w2 !! bucket) as [objs|]; [|done].
  destruct (List.find _ objs) as [o|]; [|done].
  by apply write_file_name in H.
Qed.

(** For a destination path of plain characters, the key decoded from an
    object whose round succeeds does not end with a slash: the file
    name of line 143 is the key, or the key without the path and the
    slashes after it. *)
Lemma dump_object_key bucket s3path tconfig o w w' :
  Str.all plain_char s3path = true ->
  Campaign.dump_object bucket s3path tconfig o w = (Ok tt, w') ->
  Str.endswith_char Str.slash (Urllib.unquote_plus (obj_listed o)) = false.
Proof.
  intros Hplain.
  unfold Campaign.dump_object. destruct (OsPath.split _) as [path tail].
  intros H.
  apply bind_ok_inv in H as (lpath & w1 & _ & H).
  apply bind_ok_inv in H as ([] & w2 & _ & H).
  apply bind_ok_inv in H as (shown & w3 & _ & H).
  apply bind_ok_inv in H as ([] & w4 & _ & H).
  apply bind_ok_inv in H as (filename & w5 & H5 & H).
  apply re_sub_ok in H5 as [Hname ->].
  apply download_file_name in H as [Hne Hend].
  rewrite (strip_plain_prefix _ _ Hplain) in Hname. injection Hname as <-.
  destruct (Str.endswith_char Str.slash (Urllib.unquote_plus (obj_listed o)))
    eqn:E; [|done].
  unfold Str.slash in *.
  destruct (Str.startswith s3path (Urllib.unquote_plus (obj_listed o)));
    [|by rewrite E in Hend].
  destruct (endswith_drop _ _ (String.length s3path) E) as [H0|H1].
  - by rewrite H0 in Hne.
  - destruct (endswith_lstrip_end _ _ H1) as [H2|H2].
    + by rewrite H2 in Hne.
    + by rewrite H2 in Hend.
Qed.

(** X6.  For a destination path without characters special in a
    pattern, a listed object whose decoded key ends with a slash (the
    marker of a folder) makes [dump_artifacts] fail: the file name line
    143 computes for it is empty or ends with a slash, and names no
    file to download to. *)
Theorem dump_artifacts_folder_marker (w w1 : World) (bucket s3path : string)
    (tconfig : Z) (objects : list s3_object) (o : s3_object) :
  Campaign.list_artifacts w = (Ok (bucket, s3path, tconfig, objects), w1) ->
  Str.all plain_char s3path = true ->
  In o objects ->
  Str.endswith_char Str.slash (Urllib.unquote_plus (obj_listed o)) = true ->
  fst (Campaign.dump_artifacts w) = Ok Campaign.EX_DUMP_ARTIFACTS_ERROR.
Proof.
  intros Hl Hplain Hin Hend.
  destruct (dump_artifacts_returns w) as (rc & Hrc & [->| ->]); [|done].
  destruct (Campaign.dump_artifacts w) as [r w'] eqn:Hda. cbn in Hrc. subst r.
  pose proof (dump_artifacts_ok _ _ _ _ _ _ _ Hl Hda) as Hloop.
  destruct (for_each_ok_in _ _ _ _ o Hloop Hin) as (wa & wb & Ho).
  apply (dump_object_key _ _ _ _ _ _ Hplain) in Ho. congruence.
Qed.

Lemma dump_artifacts_folder_marker_witness :
  fst (Campaign.dump_artifacts
         (with_buckets
            {[ "bucket" :=
                 [Scenario.object "prefix/build42/logs/" "";
                  Scenario.object "prefix/build42/logs/a.txt" "A"] ]}
            Scenario.world)) =
  Ok Campaign.EX_DUMP_ARTIFACTS_ERROR.
Proof.
  pose (w := with_buckets
               {[ "bucket" :=
                    [Scenario.object "prefix/build42/logs/" "";
                     Scenario.object "prefix/build42/logs/a.txt" "A"] ]}
               Scenario.world).
  apply (dump_artifacts_folder_marker w (snd (Campaign.list_artifacts w))
           "bucket" "prefix" 8388608
           [Scenario.object "prefix/build42/logs/" "";
            Scenario.object "prefix/build42/logs/a.txt" "A"]
           (Scenario.object "prefix/build42/logs/" "")).
  - vm_compute. reflexivity.
  - reflexivity.
  - by left.
  - reflexivity.
Defined.

Section Decoding.

Implicit Types (s k : string).

Lemma plus_to_space_length s :
  String.length (Urllib.plus_to_space s) = String.length s.
Proof. induction s as [|c s IH]; [done|]. cbn. by rewrite IH. Qed.

Lemma plus_to_space_id s :
  Str.mem "+" s = false -> Urllib.plus_to_space s = s.
Proof.
  induction s as [|c s IH]; [done|]. cbn [Str.mem Urllib.plus_to_space].
  intros H. apply orb_false_iff in H as [Hc Hs]. rewrite (IH Hs).
  by rewrite Hc.
Qed.

Lemma plus_to_space_changes s :
  Str.mem "+" s = true -> Urllib.plus_to_space s <> s.
Proof.
  induction s as [|c s IH]; [done|]. cbn [Str.mem Urllib.plus_to_space].
  intros H [= Hc Hs]. apply orb_true_iff in H as [H|H]; [|by apply IH].
  rewrite H in Hc. subst c. discriminate H.
Qed.

Lemma unquote_id s : Str.mem "%" s = false -> Urllib.unquote s = s.
Proof.
  induction s as [|c s IH]; [done|]. cbn [Str.mem]. intros H.
  apply orb_false_iff in H as [Hc Hs]. cbn [Urllib.unquote].
  rewrite (IH Hs). destruct s as [|h [|l rest]]; try done.
  by rewrite Hc.
Qed.

(** Decoding never lengthens, and keeps the length only when it changes
    nothing. *)
Lemma unquote_length n s :
  String.length s <= n ->
  String.length (Urllib.unquote s) <= String.length s /\
  (String.length (Urllib.unquote s) = String.length s -> Urllib.unquote s = s).
Proof.
  revert s. induction n as [|n IH]; intros s Hn.
  - destruct s; [done|]. cbn in Hn. lia.
  - destruct s as [|c s]; [done|].
    cbn [String.length] in Hn.
    assert (Hs : String.length s <= n) by lia.
    destruct (IH s Hs) as [Hle Heq].
    cbn [Urllib.unquote].
    destruct s as [|h [|l rest]].
    + done.
    + split; [done|]. intros _. by rewrite (Heq eq_refl).
    + destruct (Ascii.eqb c "%" && Urllib.is_hex h && Urllib.is_hex l).
      * assert (Hr : String.length rest <= n) by (cbn in Hs; lia).
        destruct (IH rest Hr) as [Hle' _]. cbn [String.length] in *.
        split; lia.
      * cbn [String.length] in *. split; [lia|].
        intros H. rewrite Heq; [done|]. lia.
Qed.

(** A key without a plus sign and without a percent sign is its own
    decoding; a key with a plus sign is not. *)
Lemma unquote_plus_id k :
  Str.mem "+" k = false -> Str.mem "%" k = false -> Urllib.unquote_plus k = k.
Proof.
  intros Hp Hq. unfold Urllib.unquote_plus.
  rewrite (plus_to_space_id _ Hp). by apply unquote_id.
Qed.

Lemma unquote_plus_changes k :
  Str.mem "+" k = true -> Urllib.unquote_plus k <> k.
Proof.
  intros Hp Heq. unfold Urllib.unquote_plus in Heq.
  destruct (unquote_length _ (Urllib.plus_to_space k) (Nat.le_refl _)) as [_ H].
  apply (plus_to_space_changes k Hp). rewrite <- H; [exact Heq|].
  by rewrite Heq, plus_to_space_length.
Qed.

End Decoding.

Lemma find_key (objs : list s3_object) key obj :
  List.find (fun o => String.eqb (obj_key o) key) objs = Some obj ->
  obj_key obj = key.
Proof.
  intros H. apply find_some in H as [_ H]. by apply String.eqb_eq.
Qed.

(** X7.  The object a round of the loop downloads is the one stored
    under the decoded key of the listed object.  For a listed key
    without a plus sign and without a percent sign that is the listed
    key itself; for a listed key with a plus sign the key requested
    differs from the key listed. *)
Theorem dump_object_decoded_key (w w' : World) (bucket s3path : string)
    (tconfig : Z) (o : s3_object) :
  Campaign.dump_object bucket s3path tconfig o w = (Ok tt, w') ->
  exists p obj,
    stored w bucket (Urllib.unquote_plus (obj_listed o)) = Some obj /\
    obj_key obj = Urllib.unquote_plus (obj_listed o) /\
    files_updated w w' p (obj_body obj) /\
    (Str.mem "+" (obj_listed o) = false -> Str.mem "%" (obj_listed o) = false ->
     obj_key obj = obj_listed o) /\
    (Str.mem "+" (obj_listed o) = true -> obj_key obj <> obj_listed o).
Proof.
  intros H.
  apply dump_object_ok in H as (p & obj & _ & Hst & _ & Hf).
  exists p, obj.
  assert (Hk : obj_key obj = Urllib.unquote_plus (obj_listed o)).
  { unfold stored in Hst. destruct (s3_buckets w !! bucket); [|done].
    by apply find_key in Hst. }
  repeat split; try done.
  - intros Hp Hq. rewrite Hk. by apply unquote_plus_id.
  - intros Hp. rewrite Hk. by apply unquote_plus_changes.
Qed.

Lemma dump_object_decoded_key_witness :
  exists w' obj,
    Campaign.dump_object "bucket" "prefix" 8388608
      {| obj_key := "prefix/build42/a+b.txt"; obj_listed := "prefix/build42/a+b.txt";
         obj_body := Bytes "PLUS" |}
      (with_buckets
         {[ "bucket" :=
              [{| obj_key := "prefix/build42/a+b.txt";
                  obj_listed := "prefix/build42/a+b.txt";
                  obj_body := Bytes "PLUS" |};
               {| obj_key := "prefix/build42/a b.txt";
                  obj_listed := "prefix/build42/a b.txt";
                  obj_body := Bytes "SPACE" |}] ]} Scenario.world) = (Ok tt, w') /\
    obj_key obj = "prefix/build42/a b.txt" /\
    obj_body obj = Bytes "SPACE" /\
    Fs.read (fs w') ["build42"; "a b.txt"] = Some (obj_body obj).
Proof.
  pose (o := {| obj_key := "prefix/build42/a+b.txt";
                obj_listed := "prefix/build42/a+b.txt";
                obj_body := Bytes "PLUS" |}).
  pose (w := with_buckets
               {[ "bucket" :=
                    [o;
                     {| obj_key := "prefix/build42/a b.txt";
                        obj_listed := "prefix/build42/a b.txt";
                        obj_body := Bytes "SPACE" |}] ]} Scenario.world).
  pose (w' := snd (Campaign.dump_object "bucket" "prefix" 8388608 o w)).
  destruct (dump_object_decoded_key w w' "bucket" "prefix" 8388608 o)
    as (p & obj & Hst & Hk & Hf & _ & _); [vm_compute; reflexivity|].
  exists w', obj. split; [vm_compute; reflexivity|].
  assert (Hobj : obj = {| obj_key := "prefix/build42/a b.txt";
                          obj_listed := "prefix/build42/a b.txt";
                          obj_body := Bytes "SPACE" |}).
  { vm_compute in Hst. by injection Hst as <-. }
  subst obj. repeat split.
Defined.

(** ** The publish step, step by step (lines 184-204) *)

Lemma os_environ_ok name w v w' :
  os_environ name w = (Ok v, w') -> environ w !! name = Some v /\ w' = w.
Proof.
  unfold os_environ. destruct (environ w !! name); [|done]. by intros [= <- <-].
Qed.

Lemma os_environ_raise name w e w' :
  os_environ name w = (Raise e, w') ->
  e = KeyError name /\ environ w !! name = None /\ w' = w.
Proof.
  unfold os_environ. destruct (environ w !! name); [done|]. by intros [= <- <-].
Qed.

Lemma client_call_raise w e w' :
  client_call w = (Raise e, w') -> s3_fault w (s3_calls w) = Some e.
Proof.
  unfold client_call. destruct (s3_fault w (s3_calls w)); [|done].
  by intros [= <- _].
Qed.

Lemma boto3_resource_ok endpoint_url w w' :
  boto3_resource endpoint_url w = (Ok tt, w') ->
  w' = with_call (with_event (EvResource endpoint_url) w).
Proof.
  unfold boto3_resource. intros H.
  apply bind_ok_inv in H as ([] & w1 & H1 & H). injection H1 as <-.
  by apply client_call_ok in H.
Qed.

Lemma boto3_resource_raise endpoint_url w e w' :
  boto3_resource endpoint_url w = (Raise e, w') ->
  s3_fault w (s3_calls w) = Some e.
Proof.
  unfold boto3_resource. intros H.
  apply bind_raise_inv in H as [H|([] & w1 & H1 & H)]; [done|].
  injection H1 as <-. by apply client_call_raise in H.
Qed.

Lemma urlparse_ok url w r w' :
  urlparse url w = (Ok r, w') -> Urllib.urlparse url = Some r /\ w' = w.
Proof.
  unfold urlparse, of_option. destruct (Urllib.urlparse url); [|done].
  by intros [= <- <-].
Qed.

Lemma urlparse_raise url w e w' :
  urlparse url w = (Raise e, w') -> e = ValueError.
Proof.
  unfold urlparse, of_option. destruct (Urllib.urlparse url); [done|].
  by intros [= <- _].
Qed.

(** An upload that succeeds stores the content of the file under the
    key, and changes nothing else in the store or in the file system. *)
Lemma upload_file_ok bucket filename key t ct w w' :
  upload_file bucket filename key t ct w = (Ok tt, w') ->
  exists cs c objs,
    Fs.components filename = Some cs /\
    Fs.read (fs w) cs = Some c /\
    s3_buckets w !! bucket = Some objs /\
    s3_buckets w' = <[bucket := put_object key c objs]> (s3_buckets w) /\
    fs w' = fs w /\ environ w' = environ w /\
    trace w' = trace w ++ [EvUploadFile bucket filename key t ct].
Proof.
  unfold upload_file. intros H.
  apply bind_ok_inv in H as ([] & w1 & H1 & H). injection H1 as <-.
  apply bind_ok_inv in H as (w2 & w3 & H2 & H). injection H2 as <- <-.
  destruct (Fs.components filename) as [cs|]; [|done].
  cbn [fs with_event] in H.
  destruct (Fs.read (fs w) cs) as [c|] eqn:Hr; [|done].
  apply bind_ok_inv in H as ([] & w4 & H4 & H).
  apply client_call_ok in H4 as ->.
  apply bind_ok_inv in H as (w5 & w6 & H5 & H). injection H5 as <- <-.
  cbn [s3_buckets with_call with_event] in H.
  destruct (s3_buckets w !! bucket) as [objs|] eqn:Hb; [|done].
  injection H as <-. by exists cs, c, objs.
Qed.

(** An upload raises an exception of the file system or of the client,
    and then leaves the store as it was. *)
Lemma upload_file_raise bucket filename key t ct w e w' :
  upload_file bucket filename key t ct w = (Raise e, w') ->
  (e = OSError \/ e = ClientError "NoSuchBucket" \/
   s3_fault w (s3_calls w) = Some e) /\
  s3_buckets w' = s3_buckets w.
Proof.
  unfold upload_file. intros H.
  apply bind_raise_inv in H as [H|([] & w1 & H1 & H)]; [done|].
  injection H1 as <-.
  apply bind_raise_inv in H as [H|(w2 & w3 & H2 & H)]; [done|].
  injection H2 as <- <-.
  destruct (Fs.components filename) as [cs|]; [|injection H as <- <-; by split; [left|]].
  destruct (Fs.read _ cs) as [c|]; [|injection H as <- <-; by split; [left|]].
  apply bind_raise_inv in H as [H|([] & w4 & H4 & H)].
  { split; [right; right; by apply client_call_raise in H|].
    unfold client_call in H. destruct (s3_fault _ _); [|done].
    by injection H as _ <-. }
  apply client_call_ok in H4 as ->.
  apply bind_raise_inv in H as [H|(w5 & w6 & H5 & H)]; [done|].
  injection H5 as <- <-.
  destruct (s3_buckets _ !! bucket); [done|]. injection H as <- <-.
  split; [right; by left|done].
Qed.

Section PutObject.

Implicit Types (key k : string) (c : content) (objs : list s3_object).

Lemma find_put_object key c objs :
  exists obj,
    List.find (fun o => String.eqb (obj_key o) key) (put_object key c objs) =
      Some obj /\
    obj_key obj = key /\ obj_body obj = c.
Proof.
  induction objs as [|o objs IH]; cbn [put_object].
  - eexists. cbn. rewrite String.eqb_refl. done.
  - destruct (String.eqb (obj_key o) key) eqn:E.
    + eexists. cbn. rewrite String.eqb_refl. done.
    + cbn [List.find]. by rewrite E.
Qed.

Lemma find_put_object_other key k c objs :
  k <> key ->
  List.find (fun o => String.eqb (obj_key o) k) (put_object key c objs) =
  List.find (fun o => String.eqb (obj_key o) k) objs.
Proof.
  intros Hk. assert (Hn : String.eqb key k = false).
  { apply String.eqb_neq. congruence. }
  induction objs as [|o objs IH]; cbn [put_object].
  - cbn. by rewrite Hn.
  - destruct (String.eqb_spec (obj_key o) key) as [E|E].
    + cbn [List.find obj_key]. by rewrite E, Hn.
    + cbn [List.find]. by rewrite IH.
Qed.

End PutObject.

(** The steps of [publish] when it returns. *)
Lemma publish_ok build_tag w rc w' :
  Campaign.publish build_tag w = (Ok rc, w') ->
  exists endpoint_url dst_s3_url url base ct wu,
    environ w !! "S3_ENDPOINT_URL" = Some endpoint_url /\
    environ w !! "S3_DST_URL" = Some dst_s3_url /\
    Urllib.urlparse dst_s3_url = Some url /\
    environ w !! "HTTP_DST_URL" = Some base /\
    upload_file (Urllib.netloc url) (archive_name build_tag)
      (upload_key url build_tag) (multipart_threshold_of endpoint_url) ct
      (with_call (with_event (EvResource endpoint_url) w)) = (Ok tt, wu) /\
    w' = with_event
           (EvLog (published_record (OsPath.join base (archive_name build_tag)))) wu.
Proof.
  unfold Campaign.publish. intros H.
  apply bind_ok_inv in H as (ep & w1 & H1 & H).
  apply os_environ_ok in H1 as [Hep ->].
  apply bind_ok_inv in H as ([] & w2 & H2 & H).
  apply boto3_resource_ok in H2 as ->.
  apply bind_ok_inv in H as (dst & w3 & H3 & H).
  apply os_environ_ok in H3 as [Hdst ->].
  apply bind_ok_inv in H as (ep' & w4 & H4 & H).
  apply os_environ_ok in H4 as [Hep' ->].
  cbn [environ with_call with_event] in Hdst, Hep'.
  assert (ep' = ep) as -> by congruence.
  apply bind_ok_inv in H as (url & w5 & H5 & H).
  apply urlparse_ok in H5 as [Hurl ->].
  apply bind_ok_inv in H as (mime & w6 & H6 & H). injection H6 as <- <-.
  apply bind_ok_inv in H as (url' & w7 & H7 & H).
  apply urlparse_ok in H7 as [Hurl' ->].
  assert (url' = url) as -> by congruence.
  apply bind_ok_inv in H as ([] & wu & Hu & H).
  apply bind_ok_inv in H as (base & w8 & H8 & H).
  apply os_environ_ok in H8 as [Hbase ->].
  apply bind_ok_inv in H as ([] & w9 & H9 & H). injection H9 as <-.
  injection H as _ <-.
  pose proof (upload_file_ok _ _ _ _ _ _ _ Hu) as (_ & _ & _ & _ & _ & _ & _ & _ & He & _).
  rewrite He in Hbase.
  eexists ep, dst, url, base, _, wu. by repeat split.
Qed.

(** The steps of [publish] when it raises a [KeyError] that does not
    come from the store client. *)
Lemma publish_key_error build_tag w key w' :
  client_faults w ->
  Campaign.publish build_tag w = (Raise (KeyError key), w') ->
  (key = "S3_ENDPOINT_URL" /\ environ w !! key = None) \/
  (key = "S3_DST_URL" /\ environ w !! key = None) \/
  (key = "HTTP_DST_URL" /\ environ w !! key = None /\
   exists endpoint_url dst_s3_url url ct,
     environ w !! "S3_DST_URL" = Some dst_s3_url /\
     Urllib.urlparse dst_s3_url = Some url /\
     upload_file (Urllib.netloc url) (archive_name build_tag)
       (upload_key url build_tag) (multipart_threshold_of endpoint_url) ct
       (with_call (with_event (EvResource endpoint_url) w)) = (Ok tt, w')).
Proof.
  intros Hfaults. unfold Campaign.publish. intros H.
  apply bind_raise_inv in H as [H|(ep & w1 & H1 & H)].
  { apply os_environ_raise in H as ([= ->] & Hn & _). by left. }
  apply os_environ_ok in H1 as [Hep ->].
  apply bind_raise_inv in H as [H|([] & w2 & H2 & H)].
  { apply boto3_resource_raise in H. by apply Hfaults in H. }
  apply boto3_resource_ok in H2 as ->.
  apply bind_raise_inv in H as [H|(dst & w3 & H3 & H)].
  { apply os_environ_raise in H as ([= ->] & Hn & _). right; by left. }
  apply os_environ_ok in H3 as [Hdst ->].
  apply bind_raise_inv in H as [H|(ep' & w4 & H4 & H)].
  { apply os_environ_raise in H as ([= ->] & Hn & _).
    cbn [environ with_call with_event] in Hn. congruence. }
  apply os_environ_ok in H4 as [Hep' ->].
  cbn [environ with_call with_event] in Hdst, Hep'.
  assert (ep' = ep) as -> by congruence.
  apply bind_raise_inv in H as [H|(url & w5 & H5 & H)].
  { by apply urlparse_raise in H. }
  apply urlparse_ok in H5 as [Hurl ->].
  apply bind_raise_inv in H as [H|(mime & w6 & H6 & H)]; [done|].
  injection H6 as <- <-.
  apply bind_raise_inv in H as [H|(url' & w7 & H7 & H)].
  { by apply urlparse_raise in H. }
  apply urlparse_ok in H7 as [Hurl' ->].
  assert (url' = url) as -> by congruence.
  apply bind_raise_inv in H as [H|([] & wu & Hu & H)].
  { apply upload_file_raise in H as [[H|[H|H]] _]; try done.
    cbn [s3_fault with_call with_event] in H. by apply Hfaults in H. }
  apply bind_raise_inv in H as [H|(base & w8 & H8 & H)].
  - apply os_environ_raise in H as ([= ->] & Hn & ->).
    pose proof (upload_file_ok _ _ _ _ _ _ _ Hu) as (_ & _ & _ & _ & _ & _ & _ & _ & He & _).
    rewrite He in Hn. right; right. split; [done|]. split; [done|].
    by eexists ep, dst, url, _.
  - apply bind_raise_inv in H as [H|([] & w9 & _ & H)]; done.
Qed.

(** ** [zip_campaign_files] as a whole (lines 174-215) *)

Section Oracles.

Variable w : World.

Local Abbreviation same_oracles :=
  (fun w' : World => environ w' = environ w /\ s3_fault w' = s3_fault w).

Lemma dump_db_keeps_oracles : same_oracles (snd (Campaign.dump_db w)).
Proof.
  apply (spec_dump_db (fun w' => environ w' = environ w /\ s3_fault w' = s3_fault w)
           (fun _ => True)); auto.
Qed.

Lemma dump_db_keeps_calls : s3_calls (snd (Campaign.dump_db w)) = s3_calls w.
Proof.
  apply (spec_dump_db (fun w' => s3_calls w' = s3_calls w) (fun _ => True)); auto.
Qed.

Lemma dump_artifacts_keeps_oracles : same_oracles (snd (Campaign.dump_artifacts w)).
Proof.
  apply (spec_dump_artifacts
           (fun w' => environ w' = environ w /\ s3_fault w' = s3_fault w)
           (fun _ => True) (fun _ => True)); auto.
  intros w' Hw'. split; [|done]. unfold os_environ. by destruct (_ !! _).
Qed.

Lemma build_archive_keeps_oracles build_tag :
  same_oracles (snd (Campaign.build_archive build_tag w)).
Proof.
  apply (spec_build_archive
           (fun w' => environ w' = environ w /\ s3_fault w' = s3_fault w)); auto.
Qed.

End Oracles.

Lemma assert_ok_ok rc w w' :
  Campaign.assert_ok rc w = (Ok tt, w') -> rc = Campaign.EX_OK /\ w' = w.
Proof.
  unfold Campaign.assert_ok. destruct (Z.eqb_spec rc Campaign.EX_OK); [|done].
  by intros [= <-].
Qed.

Lemma assert_ok_raise rc w e w' :
  Campaign.assert_ok rc w = (Raise e, w') -> e = AssertionError.
Proof.
  unfold Campaign.assert_ok. destruct (_ =? _)%Z; [done|]. by intros [= <- _].
Qed.

(** The stages of [zip_campaign_files] when all of them succeed. *)
Lemma zip_stages w w1 w2 w3 r w4 :
  Campaign.dump_db w = (Ok Campaign.EX_OK, w1) ->
  Campaign.dump_artifacts w1 = (Ok Campaign.EX_OK, w2) ->
  Campaign.build_archive (environ w !! "BUILD_TAG") w2 = (Ok tt, w3) ->
  Campaign.publish (environ w !! "BUILD_TAG") w3 = (r, w4) ->
  (let* build_tag := env_get "BUILD_TAG" in
   let* rc := Campaign.dump_db in
   Campaign.assert_ok rc ;;
   let* rc := Campaign.dump_artifacts in
   Campaign.assert_ok rc ;;
   Campaign.build_archive build_tag ;;
   Campaign.publish build_tag) w = (r, w4).
Proof.
  intros Hdb Hda Hzip Hpub.
  erewrite bind_ok by reflexivity.
  erewrite bind_ok by exact Hdb.
  erewrite bind_ok by reflexivity.
  erewrite bind_ok by exact Hda.
  erewrite bind_ok by reflexivity.
  erewrite bind_ok by exact Hzip.
  exact Hpub.
Qed.

(** When [zip_campaign_files] returns EX_OK, every stage succeeded. *)
Lemma zip_ok_stages w w' :
  Campaign.zip_campaign_files w = (Ok Campaign.EX_OK, w') ->
  exists w1 w2 w3,
    Campaign.dump_db w = (Ok Campaign.EX_OK, w1) /\
    Campaign.dump_artifacts w1 = (Ok Campaign.EX_OK, w2) /\
    Campaign.build_archive (environ w !! "BUILD_TAG") w2 = (Ok tt, w3) /\
    Campaign.publish (environ w !! "BUILD_TAG") w3 = (Ok Campaign.EX_OK, w').
Proof.
  unfold Campaign.zip_campaign_files, try_except.
  match goal with
  | |- context [match ?c w with _ => _ end] => destruct (c w) as [[rc|e] wb] eqn:E
  end.
  - intros [= -> ->].
    apply bind_ok_inv in E as (bt & wa & Ha & E). injection Ha as <- <-.
    apply bind_ok_inv in E as (rc1 & w1 & Hdb & E).
    apply bind_ok_inv in E as ([] & w1' & Ha1 & E).
    apply assert_ok_ok in Ha1 as [-> ->].
    apply bind_ok_inv in E as (rc2 & w2 & Hda & E).
    apply bind_ok_inv in E as ([] & w2' & Ha2 & E).
    apply assert_ok_ok in Ha2 as [-> ->].
    apply bind_ok_inv in E as ([] & w3 & Hzip & E).
    by exists w1, w2, w3.
  - destruct (zip_handler_code e wb) as [w'' ->]. discriminate.
Qed.

(** When [dump_artifacts] returns EX_OK, the two settings of the store
    were found in the environment. *)
Lemma dump_artifacts_settings w w' :
  Campaign.dump_artifacts w = (Ok Campaign.EX_OK, w') ->
  is_Some (environ w !! "S3_ENDPOINT_URL") /\ is_Some (environ w !! "S3_DST_URL").
Proof.
  unfold Campaign.dump_artifacts, try_except.
  destruct (Campaign.list_artifacts w) as [[r|e] wl] eqn:El.
  - intros _. unfold Campaign.list_artifacts in El.
    apply bind_ok_inv in El as (bt & wa & Ha & El). injection Ha as <- <-.
    apply bind_ok_inv in El as (ep & w1 & H1 & El).
    apply os_environ_ok in H1 as [Hep ->].
    apply bind_ok_inv in El as ([] & w2 & H2 & El).
    apply boto3_resource_ok in H2 as ->.
    apply bind_ok_inv in El as (dst & w3 & H3 & El).
    apply os_environ_ok in H3 as [Hdst ->].
    cbn [environ with_call with_event] in Hdst. by split; eexists.
  - erewrite bind_raise by exact El. discriminate.
Qed.

(** X8.  When S3_ENDPOINT_URL is not set, or S3_DST_URL is not set while
    the client can be made, and [dump_db] succeeds, the missing variable
    is found by [dump_artifacts], which logs the [KeyError] and returns
    its code; [zip_campaign_files] then fails on its assertion, logs an
    [AssertionError] and returns EX_ZIP_CAMPAIGN_FILES_ERROR.  The
    record that names the variable to check (line 206) is not logged. *)
Theorem missing_store_setting (w w1 : World) :
  Campaign.dump_db w = (Ok Campaign.EX_OK, w1) ->
  (environ w !! "S3_ENDPOINT_URL" = None ->
   Campaign.zip_campaign_files w =
     (Ok Campaign.EX_ZIP_CAMPAIGN_FILES_ERROR,
      with_event (EvLog (zip_failure_record AssertionError))
        (with_event
           (EvLog (dump_artifacts_failure_record (KeyError "S3_ENDPOINT_URL")))
           w1))) /\
  (forall endpoint_url,
     environ w !! "S3_ENDPOINT_URL" = Some endpoint_url ->
     environ w !! "S3_DST_URL" = None ->
     s3_fault w (s3_calls w) = None ->
     Campaign.zip_campaign_files w =
       (Ok Campaign.EX_ZIP_CAMPAIGN_FILES_ERROR,
        with_event (EvLog (zip_failure_record AssertionError))
          (with_event
             (EvLog (dump_artifacts_failure_record (KeyError "S3_DST_URL")))
             (with_call (with_event (EvResource endpoint_url) w1))))).
Proof.
  intros Hdb.
  pose proof (dump_db_keeps_oracles w) as [He Hf]. rewrite Hdb in He, Hf.
  pose proof (dump_db_keeps_calls w) as Hc. rewrite Hdb in Hc.
  cbn [snd] in He, Hf, Hc.
  split.
  - intros Hn.
    apply (zip_after_failed_dump_artifacts w w1 Campaign.EX_DUMP_ARTIFACTS_ERROR);
      [exact Hdb| |discriminate].
    unfold Campaign.dump_artifacts.
    rewrite (try_except_raise _ _ w1 (KeyError "S3_ENDPOINT_URL") w1);
      [reflexivity|].
    apply bind_raise. unfold Campaign.list_artifacts.
    erewrite bind_ok by reflexivity. apply bind_raise.
    unfold os_environ. by rewrite He, Hn.
  - intros ep Hep Hn Hfault.
    apply (zip_after_failed_dump_artifacts w w1 Campaign.EX_DUMP_ARTIFACTS_ERROR);
      [exact Hdb| |discriminate].
    unfold Campaign.dump_artifacts.
    rewrite (try_except_raise _ _ w1 (KeyError "S3_DST_URL")
               (with_call (with_event (EvResource ep) w1))); [reflexivity|].
    apply bind_raise. unfold Campaign.list_artifacts.
    erewrite bind_ok by reflexivity.
    erewrite bind_ok.
    2:{ unfold os_environ. by rewrite He, Hep. }
    erewrite bind_ok.
    2:{ unfold boto3_resource. erewrite bind_ok by reflexivity.
        unfold client_call. cbn [s3_fault s3_calls with_event].
        by rewrite Hf, Hc, Hfault. }
    apply bind_raise. unfold os_environ. cbn [environ with_call with_event].
    by rewrite He, Hn.
Qed.

Lemma missing_store_setting_witness :
  exists w1,
    Campaign.zip_campaign_files (unsetenv "S3_ENDPOINT_URL" Scenario.world) =
      (Ok Campaign.EX_ZIP_CAMPAIGN_FILES_ERROR,
       with_event (EvLog (zip_failure_record AssertionError))
         (with_event
            (EvLog (dump_artifacts_failure_record (KeyError "S3_ENDPOINT_URL")))
            w1)) /\
    s3_calls w1 = 0.
Proof.
  pose (w := unsetenv "S3_ENDPOINT_URL" Scenario.world).
  exists (snd (Campaign.dump_db w)).
  destruct (missing_store_setting w (snd (Campaign.dump_db w))) as [H _];
    [vm_compute; reflexivity|].
  split; [apply H|]; vm_compute; reflexivity.
Defined.

(** The archive the upload stored is the one [build_archive] left. *)
Lemma uploaded_archive build_tag bucket key t ct w3 wc wu :
  Campaign.build_archive build_tag w3 = (Ok tt, wc) ->
  forall e,
  upload_file bucket (archive_name build_tag) key t ct
    (with_call (with_event e wc)) = (Ok tt, wu) ->
  exists cs members obj,
    Fs.components (archive_name build_tag) = Some cs /\
    Fs.read (fs wu) cs = Some (ZipArchive ZIP_DEFLATED members) /\
    stored wu bucket key = Some obj /\
    obj_key obj = key /\
    obj_body obj = ZipArchive ZIP_DEFLATED members /\
    environ wu = environ wc.
Proof.
  intros Hzip e Hu.
  destruct (build_archive_archive _ _ _ Hzip) as (cs & ms & Hcs & Hr).
  apply upload_file_ok in Hu as (cs' & c & objs & Hcs' & Hr' & Hb & Hs & Hf & He & _).
  unfold archive_name in Hcs'. rewrite Hcs in Hcs'. injection Hcs' as <-.
  cbn [fs with_call with_event] in Hr', Hf. rewrite Hr in Hr'. injection Hr' as <-.
  destruct (find_put_object key (ZipArchive ZIP_DEFLATED ms) objs)
    as (obj & Hfind & Hk & Hbody).
  exists cs, ms, obj. repeat split; try done.
  - by rewrite Hf.
  - unfold stored. by rewrite Hs, lookup_insert_eq.
Qed.

(** X9.  Let the store client raise no [KeyError], and let [dump_db],
    [dump_artifacts] and the archive succeed.  When the publish step
    then raises a [KeyError], the variable it names is HTTP_DST_URL:
    the two settings of the store were read by [dump_artifacts] before.
    The variable is read after the upload (line 200), so the archive is
    in the store, under the key of line 196, although
    [zip_campaign_files] logs the variable to check and returns
    EX_ZIP_CAMPAIGN_FILES_ERROR. *)
Theorem key_error_after_upload (w w1 w2 w3 w4 : World) (key : string) :
  client_faults w ->
  Campaign.dump_db w = (Ok Campaign.EX_OK, w1) ->
  Campaign.dump_artifacts w1 = (Ok Campaign.EX_OK, w2) ->
  Campaign.build_archive (environ w !! "BUILD_TAG") w2 = (Ok tt, w3) ->
  Campaign.publish (environ w !! "BUILD_TAG") w3 = (Raise (KeyError key), w4) ->
  key = "HTTP_DST_URL" /\
  environ w !! "HTTP_DST_URL" = None /\
  Campaign.zip_campaign_files w =
    (Ok Campaign.EX_ZIP_CAMPAIGN_FILES_ERROR,
     with_event (EvLog (env_var_record "HTTP_DST_URL")) w4) /\
  exists dst_s3_url url cs members obj,
    environ w !! "S3_DST_URL" = Some dst_s3_url /\
    Urllib.urlparse dst_s3_url = Some url /\
    Fs.components (archive_name (environ w !! "BUILD_TAG")) = Some cs /\
    Fs.read (fs w4) cs = Some (ZipArchive ZIP_DEFLATED members) /\
    stored w4 (Urllib.netloc url) (upload_key url (environ w !! "BUILD_TAG")) =
      Some obj /\
    obj_body obj = ZipArchive ZIP_DEFLATED members.
Proof.
  intros Hfaults Hdb Hda Hzip Hpub.
  pose proof (dump_db_keeps_oracles w) as [He1 Hf1]. rewrite Hdb in He1, Hf1.
  pose proof (dump_artifacts_keeps_oracles w1) as [He2 Hf2]. rewrite Hda in He2, Hf2.
  pose proof (build_archive_keeps_oracles w2 (environ w !! "BUILD_TAG")) as [He3 Hf3].
  rewrite Hzip in He3, Hf3. cbn [snd] in *.
  assert (He : environ w3 = environ w) by congruence.
  assert (Hf : client_faults w3).
  { intros n k. rewrite Hf3, Hf2, Hf1. apply Hfaults. }
  destruct (dump_artifacts_settings _ _ Hda) as [[ep Hep] [dst Hdst]].
  rewrite <- He2, <- He3 in Hep, Hdst.
  destruct (publish_key_error _ _ _ _ Hf Hpub)
    as [[-> Hn]|[[-> Hn]|(-> & Hn & ep' & dst' & url & ct & Hdst' & Hurl & Hu)]];
    [congruence|congruence|].
  split; [done|]. split; [by rewrite <- He|]. split.
  - unfold Campaign.zip_campaign_files.
    rewrite (try_except_raise _ _ w (KeyError "HTTP_DST_URL") w4); [reflexivity|].
    by apply (zip_stages w w1 w2 w3).
  - destruct (uploaded_archive _ _ _ _ _ _ _ _ Hzip _ Hu)
      as (cs & ms & obj & Hcs & Hr & Hst & _ & Hbody & _).
    rewrite He in Hdst'. by exists dst', url, cs, ms, obj.
Qed.

Lemma key_error_after_upload_witness :
  exists w4 obj,
    Campaign.zip_campaign_files (unsetenv "HTTP_DST_URL" Scenario.world) =
      (Ok Campaign.EX_ZIP_CAMPAIGN_FILES_ERROR,
       with_event (EvLog (env_var_record "HTTP_DST_URL")) w4) /\
    stored w4 "bucket" "prefix/build42.zip" = Some obj /\
    Fs.read (fs w4) ["build42.zip"] = Some (obj_body obj).
Proof.
  pose (w := unsetenv "HTTP_DST_URL" Scenario.world).
  pose (w1 := snd (Campaign.dump_db w)).
  pose (w2 := snd (Campaign.dump_artifacts w1)).
  pose (w3 := snd (Campaign.build_archive (environ w !! "BUILD_TAG") w2)).
  pose (w4 := snd (Campaign.publish (environ w !! "BUILD_TAG") w3)).
  destruct (key_error_after_upload w w1 w2 w3 w4 "HTTP_DST_URL")
    as (_ & _ & Hz & _); try (vm_compute; reflexivity).
  { intros n k. discriminate. }
  eexists w4, _. split; [exact Hz|]. split; vm_compute; reflexivity.
Defined.

(** X10.  When [zip_campaign_files] returns EX_OK, the archive named
    after BUILD_TAG exists in the working directory, and the store
    holds, in the bucket of S3_DST_URL and under the key made of the
    path of that URL without its leading and trailing slashes and the
    name of the archive, an object with the very content of the
    archive; the last record logged is the link made of HTTP_DST_URL
    and the name of the archive. *)
Theorem published_archive (w w' : World) :
  Campaign.zip_campaign_files w = (Ok Campaign.EX_OK, w') ->
  exists dst_s3_url url base cs members obj,
    environ w !! "S3_DST_URL" = Some dst_s3_url /\
    Urllib.urlparse dst_s3_url = Some url /\
    environ w !! "HTTP_DST_URL" = Some base /\
    Fs.components (archive_name (environ w !! "BUILD_TAG")) = Some cs /\
    Fs.read (fs w') cs = Some (ZipArchive ZIP_DEFLATED members) /\
    stored w' (Urllib.netloc url) (upload_key url (environ w !! "BUILD_TAG")) =
      Some obj /\
    obj_body obj = ZipArchive ZIP_DEFLATED members /\
    last (trace w') =
      Some (EvLog (published_record
                     (OsPath.join base (archive_name (environ w !! "BUILD_TAG"))))).
Proof.
  intros H.
  apply zip_ok_stages in H as (w1 & w2 & w3 & Hdb & Hda & Hzip & Hpub).
  pose proof (dump_db_keeps_oracles w) as [He1 _]. rewrite Hdb in He1.
  pose proof (dump_artifacts_keeps_oracles w1) as [He2 _]. rewrite Hda in He2.
  pose proof (build_archive_keeps_oracles w2 (environ w !! "BUILD_TAG")) as [He3 _].
  rewrite Hzip in He3. cbn [snd] in *.
  assert (He : environ w3 = environ w) by congruence.
  apply publish_ok in Hpub
    as (ep & dst & url & base & ct & wu & Hep & Hdst & Hurl & Hbase & Hu & ->).
  destruct (uploaded_archive _ _ _ _ _ _ _ _ Hzip _ Hu)
    as (cs & ms & obj & Hcs & Hr & Hst & _ & Hbody & _).
  rewrite He in Hdst, Hbase.
  exists dst, url, base, cs, ms, obj.
  repeat split; try done.
  cbn [trace with_event]. by rewrite last_snoc.
Qed.

Lemma published_archive_witness :
  exists w' obj,
    Campaign.zip_campaign_files Scenario.world = (Ok Campaign.EX_OK, w') /\
    stored w' "bucket" "prefix/build42.zip" = Some obj /\
    Fs.read (fs w') ["build42.zip"] = Some (obj_body obj) /\
    last (trace w') =
      Some (EvLog (published_record "http://internal/build42.zip")).
Proof.
  pose (w' := snd (Campaign.zip_campaign_files Scenario.world)).
  destruct (published_archive Scenario.world w')
    as (dst & url & base & cs & ms & obj & Hdst & Hurl & Hbase & Hcs & Hr & Hst
        & Hbody & Hlast); [vm_compute; reflexivity|].
  exists w', obj.
  injection Hdst as <-. injection Hbase as <-.
  vm_compute in Hurl. injection Hurl as <-.
  vm_compute in Hcs. injection Hcs as <-.
  split; [vm_compute; reflexivity|]. split; [exact Hst|].
  split; [by rewrite Hr, Hbody|exact Hlast].
Defined.

Lemma hoare_try_except {A} (c : M A) (h : exn -> M A) P Q X X' :
  hoare P c Q X -> (forall e, hoare (X e) (h e) Q X') ->
  hoare P (try_except c h) Q X'.
Proof.
  intros Hc Hh w Hw. specialize (Hc w Hw). unfold try_except.
  destruct (c w) as [[a|e] w1]; [done|]. by apply Hh.
Qed.

Section OneObject.

Variable buckets : gmap string (list s3_object).

(** The store is as it was, or differs by one object put into it. *)
Local Abbreviation one_put :=
  (fun w : World =>
     s3_buckets w = buckets \/
     exists bucket key c objs,
       buckets !! bucket = Some objs /\
       s3_buckets w = <[bucket := put_object key c objs]> buckets).

Local Abbreviation untouched := (fun w : World => s3_buckets w = buckets).

Lemma one_put_event (w : World) (e : event) :
  True -> one_put w -> one_put (with_event e w).
Proof. done. Qed.

Lemma upload_file_one_put bucket filename key t ct :
  hoare untouched (upload_file bucket filename key t ct)
    (fun _ w => one_put w) (fun _ w => one_put w).
Proof.
  intros w Hw.
  destruct (upload_file bucket filename key t ct w) as [[[]|e] w'] eqn:E.
  - apply upload_file_ok in E as (cs & c & objs & _ & _ & Hb & Hs & _).
    right. exists bucket, key, c, objs. by rewrite <- Hw.
  - left. apply upload_file_raise in E as [_ E]. congruence.
Qed.

Lemma publish_one_put build_tag :
  hoare untouched (Campaign.publish build_tag)
    (fun _ w => one_put w) (fun _ w => one_put w).
Proof.
  unfold Campaign.publish.
  apply hoare_step; [apply spec_os_environ|by left|intros endpoint_url].
  apply hoare_step; [|by left|intros _].
  { eapply spec_boto3_resource with (good := fun _ => True); auto. }
  apply hoare_step; [apply spec_os_environ|by left|intros dst_s3_url].
  apply hoare_step; [apply spec_os_environ|by left|intros endpoint_url'].
  apply hoare_step; [apply spec_urlparse|by left|intros url].
  apply hoare_step; [apply spec_mimetypes|by left|intros mime_type].
  apply hoare_step; [apply spec_urlparse|by left|intros url'].
  eapply hoare_bind; [apply upload_file_one_put|]. intros u.
  eapply hoare_conseq; [apply (hoare_of_spec _ one_put (fun _ => True))|..].
  - eapply spec_bind; [apply spec_os_environ|]. intros base _.
    eapply spec_bind; [|intros _ _; by apply spec_ret].
    apply spec_logger with (good := fun _ => True); [apply one_put_event|done].
  - done.
  - by intros a w [H _].
  - done.
Qed.

(** [zip_campaign_files] puts at most one object into the store. *)
Lemma zip_one_put :
  hoare untouched Campaign.zip_campaign_files
    (fun _ w => one_put w) (fun _ w => one_put w).
Proof.
  unfold Campaign.zip_campaign_files.
  apply hoare_try_except with (X := fun _ w => one_put w).
  - apply hoare_step; [apply spec_env_get|by left|intros build_tag].
    apply hoare_step; [|by left|intros rc].
    { apply spec_dump_db with (good := fun _ => True); auto. }
    apply hoare_step; [apply spec_assert_ok|by left|intros _].
    apply hoare_step; [|by left|intros rc'].
    { apply spec_dump_artifacts with (good := fun _ => True)
                                     (threshold_ok := fun _ => True); auto.
      intros w Hw. split; [|done]. unfold os_environ. by destruct (_ !! _). }
    apply hoare_step; [apply spec_assert_ok|by left|intros _].
    apply hoare_step; [|by left|intros _].
    { apply spec_build_archive; auto. }
    apply publish_one_put.
  - intros e w Hw. by destruct e.
Qed.

End OneObject.

(** X11.  Whatever happens, [zip_campaign_files] changes at most one
    object of the store: under every other key of every bucket the
    store holds afterwards what it held before. *)
Theorem zip_changes_one_object (w : World) :
  exists bucket key,
    forall b k, b <> bucket \/ k <> key ->
      stored (snd (Campaign.zip_campaign_files w)) b k = stored w b k.
Proof.
  pose proof (zip_one_put (s3_buckets w) w eq_refl) as H.
  destruct (Campaign.zip_campaign_files w) as [[rc|e] w'];
    cbn [snd]; (destruct H as [H|(bucket & key & c & objs & Hb & H)];
    [exists "", ""; intros b k _; unfold stored; by rewrite H|
     exists bucket, key; intros b k Hbk; unfold stored; rewrite H;
     destruct (decide (b = bucket)) as [->|Hne];
     [rewrite lookup_insert_eq, Hb; apply find_put_object_other;
      by destruct Hbk
     |by rewrite lookup_insert_ne]]).
Qed.

(** ** The key of the upload (lines 192 and 196) *)

Lemma startswith_lstrip c s :
  Str.startswith (String c "") (Str.lstrip c s) = false.
Proof.
  induction s as [|a s IH]; [done|]. cbn [Str.lstrip].
  destruct (Ascii.eqb a c) eqn:E; [exact IH|].
  cbn [Str.startswith]. by rewrite Ascii.eqb_sym, E.
Qed.

Lemma startswith_rstrip c s :
  Str.startswith (String c "") s = false ->
  Str.startswith (String c "") (Str.rstrip c s) = false.
Proof.
  destruct s as [|a s]; [done|]. cbn [Str.startswith Str.rstrip].
  destruct (Ascii.eqb c a) eqn:E; [done|]. intros _.
  destruct (Str.rstrip c s).
  - rewrite Ascii.eqb_sym, E. cbn. by rewrite E.
  - cbn. by rewrite E.
Qed.

(** X12.  When the name of the archive does not begin with a slash, the
    key of the upload is the path of S3_DST_URL without its leading and
    trailing slashes, one slash, and the name of the archive; for a
    path of slashes only, or no path, it is the name of the archive.
    The key never begins with a slash. *)
Theorem upload_key_shape (url : Urllib.ParseResult) (build_tag : option string) :
  Str.startswith "/" (archive_name build_tag) = false ->
  upload_key url build_tag =
    (if String.eqb (Str.strip Str.slash (Urllib.path url)) ""
     then archive_name build_tag
     else Str.strip Str.slash (Urllib.path url) +:+ "/" +:+ archive_name build_tag) /\
  Str.startswith "/" (upload_key url build_tag) = false.
Proof.
  intros Hname.
  assert (Hkey : upload_key url build_tag =
    (if String.eqb (Str.strip Str.slash (Urllib.path url)) ""
     then archive_name build_tag
     else Str.strip Str.slash (Urllib.path url) +:+ "/" +:+ archive_name build_tag)).
  { unfold upload_key, OsPath.join. rewrite Hname.
    destruct (String.eqb_spec (Str.strip Str.slash (Urllib.path url)) "") as [->|Hne].
    - done.
    - cbn [orb]. unfold Str.strip at 1. by rewrite endswith_rstrip. }
  split; [exact Hkey|]. rewrite Hkey.
  destruct (String.eqb_spec (Str.strip Str.slash (Urllib.path url)) "") as [_|Hne];
    [exact Hname|].
  pose proof (startswith_rstrip Str.slash _
                (startswith_lstrip Str.slash (Urllib.path url))) as Hs.
  fold (Str.strip Str.slash (Urllib.path url)) in Hs.
  destruct (Str.strip Str.slash (Urllib.path url)) as [|a base]; [done|].
  rewrite append_cons. exact Hs.
Qed.

Lemma upload_key_shape_witness :
  upload_key {| Urllib.scheme := "s3"; Urllib.netloc := "bucket";
                Urllib.path := "//prefix/sub//" |} (Some "build42") =
    "prefix/sub/build42.zip" /\
  upload_key {| Urllib.scheme := "s3"; Urllib.netloc := "bucket";
                Urllib.path := "/" |} (Some "build42") = "build42.zip".
Proof.
  split.
  - destruct (upload_key_shape
                {| Urllib.scheme := "s3"; Urllib.netloc := "bucket";
                   Urllib.path := "//prefix/sub//" |} (Some "build42") eq_refl)
      as [-> _]. reflexivity.
  - reflexivity.
Defined.

(** ** Running [dump_db] again *)




(** ** From the listing prefix to the local name (lines 127-143) *)







(** ** The downloads of [dump_artifacts], in order (lines 129-145) *)

(** A round that succeeds logs the name and requests one download. *)
Lemma dump_object_trace bucket s3path tconfig o w w' :
  Campaign.dump_object bucket s3path tconfig o w = (Ok tt, w') ->
  s3_calls w' = S (s3_calls w) /\
  exists new,
    trace w' = trace w ++ new /\
    omap download_of new = [(bucket, Urllib.unquote_plus (obj_listed o))].
Proof.
  unfold Campaign.dump_object. destruct (OsPath.split _) as [path tail].
  intros H.
  apply bind_ok_inv in H as (lpath & w1 & H1 & H).
  apply re_sub_ok in H1 as [_ ->].
  apply bind_ok_inv in H as ([] & w2 & H2 & H).
  assert (Hw2 : s3_calls w2 = s3_calls w /\ trace w2 = trace w).
  { destruct (negb _); [|by injection H2 as <-].
    apply bind_ok_inv in H2 as (present & wa & Ha & H2). injection Ha as _ <-.
    destruct (negb present); [|by injection H2 as <-].
    by apply os_makedirs_ok in H2 as (cs & t & _ & _ & ->). }
  destruct Hw2 as [Hc2 Ht2].
  apply bind_ok_inv in H as (shown & w3 & H3 & H).
  apply re_sub_ok in H3 as [_ ->].
  apply bind_ok_inv in H as ([] & w4 & H4 & H). injection H4 as <-.
  apply bind_ok_inv in H as (filename & w5 & H5 & H).
  apply re_sub_ok in H5 as [_ ->].
  unfold download_file in H.
  apply bind_ok_inv in H as ([] & w6 & H6 & H). injection H6 as <-.
  apply bind_ok_inv in H as ([] & w7 & H7 & H).
  apply client_call_ok in H7 as ->.
  apply bind_ok_inv in H as (w8 & w9 & H8 & H). injection H8 as <- <-.
  destruct (s3_buckets _ !! bucket) as [objs|]; [|done].
  destruct (List.find _ objs) as [obj|]; [|done].
  apply write_file_ok in H as (p & t & _ & _ & ->).
  cbn [s3_calls trace with_fs with_call with_event]. split; [by rewrite Hc2|].
  eexists. rewrite Ht2, <- app_assoc. split; [reflexivity|]. reflexivity.
Qed.

Lemma dump_objects_trace bucket s3path tconfig objects w w' :
  for_each objects (Campaign.dump_object bucket s3path tconfig) w = (Ok tt, w') ->
  s3_calls w' = s3_calls w + List.length objects /\
  exists new,
    trace w' = trace w ++ new /\
    omap download_of new =
      map (fun o => (bucket, Urllib.unquote_plus (obj_listed o))) objects.
Proof.
  revert w. induction objects as [|o objects IH]; intros w H.
  - injection H as <-. split; [cbn; lia|]. exists []. by rewrite app_nil_r.
  - cbn [for_each] in H. apply bind_ok_inv in H as ([] & w1 & H1 & H).
    apply dump_object_trace in H1 as (Hc1 & new1 & Ht1 & Hd1).
    destruct (IH w1 H) as (Hc & new & Ht & Hd).
    split; [cbn [List.length]; lia|].
    exists (new1 ++ new). split.
    + by rewrite Ht, Ht1, app_assoc.
    + by rewrite omap_app, Hd1, Hd.
Qed.

(** X15.  When [dump_artifacts] succeeds, it has requested one download
    for each listed object, in the order of the listing and under the
    decoded key of the object, and has called the store client once for
    each of them after the listing. *)
Theorem dump_artifacts_downloads (w w1 w' : World) (bucket s3path : string)
    (tconfig : Z) (objects : list s3_object) :
  Campaign.list_artifacts w = (Ok (bucket, s3path, tconfig, objects), w1) ->
  Campaign.dump_artifacts w = (Ok Campaign.EX_OK, w') ->
  s3_calls w' = s3_calls w1 + List.length objects /\
  exists new,
    trace w' = trace w1 ++ new /\
    omap download_of new =
      map (fun o => (bucket, Urllib.unquote_plus (obj_listed o))) objects.
Proof.
  intros Hl Hda.
  by apply (dump_objects_trace bucket s3path tconfig), (dump_artifacts_ok w w1).
Qed.

Lemma dump_artifacts_downloads_witness :
  omap download_of (trace (snd (Campaign.dump_artifacts Scenario.world))) =
    [("bucket", "prefix/build42/log.txt");
     ("bucket", "prefix/build42/sub/report.html")] /\
  s3_calls (snd (Campaign.dump_artifacts Scenario.world)) = 4.
Proof.
  pose (w := Scenario.world).
  pose (w1 := snd (Campaign.list_artifacts w)).
  pose (w' := snd (Campaign.dump_artifacts w)).
  destruct (dump_artifacts_downloads w w1 w' "bucket" "prefix" 8388608
              [Scenario.object "prefix/build42/log.txt" "LOG";
               Scenario.object "prefix/build42/sub/report.html" "REPORT"])
    as (Hc & new & Ht & Hd); try (vm_compute; reflexivity).
  split.
  - fold w w'. rewrite Ht, omap_app, Hd. vm_compute. reflexivity.
  - fold w w'. rewrite Hc. vm_compute. reflexivity.
Defined.

(** ** Where the credentials guidance is logged (lines 174-215) *)

Section Quiet.

Variable w0 : World.

(** The records logged since [w0] do not hold the guidance. *)
Local Abbreviation quiet :=
  (fun w : World =>
     exists new, trace w = trace w0 ++ new /\ Forall not_guidance new).

Lemma quiet_start : quiet w0.
Proof. exists []. by rewrite app_nil_r. Qed.

Lemma quiet_event (w : World) (e : event) :
  not_guidance e -> quiet w -> quiet (with_event e w).
Proof.
  intros He (new & Ht & Hn). exists (new ++ [e]). split.
  - cbn. by rewrite Ht, app_assoc.
  - apply Forall_app. split; [done|]. by constructor.
Qed.

Lemma quiet_call (w : World) : quiet w -> quiet (with_call w).
Proof. done. Qed.

Lemma quiet_fs (w : World) (t : Fs.node) : quiet w -> quiet (with_fs t w).
Proof. done. Qed.

Lemma quiet_buckets (w : World) (b : gmap string (list s3_object)) :
  quiet w -> quiet (with_buckets b w).
Proof. done. Qed.

Lemma not_logged (w : World) : quiet w -> ~ logged_since w0 w credentials_record.
Proof.
  intros (new & Ht & Hn) (before & after & Hl).
  rewrite Ht in Hl. apply app_inv_head in Hl. subst new.
  apply Forall_app in Hn as [_ Hn]. apply Forall_cons in Hn as [Hn _].
  by apply Hn.
Qed.

Lemma quiet_dump_db : spec quiet Campaign.dump_db (fun _ => True).
Proof.
  unfold Campaign.dump_db. apply spec_try_except.
  - eapply spec_bind; [apply spec_env_get|]. intros url _.
    eapply spec_bind; [apply spec_env_get|]. intros build_tag _.
    eapply spec_bind; [by apply (spec_requests_get _ _ quiet_event)|]. intros req _.
    eapply spec_bind; [apply spec_raise_for_status|]. intros _ _.
    eapply spec_bind; [apply spec_of_option|]. intros output _.
    eapply spec_bind; [by apply (spec_logger _ _ quiet_event)|]. intros _ _.
    eapply spec_bind; [apply spec_rewrite_links|]. intros output' _.
    eapply spec_bind; [by apply (spec_logger _ _ quiet_event)|]. intros _ _.
    eapply spec_bind; [apply spec_env_get|]. intros build_tag' _.
    eapply spec_bind; [apply (spec_write_file _ quiet_fs)|]. intros _ _.
    by apply spec_ret.
  - intros e.
    eapply spec_bind; [by apply (spec_logger_exception _ _ quiet_event)|].
    intros _ _. by apply spec_ret.
Qed.

Lemma quiet_list_artifacts : spec quiet Campaign.list_artifacts (fun _ => True).
Proof.
  unfold Campaign.list_artifacts.
  eapply spec_bind; [apply spec_env_get|]. intros build_tag _.
  eapply spec_bind; [apply spec_os_environ|]. intros endpoint_url _.
  eapply spec_bind; [by apply (spec_boto3_resource _ _ quiet_event quiet_call)|].
  intros _ _.
  eapply spec_bind; [apply spec_os_environ|]. intros dst_s3_url _.
  eapply spec_bind; [apply spec_os_environ|]. intros endpoint_url' _.
  eapply spec_bind; [apply spec_urlparse|]. intros url _.
  eapply spec_bind; [apply spec_urlparse|]. intros url' _.
  eapply spec_bind; [apply spec_of_option|]. intros s3path _.
  eapply spec_bind; [apply spec_os_path_join|]. intros prefix _.
  eapply spec_bind; [by apply (spec_objects_filter _ _ quiet_event quiet_call)|].
  intros objects _. by apply spec_ret.
Qed.

Lemma quiet_dump_object bucket_name s3path tconfig o :
  spec quiet (Campaign.dump_object bucket_name s3path tconfig o) (fun _ => True).
Proof.
  unfold Campaign.dump_object. destruct (OsPath.split _) as [path tail].
  eapply spec_bind; [apply spec_re_sub|]. intros lpath _.
  eapply spec_bind with (Q1 := fun _ => True).
  { destruct (negb _); [|by apply spec_ret].
    eapply spec_bind; [apply spec_os_path_exists|]. intros present _.
    destruct (negb present); [|by apply spec_ret].
    apply (spec_os_makedirs _ quiet_fs). }
  intros _ _.
  eapply spec_bind; [apply spec_re_sub|]. intros shown _.
  eapply spec_bind; [by apply (spec_logger _ _ quiet_event)|]. intros _ _.
  eapply spec_bind; [apply spec_re_sub|]. intros filename _.
  by apply (spec_download_file _ _ quiet_event quiet_call quiet_fs).
Qed.

Lemma quiet_dump_artifacts : spec quiet Campaign.dump_artifacts (fun _ => True).
Proof.
  unfold Campaign.dump_artifacts. apply spec_try_except.
  - eapply spec_bind; [apply quiet_list_artifacts|].
    intros [[[bucket_name s3path] tconfig] objects] _.
    eapply spec_bind with (Q1 := fun _ => True).
    { apply spec_for_each. intros o. apply quiet_dump_object. }
    intros _ _. by apply spec_ret.
  - intros e.
    eapply spec_bind; [by apply (spec_logger_exception _ _ quiet_event)|].
    intros _ _. by apply spec_ret.
Qed.

Lemma quiet_publish build_tag :
  spec quiet (Campaign.publish build_tag) (fun _ => True).
Proof.
  unfold Campaign.publish.
  eapply spec_bind; [apply spec_os_environ|]. intros endpoint_url _.
  eapply spec_bind; [by apply (spec_boto3_resource _ _ quiet_event quiet_call)|].
  intros _ _.
  eapply spec_bind; [apply spec_os_environ|]. intros dst_s3_url _.
  eapply spec_bind; [apply spec_os_environ|]. intros endpoint_url' _.
  eapply spec_bind; [apply spec_urlparse|]. intros url _.
  eapply spec_bind; [apply spec_mimetypes|]. intros mime_type _.
  eapply spec_bind; [apply spec_urlparse|]. intros url' _.
  eapply spec_bind;
    [by apply (spec_upload_file _ _ quiet_event quiet_call quiet_buckets)|].
  intros _ _.
  eapply spec_bind; [apply spec_os_environ|]. intros dst_http_url _.
  eapply spec_bind; [by apply (spec_logger _ _ quiet_event)|]. intros _ _.
  by apply spec_ret.
Qed.

(** The statements of [zip_campaign_files] inside its [try] do not log
    the guidance. *)
Lemma quiet_stages :
  spec quiet
    (let* build_tag := env_get "BUILD_TAG" in
     let* rc := Campaign.dump_db in
     Campaign.assert_ok rc ;;
     let* rc := Campaign.dump_artifacts in
     Campaign.assert_ok rc ;;
     Campaign.build_archive build_tag ;;
     Campaign.publish build_tag)
    (fun _ => True).
Proof.
  eapply spec_bind; [apply spec_env_get|]. intros build_tag _.
  eapply spec_bind; [apply quiet_dump_db|]. intros rc _.
  eapply spec_bind; [apply spec_assert_ok|]. intros _ _.
  eapply spec_bind; [apply quiet_dump_artifacts|]. intros rc' _.
  eapply spec_bind; [apply spec_assert_ok|]. intros _ _.
  eapply spec_bind; [apply (spec_build_archive _ quiet_fs)|]. intros _ _.
  apply quiet_publish.
Qed.

End Quiet.

(** The exceptions of the archive step are those of the file system and
    of [os.walk]. *)
Lemma write_file_exn p c w e w' :
  write_file p c w = (Raise e, w') -> e = OSError.
Proof.
  unfold write_file. destruct (Str.endswith_char _ _); [by intros [= <- _]|].
  destruct (Fs.components p) as [cs|]; [|by intros [= <- _]].
  destruct (Fs.write (fs w) cs c); [done|by intros [= <- _]].
Qed.

Lemma zip_write_exn name filename w e w' :
  zip_write name filename w = (Raise e, w') -> e = OSError.
Proof.
  unfold zip_write. intros H.
  apply bind_raise_inv in H as [H|(member & w1 & _ & H)].
  - unfold zip_member in H.
    apply bind_raise_inv in H as [H|(w2 & w3 & H2 & H)]; [done|].
    destruct (Fs.components filename) as [cs|]; [|by injection H as <- _].
    destruct (Fs.lookup (fs w2) cs) as [[c|es]|]; try done.
    by injection H as <- _.
  - apply bind_raise_inv in H as [H|(w2 & w3 & H2 & H)]; [done|].
    destruct (Fs.components name) as [cs|]; [|by injection H as <- _].
    destruct (Fs.read (fs w2) cs) as [[b|d|m ms]|]; try (by injection H as <- _).
    by apply write_file_exn in H.
Qed.

Lemma for_each_raise {A} (l : list A) (body : A -> M unit) w e w' :
  for_each l body w = (Raise e, w') ->
  exists x wa, In x l /\ body x wa = (Raise e, w').
Proof.
  revert w. induction l as [|y l IH]; intros w H; [done|].
  cbn [for_each] in H. apply bind_raise_inv in H as [H|([] & w1 & _ & H)].
  - exists y, w. split; [by left|done].
  - destruct (IH w1 H) as (x & wa & Hin & Hx). exists x, wa. split; [by right|done].
Qed.

Lemma build_archive_exn build_tag w e w' :
  Campaign.build_archive build_tag w = (Raise e, w') ->
  e = OSError \/ e = TypeError.
Proof.
  unfold Campaign.build_archive, zip_open. intros H.
  apply bind_raise_inv in H as [H|([] & w1 & _ & H)].
  { left. by apply write_file_exn in H. }
  apply bind_raise_inv in H as [H|([] & w2 & _ & H)].
  { left. by apply zip_write_exn in H. }
  apply bind_raise_inv in H as [H|(tree & w3 & _ & H)].
  { right. unfold os_walk in H. destruct build_tag; [done|]. by injection H as <- _. }
  apply for_each_raise in H as ([[root dirs] files] & wa & _ & H).
  apply for_each_raise in H as (filename & wb & _ & H).
  left. by apply zip_write_exn in H.
Qed.

Lemma dump_db_no_raise w e w' : Campaign.dump_db w <> (Raise e, w').
Proof.
  intros H. destruct (dump_db_returns w) as (rc & Hrc & _).
  rewrite H in Hrc. discriminate Hrc.
Qed.

Lemma dump_artifacts_no_raise w e w' : Campaign.dump_artifacts w <> (Raise e, w').
Proof.
  intros H. destruct (dump_artifacts_returns w) as (rc & Hrc & _).
  rewrite H in Hrc. discriminate Hrc.
Qed.

(** A [NoCredentialsError] that reaches the handlers of
    [zip_campaign_files] comes from the publish step. *)
Lemma stages_no_credentials w wb :
  (let* build_tag := env_get "BUILD_TAG" in
   let* rc := Campaign.dump_db in
   Campaign.assert_ok rc ;;
   let* rc := Campaign.dump_artifacts in
   Campaign.assert_ok rc ;;
   Campaign.build_archive build_tag ;;
   Campaign.publish build_tag) w = (Raise NoCredentialsError, wb) ->
  exists w1 w2 w3,
    Campaign.dump_db w = (Ok Campaign.EX_OK, w1) /\
    Campaign.dump_artifacts w1 = (Ok Campaign.EX_OK, w2) /\
    Campaign.build_archive (environ w !! "BUILD_TAG") w2 = (Ok tt, w3) /\
    Campaign.publish (environ w !! "BUILD_TAG") w3 = (Raise NoCredentialsError, wb).
Proof.
  intros H.
  apply bind_raise_inv in H as [H|(bt & wa & Ha & H)]; [done|].
  injection Ha as <- <-.
  apply bind_raise_inv in H as [H|(rc1 & w1 & Hdb & H)];
    [by apply dump_db_no_raise in H|].
  apply bind_raise_inv in H as [H|([] & w1' & Ha1 & H)];
    [by apply assert_ok_raise in H|].
  apply assert_ok_ok in Ha1 as [-> ->].
  apply bind_raise_inv in H as [H|(rc2 & w2 & Hda & H)];
    [by apply dump_artifacts_no_raise in H|].
  apply bind_raise_inv in H as [H|([] & w2' & Ha2 & H)];
    [by apply assert_ok_raise in H|].
  apply assert_ok_ok in Ha2 as [-> ->].
  apply bind_raise_inv in H as [H|([] & w3 & Hzip & H)].
  { by apply build_archive_exn in H as [H|H]. }
  by exists w1, w2, w3.
Qed.

(** When the guidance is logged, the publish step raised
    [NoCredentialsError] after the stages before it succeeded. *)
Lemma guidance_from_publish w r w' :
  Campaign.zip_campaign_files w = (r, w') ->
  logged_since w w' credentials_record ->
  exists w1 w2 w3 w4,
    Campaign.dump_db w = (Ok Campaign.EX_OK, w1) /\
    Campaign.dump_artifacts w1 = (Ok Campaign.EX_OK, w2) /\
    Campaign.build_archive (environ w !! "BUILD_TAG") w2 = (Ok tt, w3) /\
    Campaign.publish (environ w !! "BUILD_TAG") w3 = (Raise NoCredentialsError, w4) /\
    w' = with_event (EvLog credentials_record) w4.
Proof.
  unfold Campaign.zip_campaign_files, try_except. intros H Hlog.
  pose proof (quiet_stages w w (quiet_start w)) as [Hq _].
  match type of H with
  | context [match ?c w with _ => _ end] => destruct (c w) as [[rc|e] wb] eqn:E
  end; cbn [snd] in Hq.
  - injection H as <- <-. by apply not_logged in Hq.
  - assert (Hcase : e = NoCredentialsError \/
                    exists new, trace w' = trace w ++ new /\ Forall not_guidance new).
    { destruct e; try (by left);
        right; injection H as <- <-; by apply (quiet_event w). }
    destruct Hcase as [->|Hq']; [|by apply not_logged in Hq'].
    injection H as <- <-.
    apply stages_no_credentials in E as (w1 & w2 & w3 & Hdb & Hda & Hzip & Hpub).
    by exists w1, w2, w3, wb.
Qed.

Lemma client_call_no_fault w w' :
  client_call w = (Ok tt, w') -> s3_fault w (s3_calls w) = None.
Proof. unfold client_call. by destruct (s3_fault w (s3_calls w)). Qed.

Lemma of_option_ok {A} (e : exn) (o : option A) w a w' :
  of_option e o w = (Ok a, w') -> o = Some a /\ w' = w.
Proof. destruct o; [|done]. by intros [= <- <-]. Qed.

Lemma os_path_join_ok a b w r w' :
  os_path_join a b w = (Ok r, w') -> w' = w.
Proof. destruct b; [|done]. by intros [= _ <-]. Qed.

(** Without credentials the listing of line 129 fails, if nothing
    failed before it. *)
Lemma list_artifacts_unresolvable w :
  credentials_unresolvable w ->
  exists e wl, Campaign.list_artifacts w = (Raise e, wl).
Proof.
  intros Hcred.
  destruct (Campaign.list_artifacts w) as [[r|e] wl] eqn:E; [exfalso|by eauto].
  unfold Campaign.list_artifacts in E.
  apply bind_ok_inv in E as (bt & wa & Ha & E). injection Ha as _ <-.
  apply bind_ok_inv in E as (ep & w1 & H1 & E).
  apply os_environ_ok in H1 as [_ ->].
  apply bind_ok_inv in E as ([] & w2 & H2 & E).
  apply boto3_resource_ok in H2 as ->.
  apply bind_ok_inv in E as (dst & w3 & H3 & E).
  apply os_environ_ok in H3 as [_ ->].
  apply bind_ok_inv in E as (ep' & w4 & H4 & E).
  apply os_environ_ok in H4 as [_ ->].
  apply bind_ok_inv in E as (url & w5 & H5 & E).
  apply urlparse_ok in H5 as [_ ->].
  apply bind_ok_inv in E as (url' & w6 & H6 & E).
  apply urlparse_ok in H6 as [_ ->].
  apply bind_ok_inv in E as (s3path & w7 & H7 & E).
  apply of_option_ok in H7 as [_ ->].
  apply bind_ok_inv in E as (prefix & w8 & H8 & E).
  apply os_path_join_ok in H8 as ->.
  apply bind_ok_inv in E as (objects & w9 & H9 & _).
  unfold objects_filter in H9.
  apply bind_ok_inv in H9 as ([] & w10 & H10 & H9). injection H10 as <-.
  apply bind_ok_inv in H9 as ([] & w11 & H11 & _).
  apply client_call_no_fault in H11.
  cbn [s3_fault s3_calls with_call with_event] in H11.
  rewrite (Hcred (S (s3_calls w))) in H11 by lia. discriminate H11.
Qed.

Lemma dump_artifacts_unresolvable w :
  credentials_unresolvable w ->
  exists e wl,
    Campaign.dump_artifacts w =
      (Ok Campaign.EX_DUMP_ARTIFACTS_ERROR,
       with_event (EvLog (dump_artifacts_failure_record e)) wl) /\
    fs wl = fs w /\ s3_buckets wl = s3_buckets w.
Proof.
  intros Hcred.
  destruct (list_artifacts_unresolvable w Hcred) as (e & wl & Hl).
  exists e, wl. split; [|split].
  - unfold Campaign.dump_artifacts.
    rewrite (try_except_raise _ _ w e wl); [reflexivity|]. by apply bind_raise.
  - pose proof (list_artifacts_keeps_fs w) as H. by rewrite Hl in H.
  - pose proof (list_artifacts_keeps_store w) as H. by rewrite Hl in H.
Qed.

(** C6, as amended.  When the stages before it succeed and the publish
    step raises [NoCredentialsError], [zip_campaign_files] logs where
    credentials may be supplied and returns
    EX_ZIP_CAMPAIGN_FILES_ERROR; nothing is uploaded and the archive
    built before is still there, unchanged.  The guidance is logged in
    that case only.  When the store client finds no credentials at all,
    the listing of [dump_artifacts] fails first: [zip_campaign_files]
    logs a failed assertion and not the guidance, writes no file after
    [dump_db] (no archive is built), leaves the store as it was, and
    returns the same code.  [zip_campaign_files] has this one error
    code for every failure. *)
Theorem missing_credentials_at_publish (w : World) :
  (forall w1 w2 w3 w4,
     Campaign.dump_db w = (Ok Campaign.EX_OK, w1) ->
     Campaign.dump_artifacts w1 = (Ok Campaign.EX_OK, w2) ->
     Campaign.build_archive (environ w !! "BUILD_TAG") w2 = (Ok tt, w3) ->
     Campaign.publish (environ w !! "BUILD_TAG") w3 = (Raise NoCredentialsError, w4) ->
     Campaign.zip_campaign_files w =
       (Ok Campaign.EX_ZIP_CAMPAIGN_FILES_ERROR,
        with_event (EvLog credentials_record) w4) /\
     s3_buckets w4 = s3_buckets w /\
     fs w4 = fs w3 /\
     (exists cs members,
        Fs.components (fmt (environ w !! "BUILD_TAG") +:+ ".zip") = Some cs /\
        Fs.read (fs w4) cs = Some (ZipArchive ZIP_DEFLATED members))) /\
  (forall r w',
     Campaign.zip_campaign_files w = (r, w') ->
     logged_since w w' credentials_record ->
     exists w1 w2 w3 w4,
       Campaign.dump_db w = (Ok Campaign.EX_OK, w1) /\
       Campaign.dump_artifacts w1 = (Ok Campaign.EX_OK, w2) /\
       Campaign.build_archive (environ w !! "BUILD_TAG") w2 = (Ok tt, w3) /\
       Campaign.publish (environ w !! "BUILD_TAG") w3 =
         (Raise NoCredentialsError, w4) /\
       w' = with_event (EvLog credentials_record) w4) /\
  (credentials_unresolvable w ->
   exists w',
     Campaign.zip_campaign_files w = (Ok Campaign.EX_ZIP_CAMPAIGN_FILES_ERROR, w') /\
     last (trace w') = Some (EvLog (zip_failure_record AssertionError)) /\
     ~ logged_since w w' credentials_record /\
     fs w' = fs (snd (Campaign.dump_db w)) /\
     s3_buckets w' = s3_buckets w) /\
  (fst (Campaign.zip_campaign_files w) = Ok Campaign.EX_OK \/
   fst (Campaign.zip_campaign_files w) = Ok Campaign.EX_ZIP_CAMPAIGN_FILES_ERROR).
Proof.
  split; [|split; [|split]].
  - intros w1 w2 w3 w4 Hdb Hda Hzip Hpub.
    destruct (publish_no_credentials _ _ _ Hpub) as [Hb Hf].
    split; [|split; [|split]].
    + unfold Campaign.zip_campaign_files.
      rewrite (try_except_raise _ _ w NoCredentialsError w4); [reflexivity|].
      by apply (zip_stages w w1 w2 w3).
    + rewrite Hb.
      pose proof (build_archive_keeps_store (environ w !! "BUILD_TAG") w2) as H3.
      pose proof (dump_artifacts_keeps_store w1) as H2.
      pose proof (dump_db_keeps_store w) as H1.
      rewrite Hzip in H3. rewrite Hda in H2. rewrite Hdb in H1.
      simpl in *. congruence.
    + exact Hf.
    + destruct (build_archive_archive _ _ _ Hzip) as (cs & ms & Hcs & Hr).
      exists cs, ms. by rewrite Hf.
  - intros r w'. apply guidance_from_publish.
  - intros Hcred.
    destruct (Campaign.dump_db w) as [r1 w1] eqn:Hdb.
    destruct (dump_db_returns w) as (rc & Hrc & Hcode).
    rewrite Hdb in Hrc. cbn [fst snd] in *. subst r1.
    pose proof (dump_db_keeps_store w) as Hs1. rewrite Hdb in Hs1. cbn [snd] in Hs1.
    destruct Hcode as [->| ->].
    + assert (Hcred1 : credentials_unresolvable w1).
      { pose proof (dump_db_keeps_calls w) as Hc.
        pose proof (dump_db_keeps_oracles w) as [_ Hf].
        rewrite Hdb in Hc, Hf. cbn [snd] in Hc, Hf.
        intros n Hn. rewrite Hf. apply Hcred. by rewrite <- Hc. }
      destruct (dump_artifacts_unresolvable w1 Hcred1) as (e & wl & Hda & Hfs & Hst).
      eexists. split; [|split; [|split; [|split]]].
      * apply (zip_after_failed_dump_artifacts w w1 _ _ Hdb Hda). discriminate.
      * cbn [trace with_event]. by rewrite last_snoc.
      * intros Hlog.
        destruct (guidance_from_publish w _ _
                    (zip_after_failed_dump_artifacts w w1 _ _ Hdb Hda
                       ltac:(discriminate)) Hlog)
          as (w1' & w2' & _ & _ & Hdb' & Hda' & _).
        rewrite Hdb in Hdb'. injection Hdb' as <-.
        rewrite Hda in Hda'. discriminate Hda'.
      * exact Hfs.
      * cbn [s3_buckets with_event]. congruence.
    + eexists. split; [|split; [|split; [|split]]].
      * apply (zip_after_failed_dump_db w _ w1 Hdb). discriminate.
      * cbn [trace with_event]. by rewrite last_snoc.
      * intros Hlog.
        destruct (guidance_from_publish w _ _
                    (zip_after_failed_dump_db w _ w1 Hdb ltac:(discriminate)) Hlog)
          as (w1' & _ & _ & _ & Hdb' & _).
        rewrite Hdb in Hdb'. discriminate Hdb'.
      * reflexivity.
      * exact Hs1.
  - apply zip_campaign_files_returns.
Qed.

Lemma missing_credentials_at_publish_witness :
  exists w4,
    Campaign.zip_campaign_files Scenario.world_no_credentials =
      (Ok Campaign.EX_ZIP_CAMPAIGN_FILES_ERROR,
       with_event (EvLog credentials_record) w4) /\
    s3_buckets w4 = s3_buckets Scenario.world_no_credentials /\
    Fs.read (fs w4) ["build42.zip"] =
      Some (ZipArchive ZIP_DEFLATED
              [("build42.json", JsonText (Scenario.doc "http://internal/x/a.log"));
               ("build42/log.txt", Bytes "LOG");
               ("build42/sub/report.html", Bytes "REPORT")]).
Proof.
  pose (w := Scenario.world_no_credentials).
  pose (w1 := snd (Campaign.dump_db w)).
  pose (w2 := snd (Campaign.dump_artifacts w1)).
  pose (w3 := snd (Campaign.build_archive (environ w !! "BUILD_TAG") w2)).
  pose (w4 := snd (Campaign.publish (environ w !! "BUILD_TAG") w3)).
  exists w4.
  destruct (missing_credentials_at_publish w) as [H _].
  destruct (H w1 w2 w3 w4) as (Hz & Hb & _);
    try (vm_compute; reflexivity).
  split; [exact Hz|]. split; [exact Hb|]. vm_compute. reflexivity.
Defined.

(** C6, counterexample to the claim as stated.  In scenario B with a
    store client that finds no credentials at any call, and so none
    during the publish step, [zip_campaign_files] returns its error
    code, but the guidance on credentials is not logged and no archive
    exists: the failure is the one of the listing, caught by
    [dump_artifacts], and the publish step is not reached. *)
Lemma credentials_unresolvable_no_guidance :
  (forall n,
     s3_fault (Scenario.with_fault (fun _ => Some NoCredentialsError) Scenario.world)
       n = Some NoCredentialsError) /\
  fst (Campaign.zip_campaign_files
         (Scenario.with_fault (fun _ => Some NoCredentialsError) Scenario.world)) =
    Ok Campaign.EX_ZIP_CAMPAIGN_FILES_ERROR /\
  ~ In (EvLog credentials_record)
       (trace (snd (Campaign.zip_campaign_files
                      (Scenario.with_fault (fun _ => Some NoCredentialsError)
                         Scenario.world)))) /\
  Fs.read (fs (snd (Campaign.zip_campaign_files
                      (Scenario.with_fault (fun _ => Some NoCredentialsError)
                         Scenario.world))))
    ["build42.zip"] = None /\
  last (trace (snd (Campaign.zip_campaign_files
                      (Scenario.with_fault (fun _ => Some NoCredentialsError)
                         Scenario.world)))) =
    Some (EvLog (zip_failure_record AssertionError)).
Proof.
  split; [done|]. split; [vm_compute; reflexivity|].
  split; [|split; vm_compute; reflexivity].
  intros H. vm_compute in H.
  repeat (destruct H as [H|H]; [discriminate H|]). exact H.
Qed.

(** ** The transfers made, and their thresholds (lines 121-145 and 187-199) *)

Section NoTransfer.

Variable w0 : World.

(** No transfer was requested since [w0]. *)
Local Abbreviation idle :=
  (fun w : World =>
     exists new, trace w = trace w0 ++ new /\ omap transfer_threshold new = []).

Lemma idle_start : idle w0.
Proof. exists []. by rewrite app_nil_r. Qed.

Lemma idle_event (w : World) (e : event) :
  transfer_threshold e = None -> idle w -> idle (with_event e w).
Proof.
  intros He (new & Ht & Hn). exists (new ++ [e]). split.
  - cbn. by rewrite Ht, app_assoc.
  - rewrite omap_app, Hn. cbn. by rewrite He.
Qed.

Lemma dump_db_idle : idle (snd (Campaign.dump_db w0)).
Proof.
  apply (spec_dump_db idle (fun e => transfer_threshold e = None));
    [exact idle_event|done|done|exact idle_start].
Qed.

End NoTransfer.

Lemma build_archive_keeps_trace build_tag w :
  trace (snd (Campaign.build_archive build_tag w)) = trace w.
Proof. apply (spec_build_archive (fun w' => trace w' = trace w)); auto. Qed.

(** The listing, when it succeeds: the threshold is the one selected
    from the endpoint, and no transfer is requested yet. *)
Lemma list_artifacts_ok w bucket s3path tconfig objects wl :
  Campaign.list_artifacts w = (Ok (bucket, s3path, tconfig, objects), wl) ->
  exists endpoint_url new,
    environ w !! "S3_ENDPOINT_URL" = Some endpoint_url /\
    tconfig = multipart_threshold_of endpoint_url /\
    trace wl = trace w ++ new /\ omap transfer_threshold new = [].
Proof.
  unfold Campaign.list_artifacts. intros E.
  apply bind_ok_inv in E as (bt & wa & Ha & E). injection Ha as _ <-.
  apply bind_ok_inv in E as (ep & w1 & H1 & E).
  apply os_environ_ok in H1 as [Hep ->].
  apply bind_ok_inv in E as ([] & w2 & H2 & E).
  apply boto3_resource_ok in H2 as ->.
  apply bind_ok_inv in E as (dst & w3 & H3 & E).
  apply os_environ_ok in H3 as [_ ->].
  apply bind_ok_inv in E as (ep' & w4 & H4 & E).
  apply os_environ_ok in H4 as [Hep' ->].
  cbn [environ with_call with_event] in Hep'.
  assert (ep' = ep) as -> by congruence.
  apply bind_ok_inv in E as (url & w5 & H5 & E).
  apply urlparse_ok in H5 as [_ ->].
  apply bind_ok_inv in E as (url' & w6 & H6 & E).
  apply urlparse_ok in H6 as [_ ->].
  apply bind_ok_inv in E as (s3path' & w7 & H7 & E).
  apply of_option_ok in H7 as [_ ->].
  apply bind_ok_inv in E as (prefix & w8 & H8 & E).
  apply os_path_join_ok in H8 as ->.
  apply bind_ok_inv in E as (objects' & w9 & H9 & E).
  injection E as <- <- <- <- <-.
  unfold objects_filter in H9.
  apply bind_ok_inv in H9 as ([] & w10 & H10 & H9). injection H10 as <-.
  apply bind_ok_inv in H9 as ([] & w11 & H11 & H9).
  apply client_call_ok in H11 as ->.
  apply bind_ok_inv in H9 as (w12 & w13 & H12 & H9). injection H12 as <- <-.
  destruct (s3_buckets _ !! _); [|done]. injection H9 as _ <-.
  exists ep. eexists. split; [done|]. split; [reflexivity|].
  cbn [trace with_call with_event]. rewrite <- app_assoc. split; reflexivity.
Qed.

(** A round that succeeds requests one transfer, with the threshold of
    the configuration. *)
Lemma dump_object_transfer bucket s3path tconfig o w w' :
  Campaign.dump_object bucket s3path tconfig o w = (Ok tt, w') ->
  exists new,
    trace w' = trace w ++ new /\ omap transfer_threshold new = [tconfig].
Proof.
  unfold Campaign.dump_object. destruct (OsPath.split _) as [path tail].
  intros H.
  apply bind_ok_inv in H as (lpath & w1 & H1 & H).
  apply re_sub_ok in H1 as [_ ->].
  apply bind_ok_inv in H as ([] & w2 & H2 & H).
  assert (Ht2 : trace w2 = trace w).
  { destruct (negb _); [|by injection H2 as <-].
    apply bind_ok_inv in H2 as (present & wa & Ha & H2). injection Ha as _ <-.
    destruct (negb present); [|by injection H2 as <-].
    by apply os_makedirs_ok in H2 as (cs & t & _ & _ & ->). }
  apply bind_ok_inv in H as (shown & w3 & H3 & H).
  apply re_sub_ok in H3 as [_ ->].
  apply bind_ok_inv in H as ([] & w4 & H4 & H). injection H4 as <-.
  apply bind_ok_inv in H as (filename & w5 & H5 & H).
  apply re_sub_ok in H5 as [_ ->].
  unfold download_file in H.
  apply bind_ok_inv in H as ([] & w6 & H6 & H). injection H6 as <-.
  apply bind_ok_inv in H as ([] & w7 & H7 & H).
  apply client_call_ok in H7 as ->.
  apply bind_ok_inv in H as (w8 & w9 & H8 & H). injection H8 as <- <-.
  destruct (s3_buckets _ !! bucket) as [objs|]; [|done].
  destruct (List.find _ objs) as [obj|]; [|done].
  apply write_file_ok in H as (p & t & _ & _ & ->).
  cbn [trace with_fs with_call with_event].
  eexists. rewrite Ht2, <- app_assoc. split; reflexivity.
Qed.

Lemma dump_objects_transfers bucket s3path tconfig objects w w' :
  for_each objects (Campaign.dump_object bucket s3path tconfig) w = (Ok tt, w') ->
  exists new,
    trace w' = trace w ++ new /\
    omap transfer_threshold new = map (fun _ => tconfig) objects.
Proof.
  revert w. induction objects as [|o objects IH]; intros w H.
  - injection H as <-. exists []. by rewrite app_nil_r.
  - cbn [for_each] in H. apply bind_ok_inv in H as ([] & w1 & H1 & H).
    apply dump_object_transfer in H1 as (new1 & Ht1 & Hd1).
    destruct (IH w1 H) as (new & Ht & Hd).
    exists (new1 ++ new). split.
    + by rewrite Ht, Ht1, app_assoc.
    + by rewrite omap_app, Hd1, Hd.
Qed.

(** When [dump_artifacts] returns EX_OK, the listing succeeded and the
    loop ran to its end. *)
Lemma dump_artifacts_ok_inv w w' :
  Campaign.dump_artifacts w = (Ok Campaign.EX_OK, w') ->
  exists bucket s3path tconfig objects wl,
    Campaign.list_artifacts w = (Ok (bucket, s3path, tconfig, objects), wl) /\
    for_each objects (Campaign.dump_object bucket s3path tconfig) wl = (Ok tt, w').
Proof.
  intros H.
  destruct (Campaign.list_artifacts w) as [[[[[b s] t] objs]|e] wl] eqn:Hl.
  - exists b, s, t, objs, wl. split; [done|]. by apply (dump_artifacts_ok w wl w').
  - unfold Campaign.dump_artifacts in H.
    erewrite try_except_raise in H by (by apply bind_raise). discriminate H.
Qed.

(** The transfers of [dump_artifacts] when it succeeds: one download
    for each listed object, each with the threshold selected from the
    endpoint. *)
Lemma dump_artifacts_transfers w w' :
  Campaign.dump_artifacts w = (Ok Campaign.EX_OK, w') ->
  exists endpoint_url bucket s3path objects wl new,
    environ w !! "S3_ENDPOINT_URL" = Some endpoint_url /\
    Campaign.list_artifacts w =
      (Ok (bucket, s3path, multipart_threshold_of endpoint_url, objects), wl) /\
    trace w' = trace w ++ new /\
    omap transfer_threshold new =
      map (fun _ => multipart_threshold_of endpoint_url) objects.
Proof.
  intros H.
  apply dump_artifacts_ok_inv in H as (b & s & t & objs & wl & Hl & Hloop).
  destruct (list_artifacts_ok _ _ _ _ _ _ Hl) as (ep & new1 & Hep & -> & Ht1 & Hn1).
  apply dump_objects_transfers in Hloop as (new2 & Ht2 & Hn2).
  exists ep, b, s, objs, wl, (new1 ++ new2). repeat split; try done.
  - by rewrite Ht2, Ht1, app_assoc.
  - by rewrite omap_app, Hn1, Hn2.
Qed.

(** The transfers of [zip_campaign_files] when it succeeds: the
    downloads of [dump_artifacts], then the upload of the archive, with
    the same threshold. *)
Lemma zip_transfers w w' :
  Campaign.zip_campaign_files w = (Ok Campaign.EX_OK, w') ->
  exists endpoint_url bucket s3path objects wl new,
    environ w !! "S3_ENDPOINT_URL" = Some endpoint_url /\
    Campaign.list_artifacts (snd (Campaign.dump_db w)) =
      (Ok (bucket, s3path, multipart_threshold_of endpoint_url, objects), wl) /\
    trace w' = trace w ++ new /\
    omap transfer_threshold new =
      map (fun _ => multipart_threshold_of endpoint_url) objects ++
      [multipart_threshold_of endpoint_url].
Proof.
  intros H.
  apply zip_ok_stages in H as (w1 & w2 & w3 & Hdb & Hda & Hzip & Hpub).
  pose proof (dump_db_idle w) as (new1 & Ht1 & Hn1).
  pose proof (dump_db_keeps_oracles w) as [He1 _].
  rewrite Hdb in Ht1, He1. cbn [snd] in Ht1, He1.
  pose proof (dump_artifacts_keeps_oracles w1) as [He2 _]. rewrite Hda in He2.
  pose proof (build_archive_keeps_oracles w2 (environ w !! "BUILD_TAG")) as [He3 _].
  pose proof (build_archive_keeps_trace (environ w !! "BUILD_TAG") w2) as Ht3.
  rewrite Hzip in He3, Ht3. cbn [snd] in He2, He3, Ht3.
  apply dump_artifacts_transfers in Hda
    as (ep & b & s & objs & wl & new2 & Hep & Hl & Ht2 & Hn2).
  apply publish_ok in Hpub
    as (ep' & dst & url & base & ct & wu & Hep' & _ & _ & _ & Hu & ->).
  assert (ep' = ep) as -> by congruence.
  apply upload_file_ok in Hu as (_ & _ & _ & _ & _ & _ & _ & _ & _ & Htu).
  cbn [trace with_call with_event] in Htu.
  exists ep, b, s, objs, wl. eexists. rewrite Hdb. cbn [snd].
  split; [by rewrite <- He1|]. split; [exact Hl|].
  cbn [trace with_event]. rewrite Htu, Ht3, Ht2, Ht1, <- !app_assoc.
  split; [reflexivity|].
  rewrite !omap_app, Hn1, Hn2. reflexivity.
Qed.

(** C7.  In [dump_artifacts] and in [zip_campaign_files] alike, every
    download and every upload is configured with the multipart threshold
    [multipart_threshold_of] computes from S3_ENDPOINT_URL.  For an
    endpoint whose URL contains google the threshold is 5 * 1024^5
    bytes, a thousand times the largest object a store accepts (5 TiB),
    so that no transfer is split; for any other endpoint it is 8 MiB, a
    single-digit number of mebibytes.  The transfers are made: when
    [dump_artifacts] succeeds it has requested one download for each
    listed object, and when [zip_campaign_files] succeeds it has
    requested these downloads and then one upload, each of them with
    the threshold selected from the endpoint. *)
Theorem multipart_threshold_selection (w : World) :
  transfers_selected w (snd (Campaign.dump_artifacts w)) /\
  transfers_selected w (snd (Campaign.zip_campaign_files w)) /\
  (forall endpoint_url,
     Str.contains "google" endpoint_url = true ->
     multipart_threshold_of endpoint_url = (5 * 2 ^ 50)%Z /\
     (1024 * (5 * 2 ^ 40) <= multipart_threshold_of endpoint_url)%Z) /\
  (forall endpoint_url,
     Str.contains "google" endpoint_url = false ->
     multipart_threshold_of endpoint_url = (8 * 2 ^ 20)%Z /\
     (1 * 2 ^ 20 <= multipart_threshold_of endpoint_url < 10 * 2 ^ 20)%Z) /\
  (forall w',
     Campaign.dump_artifacts w = (Ok Campaign.EX_OK, w') ->
     exists endpoint_url bucket s3path objects wl new,
       environ w !! "S3_ENDPOINT_URL" = Some endpoint_url /\
       Campaign.list_artifacts w =
         (Ok (bucket, s3path, multipart_threshold_of endpoint_url, objects), wl) /\
       trace w' = trace w ++ new /\
       omap transfer_threshold new =
         map (fun _ => multipart_threshold_of endpoint_url) objects) /\
  (forall w',
     Campaign.zip_campaign_files w = (Ok Campaign.EX_OK, w') ->
     exists endpoint_url bucket s3path objects wl new,
       environ w !! "S3_ENDPOINT_URL" = Some endpoint_url /\
       Campaign.list_artifacts (snd (Campaign.dump_db w)) =
         (Ok (bucket, s3path, multipart_threshold_of endpoint_url, objects), wl) /\
       trace w' = trace w ++ new /\
       omap transfer_threshold new =
         map (fun _ => multipart_threshold_of endpoint_url) objects ++
         [multipart_threshold_of endpoint_url]).
Proof.
  split; [|split; [|split; [|split; [|split]]]].
  - apply ts_dump_artifacts.
  - apply ts_zip_campaign_files.
  - intros ep H. unfold multipart_threshold_of. rewrite H. split; [reflexivity|lia].
  - intros ep H. unfold multipart_threshold_of. rewrite H. split; [reflexivity|lia].
  - apply dump_artifacts_transfers.
  - apply zip_transfers.
Qed.

Lemma multipart_threshold_selection_witness :
  omap transfer_threshold
    (trace (snd (Campaign.zip_campaign_files Scenario.world))) =
    [8388608; 8388608; 8388608]%Z /\
  omap transfer_threshold
    (trace (snd (Campaign.zip_campaign_files
                   (setenv "S3_ENDPOINT_URL" "https://storage.googleapis.com"
                      Scenario.world)))) =
    [5629499534213120; 5629499534213120; 5629499534213120]%Z.
Proof.
  split.
  - pose (w := Scenario.world).
    pose (w' := snd (Campaign.zip_campaign_files w)).
    destruct (multipart_threshold_selection w) as (_ & _ & _ & _ & _ & H).
    destruct (H w') as (ep & b & s & objs & wl & new & Hep & Hl & Ht & Hn);
      [vm_compute; reflexivity|].
    injection Hep as <-.
    vm_compute in Hl. injection Hl as <- <- <- <-.
    fold w w'. rewrite Ht, omap_app, Hn. reflexivity.
  - pose (w := setenv "S3_ENDPOINT_URL" "https://storage.googleapis.com"
                 Scenario.world).
    pose (w' := snd (Campaign.zip_campaign_files w)).
    destruct (multipart_threshold_selection w) as (_ & _ & _ & _ & _ & H).
    destruct (H w') as (ep & b & s & objs & wl & new & Hep & Hl & Ht & Hn);
      [vm_compute; reflexivity|].
    vm_compute in Hep. injection Hep as <-.
    vm_compute in Hl. injection Hl as <- <- <- <-.
    fold w w'. rewrite Ht, omap_app, Hn. reflexivity.
Defined.
